(** * PageRank with converged-page elimination: a shallow embedding

    This development embeds the solver of
    [src/openmp/serial_gs_pagerank_functions.c] -- [pagerank],
    [initialize], [calculateNextPagerank], [vectorNorm] and the matrix
    construction at the end of [generateNormalizedTransitionMatrixFromFile]
    -- and proves properties of its iteration controller.

    - C [double] values are IEEE 754 binary64 numbers, modelled by the
      Standard Library's [spec_float] with [prec = 53] and [emax = 1024]
      (round to nearest, ties to even; NaN, infinities and signed zeros
      included).
    - C arrays are lists read with [!!!] and written with [<[i:=x]>].
    - [for] loops are folds over the index range, in index order (the
      [#pragma omp parallel for] annotations are read as the sequential
      loops they decorate).
    - The [do ... while] loop of [pagerank] is a fuelled recursion.
    - C [int] values are integers ([Z], or [nat] for sizes and page
      indices); the counter [iterations] stays below the fuel, and signed
      overflow, undefined in C, is not modelled.
    - Console output ([printf]) is not modelled; the output file is the
      list of the lines written to it. *)

From Stdlib Require Import ZArith List Bool Lia String.
From Stdlib Require Import QArith Qabs Qpower.
From Stdlib Require Import Floats.SpecFloat.
From stdpp Require Import base list.

Set Default Proof Using "Type".
Local Open Scope Z_scope.
Local Open Scope nat_scope.

(** ** IEEE 754 binary64 *)

Module Double.

Definition prec : Z := 53%Z.
Definition emax : Z := 1024%Z.

Definition double : Type := spec_float.

Definition add : double -> double -> double := SFadd prec emax.
Definition sub : double -> double -> double := SFsub prec emax.
Definition mul : double -> double -> double := SFmul prec emax.
Definition div : double -> double -> double := SFdiv prec emax.
(** [fabs] *)
Definition fabs : double -> double := SFabs.
(** [x < y] and [x == y] on doubles *)
Definition ltb : double -> double -> bool := SFltb.
Definition eqb : double -> double -> bool := SFeqb.

(** Conversion of an [int] to [double] (exact below 2^53). *)
Definition of_int (z : Z) : double := binary_normalize prec emax z 0 false.

(** The constants the source writes: [0] / [0.], [1.], [0.5]. *)
Definition zero : double := S754_zero false.
Definition one : double := of_int 1.
Definition half : double := div one (of_int 2).

Definition is_nan (x : double) : bool :=
  match x with S754_nan => true | _ => false end.
Definition is_inf (x : double) : bool :=
  match x with S754_infinity _ => true | _ => false end.

End Double.

Import Double.

Declare Scope double_scope.
Delimit Scope double_scope with D.
Bind Scope double_scope with double.
Infix "+" := add : double_scope.
Infix "-" := sub : double_scope.
Infix "*" := mul : double_scope.
Infix "/" := div : double_scope.
Infix "<?" := ltb : double_scope.
Infix "=?" := eqb : double_scope.

#[export] Instance double_inhabited : Inhabited double := populate zero.

(** ** Loops *)

(** [for (int i = 0; i < n; ++i) body] *)
Definition for_loop {S : Type} (n : nat) (body : nat -> S -> S) (s : S) : S :=
  fold_left (fun st i => body i st) (seq 0 n) s.

(** [for (int j = a; j < b; ++j) body] *)
Definition for_range {S : Type} (a b : nat) (body : nat -> S -> S) (s : S) : S :=
  fold_left (fun st j => body j st) (seq a (b - a)) s.

(** [memcpy(dst, src, n * sizeof *dst)] on arrays of at least [n] cells. *)
Definition memcpy {A : Type} (dst src : list A) (n : nat) : list A :=
  take n src ++ drop n dst.

(** ** Sparse matrices

    The sparse-matrix library of the repository ([coo_sparse_matrix],
    [csr_sparse_matrix]) is used by the solver but its sources are not
    part of the verified file. *)

(** Modelled from the spec: the element type of the coordinate matrix is
    declared in a header that is missing; the fields are the ones the
    source reads ([value], [rowIndex]) plus the column of the triple
    "(row, column, value)". *)
Record CooSparseMatrixElement : Type := mkElement {
  value : double;
  rowIndex : nat;
  columnIndex : nat
}.

(** Modelled from the spec: the coordinate matrix type is declared in a
    missing header; it is "an ordered sequence of triples", the source
    reads [elements[i]] and [size]. *)
Record CooSparseMatrix : Type := mkCoo {
  elements : list CooSparseMatrixElement
}.

Definition coo_size (m : CooSparseMatrix) : nat := length (elements m).

(** Modelled from the spec: the compressed matrix type is declared in a
    missing header; "row-pointer array ..., a parallel column-index array,
    and a parallel value array". The source reads
    [rowCumulativeIndexes], [columnIndexes], [values] and
    [numberOfNonZeroElements]. *)
Record CsrSparseMatrix : Type := mkCsr {
  numberOfNonZeroElements : nat;
  rowCumulativeIndexes : list nat;
  columnIndexes : list nat;
  values : list double
}.

#[export] Instance element_inhabited : Inhabited CooSparseMatrixElement :=
  populate (mkElement zero 0 0).

Module SparseMatrix.

(** Modelled from the spec: [initCooSparseMatrix] and [allocMemoryForCoo]
    are missing; "createCoordinateMatrix(capacityHint) -> builder", an
    empty sequence whatever the hint. *)
Definition initCooSparseMatrix : CooSparseMatrix := mkCoo [].

(** Modelled from the spec: [addElement] is missing;
    "append(builder, value, row, col): O(1) amortized; no dedup". *)
Definition addElement (m : CooSparseMatrix) (v : double) (row col : nat)
  : CooSparseMatrix :=
  mkCoo (elements m ++ [mkElement v row col]).

(** Modelled from the spec: [transposeSparseMatrix] is missing;
    "swaps row/column fields of every triple in place". *)
Definition transposeSparseMatrix (m : CooSparseMatrix) : CooSparseMatrix :=
  mkCoo (map (fun e => mkElement (value e) (columnIndex e) (rowIndex e))
             (elements m)).

(** The triples of row [r], in the order of the sequence. *)
Definition rowElements (m : CooSparseMatrix) (r : nat)
  : list CooSparseMatrixElement :=
  filter (fun e => rowIndex e = r) (elements m).

(** Modelled from the spec: [transformToCSR] is missing;
    "toCompressed(builder, numberOfPages) -> compressed: groups triples
    by row ...; produces the row-pointer/column-index/value arrays ...
    Must tolerate rows with zero non-zero entries (empty range, row
    pointer equal to next)". The row pointer has [rows + 1] cells. *)
Definition transformToCSR (m : CooSparseMatrix) (rows : nat)
  : CsrSparseMatrix :=
  let grouped := flat_map (rowElements m) (seq 0 rows) in
  mkCsr (length grouped)
        (map (fun r => length (flat_map (rowElements m) (seq 0 r)))
             (seq 0 (S rows)))
        (map columnIndex grouped)
        (map value grouped).

(** Modelled from the spec: [csrSparseMatrixVectorMultiplication] is
    missing; "for every row i whose range is non-empty,
    output[i] = sum over entries (value * inputVector[columnIndex]);
    rows with no entries produce 0". *)
Definition csrSparseMatrixVectorMultiplication (m : CsrSparseMatrix)
    (vector product : list double) (vectorSize : nat) : list double :=
  for_loop vectorSize (fun i product =>
    let rowStartIndex := rowCumulativeIndexes m !!! i in
    let rowEndIndex := rowCumulativeIndexes m !!! (i + 1) in
    let sum := for_range rowStartIndex rowEndIndex (fun j sum =>
                 (sum + (values m !!! j) * (vector !!! (columnIndexes m !!! j)))%D)
                 zero in
    <[i := sum]> product) product.

(** Modelled from the spec: [cooSparseMatrixVectorMultiplication] is
    missing; "for every triple (row, col, value), accumulate
    value * inputVector[col] into output[row]", starting from a zeroed
    output ("a full recompute, not an incremental update"). *)
Definition cooSparseMatrixVectorMultiplication (m : CooSparseMatrix)
    (vector product : list double) (vectorSize : nat) : list double :=
  fold_left (fun product e =>
               <[rowIndex e :=
                  ((product !!! rowIndex e) + value e * (vector !!! columnIndex e))%D]>
               product)
            (elements m)
            (for_loop vectorSize (fun i product => <[i := zero]> product) product).

(** Modelled from the spec: [zeroOutRow] is missing; "mark all entries
    belonging to that row ... as logically absent from subsequent
    multiplication": the stored values of the row become [0]. *)
Definition zeroOutRow (m : CsrSparseMatrix) (row : nat) : CsrSparseMatrix :=
  let startIndex := rowCumulativeIndexes m !!! row in
  let endIndex := rowCumulativeIndexes m !!! (row + 1) in
  mkCsr (numberOfNonZeroElements m) (rowCumulativeIndexes m) (columnIndexes m)
        (for_range startIndex endIndex (fun j vs => <[j := zero]> vs) (values m)).

(** Modelled from the spec: [zeroOutColumn] is missing; "a column zeroing
    removes all entries across every row that point to that column". *)
Definition zeroOutColumn (m : CsrSparseMatrix) (column : nat) : CsrSparseMatrix :=
  mkCsr (numberOfNonZeroElements m) (rowCumulativeIndexes m) (columnIndexes m)
        (for_loop (numberOfNonZeroElements m) (fun j vs =>
           if Nat.eqb (columnIndexes m !!! j) column then <[j := zero]> vs else vs)
           (values m)).

End SparseMatrix.

(** ** Parameters *)

(** Modelled from the spec: the [Parameters] struct is declared in the
    missing header [serial_gs_pagerank_functions.h]; the fields are the
    ones the source reads and writes ("configuration record ...
    convergenceTolerance, maxIterations (0 = unlimited), dampingFactor,
    verbose, emitHistory, outputPath"). *)
Record Parameters : Type := mkParameters {
  numberOfPages : nat;
  maxIterations : Z;
  realIterations : Z;
  convergenceCriterion : double;
  dampingFactor : double;
  verbose : bool;
  history : bool;
  outputFilename : string;
  graphFilename : string
}.

Definition set_realIterations (v : Z) (p : Parameters) : Parameters :=
  mkParameters (numberOfPages p) (maxIterations p) v (convergenceCriterion p)
    (dampingFactor p) (verbose p) (history p) (outputFilename p) (graphFilename p).

Definition set_numberOfPages (v : nat) (p : Parameters) : Parameters :=
  mkParameters v (maxIterations p) (realIterations p) (convergenceCriterion p)
    (dampingFactor p) (verbose p) (history p) (outputFilename p) (graphFilename p).

Definition CONVERGENCE_CHECK_ITERATION_PERIOD : Z := 3.
Definition SPARSITY_INCREASE_ITERATION_PERIOD : Z := 3.

(** ** What the solver takes from outside the file

    The kernels of the sparse-matrix library, called through pointers to
    the matrix and to the output vector, and the contents of freshly
    [malloc]ed memory and of uninitialised locals. Everything proved in
    the section [Solver] holds for every such environment. *)
Class Runtime : Type := mkRuntime {
  (** [csrSparseMatrixVectorMultiplication(matrix, vector, &product, size)] *)
  csrSparseMatrixVectorMultiplication :
    CsrSparseMatrix -> list double -> list double -> nat -> list double;
  (** [cooSparseMatrixVectorMultiplication(matrix, vector, &product, size)] *)
  cooSparseMatrixVectorMultiplication :
    CooSparseMatrix -> list double -> list double -> nat -> list double;
  (** [zeroOutRow(&matrix, row)], [zeroOutColumn(&matrix, column)] *)
  zeroOutRow : CsrSparseMatrix -> nat -> CsrSparseMatrix;
  zeroOutColumn : CsrSparseMatrix -> nat -> CsrSparseMatrix;
  (** indeterminate values *)
  indeterminate_double : double;
  indeterminate_bool : bool;
  indeterminate_int : Z
}.

(** The environment whose kernels are the ones modelled from the spec. *)
Definition spec_runtime : Runtime :=
  mkRuntime SparseMatrix.csrSparseMatrixVectorMultiplication
            SparseMatrix.cooSparseMatrixVectorMultiplication
            SparseMatrix.zeroOutRow
            SparseMatrix.zeroOutColumn
            S754_nan
            true
            (-1)%Z.

(** ** The frame of [pagerank]

    The three objects reached through pointer arguments
    ([*transitionMatrix], [*pagerankVector], [*convergenceStatus]), the
    by-value argument [parameters], the locals, and the lines of the
    output file. *)
Record PagerankFrame : Type := mkFrame {
  transitionMatrix : CsrSparseMatrix;
  pagerankVector : list double;
  convergenceStatus : bool;
  parameters : Parameters;
  iterations : Z;
  delta : double;
  pagerankDifference : list double;
  previousPagerankVector : list double;
  convergedPagerankVector : list double;
  linksFromConvergedPagesPagerankVector : list double;
  linksFromConvergedPages : CooSparseMatrix;
  convergenceMatrix : list bool;
  newlyConvergedPages : list bool;
  outputFile : list (list double)
}.

Definition set_transitionMatrix v (s : PagerankFrame) : PagerankFrame :=
  mkFrame v (pagerankVector s) (convergenceStatus s) (parameters s) (iterations s)
    (delta s) (pagerankDifference s) (previousPagerankVector s)
    (convergedPagerankVector s) (linksFromConvergedPagesPagerankVector s)
    (linksFromConvergedPages s) (convergenceMatrix s) (newlyConvergedPages s)
    (outputFile s).
Definition set_pagerankVector v (s : PagerankFrame) : PagerankFrame :=
  mkFrame (transitionMatrix s) v (convergenceStatus s) (parameters s) (iterations s)
    (delta s) (pagerankDifference s) (previousPagerankVector s)
    (convergedPagerankVector s) (linksFromConvergedPagesPagerankVector s)
    (linksFromConvergedPages s) (convergenceMatrix s) (newlyConvergedPages s)
    (outputFile s).
Definition set_convergenceStatus v (s : PagerankFrame) : PagerankFrame :=
  mkFrame (transitionMatrix s) (pagerankVector s) v (parameters s) (iterations s)
    (delta s) (pagerankDifference s) (previousPagerankVector s)
    (convergedPagerankVector s) (linksFromConvergedPagesPagerankVector s)
    (linksFromConvergedPages s) (convergenceMatrix s) (newlyConvergedPages s)
    (outputFile s).
Definition set_parameters v (s : PagerankFrame) : PagerankFrame :=
  mkFrame (transitionMatrix s) (pagerankVector s) (convergenceStatus s) v (iterations s)
    (delta s) (pagerankDifference s) (previousPagerankVector s)
    (convergedPagerankVector s) (linksFromConvergedPagesPagerankVector s)
    (linksFromConvergedPages s) (convergenceMatrix s) (newlyConvergedPages s)
    (outputFile s).
Definition set_iterations v (s : PagerankFrame) : PagerankFrame :=
  mkFrame (transitionMatrix s) (pagerankVector s) (convergenceStatus s) (parameters s) v
    (delta s) (pagerankDifference s) (previousPagerankVector s)
    (convergedPagerankVector s) (linksFromConvergedPagesPagerankVector s)
    (linksFromConvergedPages s) (convergenceMatrix s) (newlyConvergedPages s)
    (outputFile s).
Definition set_delta v (s : PagerankFrame) : PagerankFrame :=
  mkFrame (transitionMatrix s) (pagerankVector s) (convergenceStatus s) (parameters s)
    (iterations s) v (pagerankDifference s) (previousPagerankVector s)
    (convergedPagerankVector s) (linksFromConvergedPagesPagerankVector s)
    (linksFromConvergedPages s) (convergenceMatrix s) (newlyConvergedPages s)
    (outputFile s).
Definition set_pagerankDifference v (s : PagerankFrame) : PagerankFrame :=
  mkFrame (transitionMatrix s) (pagerankVector s) (convergenceStatus s) (parameters s)
    (iterations s) (delta s) v (previousPagerankVector s)
    (convergedPagerankVector s) (linksFromConvergedPagesPagerankVector s)
    (linksFromConvergedPages s) (convergenceMatrix s) (newlyConvergedPages s)
    (outputFile s).
Definition set_previousPagerankVector v (s : PagerankFrame) : PagerankFrame :=
  mkFrame (transitionMatrix s) (pagerankVector s) (convergenceStatus s) (parameters s)
    (iterations s) (delta s) (pagerankDifference s) v
    (convergedPagerankVector s) (linksFromConvergedPagesPagerankVector s)
    (linksFromConvergedPages s) (convergenceMatrix s) (newlyConvergedPages s)
    (outputFile s).
Definition set_convergedPagerankVector v (s : PagerankFrame) : PagerankFrame :=
  mkFrame (transitionMatrix s) (pagerankVector s) (convergenceStatus s) (parameters s)
    (iterations s) (delta s) (pagerankDifference s) (previousPagerankVector s)
    v (linksFromConvergedPagesPagerankVector s)
    (linksFromConvergedPages s) (convergenceMatrix s) (newlyConvergedPages s)
    (outputFile s).
Definition set_linksFromConvergedPagesPagerankVector v (s : PagerankFrame)
  : PagerankFrame :=
  mkFrame (transitionMatrix s) (pagerankVector s) (convergenceStatus s) (parameters s)
    (iterations s) (delta s) (pagerankDifference s) (previousPagerankVector s)
    (convergedPagerankVector s) v
    (linksFromConvergedPages s) (convergenceMatrix s) (newlyConvergedPages s)
    (outputFile s).
Definition set_linksFromConvergedPages v (s : PagerankFrame) : PagerankFrame :=
  mkFrame (transitionMatrix s) (pagerankVector s) (convergenceStatus s) (parameters s)
    (iterations s) (delta s) (pagerankDifference s) (previousPagerankVector s)
    (convergedPagerankVector s) (linksFromConvergedPagesPagerankVector s)
    v (convergenceMatrix s) (newlyConvergedPages s)
    (outputFile s).
Definition set_convergenceMatrix v (s : PagerankFrame) : PagerankFrame :=
  mkFrame (transitionMatrix s) (pagerankVector s) (convergenceStatus s) (parameters s)
    (iterations s) (delta s) (pagerankDifference s) (previousPagerankVector s)
    (convergedPagerankVector s) (linksFromConvergedPagesPagerankVector s)
    (linksFromConvergedPages s) v (newlyConvergedPages s)
    (outputFile s).
Definition set_newlyConvergedPages v (s : PagerankFrame) : PagerankFrame :=
  mkFrame (transitionMatrix s) (pagerankVector s) (convergenceStatus s) (parameters s)
    (iterations s) (delta s) (pagerankDifference s) (previousPagerankVector s)
    (convergedPagerankVector s) (linksFromConvergedPagesPagerankVector s)
    (linksFromConvergedPages s) (convergenceMatrix s) v
    (outputFile s).
Definition set_outputFile v (s : PagerankFrame) : PagerankFrame :=
  mkFrame (transitionMatrix s) (pagerankVector s) (convergenceStatus s) (parameters s)
    (iterations s) (delta s) (pagerankDifference s) (previousPagerankVector s)
    (convergedPagerankVector s) (linksFromConvergedPagesPagerankVector s)
    (linksFromConvergedPages s) (convergenceMatrix s) (newlyConvergedPages s)
    v.

Section Solver.

Context {R : Runtime}.

(** [malloc(n * sizeof(T))]: [n] cells of indeterminate content. *)
Definition malloc {A : Type} (n : nat) (indeterminate : A) : list A :=
  replicate n indeterminate.

(** ** Construction of the transition matrix

    The part of [generateNormalizedTransitionMatrixFromFile] that follows
    the parsing of the header: [edges] are the pairs read by [fscanf], one
    per edge announced in the header. *)

Record GraphReader : Type := mkReader {
  maxPageIndex : nat;
  tempMatrix : CooSparseMatrix
}.

(** [for (int i=0; i<numberOfEdges; i++)]: reads an edge, updates
    [maxPageIndex], appends the element with value [1]. *)
Definition readEdge (edge : nat * nat) (r : GraphReader) : GraphReader :=
  let fileFrom := edge.1 in
  let fileTo := edge.2 in
  let maxPageIndex := if Nat.ltb (maxPageIndex r) fileFrom then fileFrom
                      else maxPageIndex r in
  let maxPageIndex := if Nat.ltb maxPageIndex fileTo then fileTo
                      else maxPageIndex in
  mkReader maxPageIndex (SparseMatrix.addElement (tempMatrix r) one fileFrom fileTo).

Definition readEdges (edges : list (nat * nat)) : GraphReader :=
  fold_left (fun r e => readEdge e r) edges
            (mkReader 0 SparseMatrix.initCooSparseMatrix).

(** "Calculates the outdegree of each page": the counting loop over the
    elements of [tempMatrix]. *)
Definition calculateOutdegree (tempMatrix : CooSparseMatrix)
    (numberOfEdges numberOfPages : nat) : list Z :=
  let pageOutdegree := for_loop numberOfPages (fun i d => <[i := 0%Z]> d)
                                (malloc numberOfPages indeterminate_int) in
  for_loop numberOfEdges (fun i d =>
    let currentRow := rowIndex (elements tempMatrix !!! i) in
    if Nat.eqb currentRow (rowIndex (elements tempMatrix !!! i))
    then <[currentRow := (d !!! currentRow + 1)%Z]> d
    else d) pageOutdegree.

(** "assigns the uniform probability of transition to the elements of the
    corresponding row": [elements[i]->value = 1./pageOutdegree[row]]. *)
Definition assignTransitionProbabilities (tempMatrix : CooSparseMatrix)
    (pageOutdegree : list Z) : CooSparseMatrix :=
  mkCoo (for_loop (coo_size tempMatrix) (fun i es =>
           let e := es !!! i in
           <[i := mkElement (one / of_int (pageOutdegree !!! rowIndex e))%D
                            (rowIndex e) (columnIndex e)]> es)
         (elements tempMatrix)).

Definition generateNormalizedTransitionMatrix (edges : list (nat * nat))
    (parameters : Parameters) : CsrSparseMatrix * Parameters :=
  let numberOfEdges := length edges in
  let r := readEdges edges in
  let parameters := set_numberOfPages (maxPageIndex r + 1) parameters in
  let pageOutdegree :=
    calculateOutdegree (tempMatrix r) numberOfEdges (numberOfPages parameters) in
  let tempMatrix := assignTransitionProbabilities (tempMatrix r) pageOutdegree in
  let tempMatrix := SparseMatrix.transposeSparseMatrix tempMatrix in
  (SparseMatrix.transformToCSR tempMatrix (numberOfPages parameters), parameters).

(** [initialize]: builds the matrix, resets [realIterations] through the
    pointer, and fills the rank vector with [1. / numberOfPages]. *)
Definition initialize (edges : list (nat * nat)) (parameters : Parameters)
    : CsrSparseMatrix * list double * Parameters :=
  let '(transitionMatrix, parameters) :=
    generateNormalizedTransitionMatrix edges parameters in
  let parameters := set_realIterations 0 parameters in
  let webUniformProbability :=
    (one / of_int (Z.of_nat (numberOfPages parameters)))%D in
  let pagerankVector :=
    for_loop (numberOfPages parameters)
             (fun i v => <[i := webUniformProbability]> v)
             (malloc (numberOfPages parameters) indeterminate_double) in
  (transitionMatrix, pagerankVector, parameters).

(** ** Math utilities *)

(** [vectorNorm]: the first norm, accumulated from [0.] in index order. *)
Definition vectorNorm (vector : list double) (vectorSize : nat) : double :=
  for_loop vectorSize (fun i norm => (norm + fabs (vector !!! i))%D) zero.

(** [savePagerankToFile]: one line holding the vector, appended to the
    file or replacing it (the file is taken to open). *)
Definition savePagerankToFile (file : list (list double)) (append : bool)
    (pagerankVector : list double) (vectorSize : nat) (realIterations : Z)
    : list (list double) :=
  if append then file ++ [take vectorSize pagerankVector]
  else [take vectorSize pagerankVector].

(** [calculateNextPagerank]: the product by the transition matrix, the
    damping, and the correction by the lost norm. The compound assignment
    [v[i] += 0.5*normDifference*webUniformProbability + links[i] + conv[i]]
    evaluates its right operand first, left to right. *)
Definition calculateNextPagerank (transitionMatrix : CsrSparseMatrix)
    (previousPagerankVector pagerankVector
     linksFromConvergedPagesPagerankVector convergedPagerankVector : list double)
    (vectorSize : nat) (dampingFactor : double) : list double :=
  let webUniformProbability := (one / of_int (Z.of_nat vectorSize))%D in
  let pagerankVector :=
    csrSparseMatrixVectorMultiplication transitionMatrix previousPagerankVector
      pagerankVector vectorSize in
  let pagerankVector :=
    for_loop vectorSize (fun i v => <[i := (dampingFactor * (v !!! i))%D]> v)
             pagerankVector in
  let normDifference :=
    (vectorNorm previousPagerankVector vectorSize
     - vectorNorm pagerankVector vectorSize)%D in
  for_loop vectorSize (fun i v =>
    <[i := ((v !!! i)
            + (half * normDifference * webUniformProbability
               + (linksFromConvergedPagesPagerankVector !!! i)
               + (convergedPagerankVector !!! i)))%D]> v)
    pagerankVector.

(** ** [pagerank] *)

(** "Space allocation" and "Initialization", before the loop. *)
Definition pagerank_init (transitionMatrix : CsrSparseMatrix)
    (pagerankVector : list double) (parameters : Parameters)
    (outputFile : list (list double)) : PagerankFrame :=
  let numberOfPages := numberOfPages parameters in
  let s :=
    mkFrame transitionMatrix pagerankVector false parameters 0%Z
            indeterminate_double
            (malloc numberOfPages indeterminate_double)
            (malloc numberOfPages indeterminate_double)
            (malloc numberOfPages indeterminate_double)
            (malloc numberOfPages indeterminate_double)
            SparseMatrix.initCooSparseMatrix
            (malloc numberOfPages indeterminate_bool)
            []
            outputFile in
  for_loop numberOfPages (fun i s =>
    let s := set_convergedPagerankVector
               (<[i := zero]> (convergedPagerankVector s)) s in
    let s := set_convergenceMatrix (<[i := false]> (convergenceMatrix s)) s in
    set_linksFromConvergedPagesPagerankVector
      (<[i := zero]> (linksFromConvergedPagesPagerankVector s)) s) s.

(** "Periodically checks for convergence" *)
Definition checkConvergence (s : PagerankFrame) : PagerankFrame :=
  let numberOfPages := numberOfPages (parameters s) in
  if (Z.rem (iterations s) CONVERGENCE_CHECK_ITERATION_PERIOD =? 0)%Z then
    let s := for_loop numberOfPages (fun i s =>
               set_pagerankDifference
                 (<[i := ((pagerankVector s !!! i)
                          - (previousPagerankVector s !!! i))%D]>
                  (pagerankDifference s)) s) s in
    let s := set_delta (vectorNorm (pagerankDifference s) numberOfPages) s in
    if (delta s <? convergenceCriterion (parameters s))%D
    then set_convergenceStatus true s
    else s
  else s.

(** "Checks each individual page for convergence": the body of the first
    loop of the sparsification. *)
Definition checkPageConvergence (i : nat) (s : PagerankFrame) : PagerankFrame :=
  let difference :=
    (fabs ((pagerankVector s !!! i) - (previousPagerankVector s !!! i))
     / fabs (previousPagerankVector s !!! i))%D in
  let s := set_newlyConvergedPages (<[i := false]> (newlyConvergedPages s)) s in
  if negb (convergenceMatrix s !!! i)
     && (difference <? convergenceCriterion (parameters s))%D
  then
    let s := set_newlyConvergedPages (<[i := true]> (newlyConvergedPages s)) s in
    let s := set_convergenceMatrix (<[i := true]> (convergenceMatrix s)) s in
    set_convergedPagerankVector
      (<[i := pagerankVector s !!! i]> (convergedPagerankVector s)) s
  else s.

(** "Checks for links from converged pages to non converged": the body of
    the loop over the stored row of page [i]. *)
Definition copyLink (i j : nat) (s : PagerankFrame) : PagerankFrame :=
  let pageLinksTo := columnIndexes (transitionMatrix s) !!! j in
  if Bool.eqb (convergenceMatrix s !!! pageLinksTo) false
  then set_linksFromConvergedPages
         (SparseMatrix.addElement (linksFromConvergedPages s)
            (values (transitionMatrix s) !!! j) i pageLinksTo) s
  else s.

(** "Filters newly converged pages": the body of the second loop. *)
Definition removeConvergedPage (i : nat) (s : PagerankFrame) : PagerankFrame :=
  let numberOfPages := numberOfPages (parameters s) in
  if Bool.eqb (newlyConvergedPages s !!! i) true then
    let rowStartIndex := rowCumulativeIndexes (transitionMatrix s) !!! i in
    let rowEndIndex := rowCumulativeIndexes (transitionMatrix s) !!! (i + 1) in
    let s := if Nat.ltb rowStartIndex rowEndIndex
             then for_range rowStartIndex rowEndIndex (copyLink i) s
             else s in
    let s := set_transitionMatrix (zeroOutRow (transitionMatrix s) i) s in
    let s := set_transitionMatrix (zeroOutColumn (transitionMatrix s) i) s in
    set_linksFromConvergedPagesPagerankVector
      (cooSparseMatrixVectorMultiplication (linksFromConvergedPages s)
         (pagerankVector s) (linksFromConvergedPagesPagerankVector s)
         numberOfPages) s
  else s.

(** "Periodically increases sparsity" *)
Definition increaseSparsity (s : PagerankFrame) : PagerankFrame :=
  let numberOfPages := numberOfPages (parameters s) in
  if negb (iterations s =? 0)%Z
     && (Z.rem (iterations s) SPARSITY_INCREASE_ITERATION_PERIOD =? 0)%Z
  then
    let s := set_newlyConvergedPages (malloc numberOfPages indeterminate_bool) s in
    let s := for_loop numberOfPages checkPageConvergence s in
    for_loop numberOfPages removeConvergedPage s
  else s.

(** The body of the [do ... while] loop. *)
Definition pagerank_iteration (s : PagerankFrame) : PagerankFrame :=
  let numberOfPages := numberOfPages (parameters s) in
  let s := set_previousPagerankVector
             (memcpy (previousPagerankVector s) (pagerankVector s) numberOfPages) s in
  let s := set_pagerankVector
             (calculateNextPagerank (transitionMatrix s) (previousPagerankVector s)
                (pagerankVector s) (linksFromConvergedPagesPagerankVector s)
                (convergedPagerankVector s) numberOfPages
                (dampingFactor (parameters s))) s in
  let s := if history (parameters s)
           then set_outputFile
                  (savePagerankToFile (outputFile s) (negb (iterations s =? 0)%Z)
                     (pagerankVector s) numberOfPages
                     (realIterations (parameters s))) s
           else s in
  let s := checkConvergence s in
  let s := increaseSparsity s in
  set_iterations (iterations s + 1)%Z s.

(** The condition of the [while]. *)
Definition loop_condition (s : PagerankFrame) : bool :=
  negb (convergenceStatus s)
  && ((maxIterations (parameters s) =? 0)%Z
      || (iterations s <? maxIterations (parameters s))%Z).

(** [do body while (condition)]; [None] when the fuel runs out. *)
Fixpoint pagerank_loop (fuel : nat) (s : PagerankFrame) : option PagerankFrame :=
  match fuel with
  | O => None
  | S fuel' =>
      let s := pagerank_iteration s in
      if loop_condition s then pagerank_loop fuel' s else Some s
  end.

(** What follows the loop: the assignment to the by-value [parameters] and
    the final write of the vector. *)
Definition pagerank_exit (s : PagerankFrame) : PagerankFrame :=
  let s := set_parameters (set_realIterations (iterations s) (parameters s)) s in
  if negb (history (parameters s))
  then set_outputFile
         (savePagerankToFile (outputFile s) false (pagerankVector s)
            (numberOfPages (parameters s)) (realIterations (parameters s))) s
  else s.

(** [pagerank]: the frame at [return iterations]. *)
Definition pagerank (fuel : nat) (transitionMatrix : CsrSparseMatrix)
    (pagerankVector : list double) (parameters : Parameters)
    (outputFile : list (list double)) : option PagerankFrame :=
  match pagerank_loop fuel
          (pagerank_init transitionMatrix pagerankVector parameters outputFile) with
  | Some s => Some (pagerank_exit s)
  | None => None
  end.

(** ** The caller's view

    [int iterations = pagerank(&transitionMatrix, &pagerankVector,
    &convergenceStatus, parameters);] -- the matrix, the vector and the
    status are reached through pointers, [parameters] is copied into the
    callee's frame, the returned value is [iterations]. *)
Record Caller : Type := mkCaller {
  caller_transitionMatrix : CsrSparseMatrix;
  caller_pagerankVector : list double;
  caller_convergenceStatus : bool;
  caller_parameters : Parameters;
  caller_iterations : Z;
  caller_outputFile : list (list double)
}.

Definition call_pagerank (fuel : nat) (c : Caller) : option Caller :=
  match pagerank fuel (caller_transitionMatrix c) (caller_pagerankVector c)
          (caller_parameters c) (caller_outputFile c) with
  | Some s =>
      Some (mkCaller (transitionMatrix s) (pagerankVector s) (convergenceStatus s)
                     (caller_parameters c) (iterations s) (outputFile s))
  | None => None
  end.

(** [main] up to the call: [initialize], then [pagerank]. *)
Definition run (fuel : nat) (edges : list (nat * nat)) (parameters : Parameters)
    : option Caller :=
  let '(transitionMatrix, pagerankVector, parameters) :=
    initialize edges parameters in
  call_pagerank fuel
    (mkCaller transitionMatrix pagerankVector indeterminate_bool parameters
              indeterminate_int []).

(** ** Vocabulary of the properties

    Names for the intermediate frames of an iteration, for the fields a
    phase leaves alone, and for the frames of a run. *)

(** The quantity the source calls [difference] for page [i]. *)
Definition relativeChange (s : PagerankFrame) (i : nat) : double :=
  (fabs ((pagerankVector s !!! i) - (previousPagerankVector s !!! i))
   / fabs (previousPagerankVector s !!! i))%D.

(** The guard [!convergenceMatrix[i] && difference < convergenceCriterion]. *)
Definition pageConverges (s : PagerankFrame) (i : nat) : bool :=
  negb (convergenceMatrix s !!! i)
  && (relativeChange s i <? convergenceCriterion (parameters s))%D.

(** The fields the first loop only reads. *)
Definition readOnly (s : PagerankFrame) :=
  (transitionMatrix s, pagerankVector s, convergenceStatus s, parameters s,
   iterations s, delta s, pagerankDifference s, previousPagerankVector s,
   linksFromConvergedPagesPagerankVector s, linksFromConvergedPages s,
   outputFile s).

(** The state of the three marked arrays after [k] rounds of the first
    loop, cell by cell. *)
Definition marked (k : nat) (s st : PagerankFrame) : Prop :=
  readOnly st = readOnly s
  /\ length (convergenceMatrix st) = length (convergenceMatrix s)
  /\ length (convergedPagerankVector st) = length (convergedPagerankVector s)
  /\ length (newlyConvergedPages st) = length (newlyConvergedPages s)
  /\ forall i,
       convergenceMatrix st !!! i =
         (if (i <? k)%nat then convergenceMatrix s !!! i || pageConverges s i
          else convergenceMatrix s !!! i)
       /\ (i < length (convergedPagerankVector s) ->
           convergedPagerankVector st !!! i =
             (if (i <? k)%nat && pageConverges s i then pagerankVector s !!! i
              else convergedPagerankVector s !!! i))
       /\ (i < length (newlyConvergedPages s) ->
           newlyConvergedPages st !!! i =
             (if (i <? k)%nat then pageConverges s i
              else newlyConvergedPages s !!! i)).

(** The fields the second loop only reads. *)
Definition keptByRemoval (s : PagerankFrame) :=
  (pagerankVector s, convergenceStatus s, parameters s, iterations s, delta s,
   pagerankDifference s, previousPagerankVector s, convergedPagerankVector s,
   convergenceMatrix s, newlyConvergedPages s, outputFile s).

(** What the second loop has done to the correction matrix since frame
    [s]: it appended elements, each from a page marked in this round to a
    page whose flag is not set. *)
Definition correctionGrows (n : nat) (s st : PagerankFrame) : Prop :=
  keptByRemoval st = keptByRemoval s
  /\ exists added,
       elements (linksFromConvergedPages st)
       = elements (linksFromConvergedPages s) ++ added
       /\ Forall (fun e =>
                    rowIndex e < n
                    /\ newlyConvergedPages s !!! rowIndex e = true
                    /\ convergenceMatrix s !!! columnIndex e = false) added.

(** The frame once the vector has been updated (and written in history
    mode), before the controller runs. *)
Definition afterUpdate (s : PagerankFrame) : PagerankFrame :=
  let numberOfPages := numberOfPages (parameters s) in
  let s := set_previousPagerankVector
             (memcpy (previousPagerankVector s) (pagerankVector s) numberOfPages) s in
  let s := set_pagerankVector
             (calculateNextPagerank (transitionMatrix s) (previousPagerankVector s)
                (pagerankVector s) (linksFromConvergedPagesPagerankVector s)
                (convergedPagerankVector s) numberOfPages
                (dampingFactor (parameters s))) s in
  if history (parameters s)
  then set_outputFile
         (savePagerankToFile (outputFile s) (negb (iterations s =? 0)%Z)
            (pagerankVector s) numberOfPages (realIterations (parameters s))) s
  else s.

(** The fields [afterUpdate] leaves alone. *)
Definition keptByUpdate (s : PagerankFrame) :=
  (transitionMatrix s, convergenceStatus s, parameters s, iterations s, delta s,
   pagerankDifference s, convergedPagerankVector s,
   linksFromConvergedPagesPagerankVector s, linksFromConvergedPages s,
   convergenceMatrix s, newlyConvergedPages s).

(** The fields [checkConvergence] leaves alone. *)
Definition keptByCheck (s : PagerankFrame) :=
  (transitionMatrix s, pagerankVector s, parameters s, iterations s,
   previousPagerankVector s, convergedPagerankVector s,
   linksFromConvergedPagesPagerankVector s, linksFromConvergedPages s,
   convergenceMatrix s, newlyConvergedPages s, outputFile s).

Definition checkRound (s : PagerankFrame) : bool :=
  (Z.rem (iterations s) CONVERGENCE_CHECK_ITERATION_PERIOD =? 0)%Z.

(** The difference loop, cell by cell. *)
Definition differenceBuilt (k : nat) (s st : PagerankFrame) : Prop :=
  keptByCheck st = keptByCheck s
  /\ convergenceStatus st = convergenceStatus s
  /\ delta st = delta s
  /\ length (pagerankDifference st) = length (pagerankDifference s)
  /\ forall i, i < length (pagerankDifference s) ->
       pagerankDifference st !!! i =
       if (i <? k)%nat
       then ((pagerankVector s !!! i) - (previousPagerankVector s !!! i))%D
       else pagerankDifference s !!! i.

Definition sparsityRound (s : PagerankFrame) : bool :=
  negb (iterations s =? 0)%Z
  && (Z.rem (iterations s) SPARSITY_INCREASE_ITERATION_PERIOD =? 0)%Z.

(** The frame the first loop starts from: [newlyConvergedPages] freshly
    allocated. *)
Definition sparsityStart (s : PagerankFrame) : PagerankFrame :=
  set_newlyConvergedPages
    (malloc (numberOfPages (parameters s)) indeterminate_bool) s.

(** The frame between the two loops. *)
Definition pagesMarked (s : PagerankFrame) : PagerankFrame :=
  for_loop (numberOfPages (parameters s)) checkPageConvergence (sparsityStart s).

(** The fields the sparsification leaves alone. *)
Definition keptBySparsity (s : PagerankFrame) :=
  (pagerankVector s, convergenceStatus s, parameters s, iterations s, delta s,
   pagerankDifference s, previousPagerankVector s, outputFile s).

(** The frame the controller's two phases act on. *)
Definition checked (s : PagerankFrame) : PagerankFrame :=
  checkConvergence (afterUpdate s).

(** Page [i] is marked converged by the iteration that starts in [s]. *)
Definition marksPage (s : PagerankFrame) (i : nat) : bool :=
  sparsityRound s && (i <? numberOfPages (parameters s))%nat
  && negb (convergenceMatrix s !!! i)
  && (relativeChange (pagerank_iteration s) i
      <? convergenceCriterion (parameters s))%D.

(** The frame at the start of iteration [t] (counted from [0]) of the
    call [pagerank(&transitionMatrix, &pagerankVector, ..., parameters)]. *)
Definition frameAt (transitionMatrix : CsrSparseMatrix)
    (pagerankVector : list double) (parameters : Parameters)
    (outputFile : list (list double)) (t : nat) : PagerankFrame :=
  Nat.iter t pagerank_iteration
    (pagerank_init transitionMatrix pagerankVector parameters outputFile).

(** The invariant of the loop: the sizes of the arrays, and a zero
    snapshot for every page whose flag is not set. *)
Definition wellFormed (p : Parameters) (s : PagerankFrame) : Prop :=
  parameters s = p
  /\ length (convergenceMatrix s) = numberOfPages p
  /\ length (convergedPagerankVector s) = numberOfPages p
  /\ length (pagerankDifference s) = numberOfPages p
  /\ forall i, i < numberOfPages p ->
       convergenceMatrix s !!! i = false -> convergedPagerankVector s !!! i = zero.

(** The initialisation loop, cell by cell. *)
Definition initialised (k : nat) (M : CsrSparseMatrix) (v : list double)
    (p : Parameters) (file : list (list double)) (st : PagerankFrame) : Prop :=
  (transitionMatrix st, pagerankVector st, convergenceStatus st, parameters st,
   iterations st, linksFromConvergedPages st, outputFile st)
  = (M, v, false, p, 0%Z, SparseMatrix.initCooSparseMatrix, file)
  /\ length (convergenceMatrix st) = numberOfPages p
  /\ length (convergedPagerankVector st) = numberOfPages p
  /\ length (linksFromConvergedPagesPagerankVector st) = numberOfPages p
  /\ length (pagerankDifference st) = numberOfPages p
  /\ forall i, i < k ->
       convergenceMatrix st !!! i = false
       /\ convergedPagerankVector st !!! i = zero
       /\ linksFromConvergedPagesPagerankVector st !!! i = zero.

(** The condition of the [while] after [j] completed iterations, in
    terms of the caller's [parameters]. *)
Definition continues (M : CsrSparseMatrix) (v : list double) (p : Parameters)
    (file : list (list double)) (j : nat) : bool :=
  negb (convergenceStatus (frameAt M v p file j))
  && ((maxIterations p =? 0)%Z || (Z.of_nat j <? maxIterations p)%Z).

(** Iteration [t] (counted from [0]) of the run is executed: the
    condition held after each of the [t] iterations before it. *)
Definition executes (M : CsrSparseMatrix) (v : list double) (p : Parameters)
    (file : list (list double)) (t : nat) : bool :=
  forallb (continues M v p file) (seq 1 t).

(** The number of edges leaving page [j] in the edge list. *)
Definition outdegree (edges : list (nat * nat)) (j : nat) : nat :=
  length (filter (fun e => e.1 = j) edges).

(** The values stored in column [j] of a compressed matrix, in storage
    order. *)
Definition columnValues (M : CsrSparseMatrix) (j : nat) : list double :=
  map snd (filter (fun cv => cv.1 = j) (zip (columnIndexes M) (values M))).

(** The values stored in row [i]: the range
    [rowCumulativeIndexes[i] .. rowCumulativeIndexes[i+1]). *)
Definition rowValues (M : CsrSparseMatrix) (i : nat) : list double :=
  let rowStartIndex := rowCumulativeIndexes M !!! i in
  let rowEndIndex := rowCumulativeIndexes M !!! (i + 1) in
  take (rowEndIndex - rowStartIndex) (drop rowStartIndex (values M)).

Definition sumOf (vs : list double) : double := fold_left add vs zero.

(** [|x - y| <= eps] *)
Definition closeTo (eps x y : double) : bool := SFleb (fabs (x - y)) eps.

(** The first norm in the spec's words, the "L1 norm": the sum of the
    absolute values of the first [n] cells, taken in index order. *)
Fixpoint L1Norm (v : list double) (n : nat) : double :=
  match n with
  | O => zero
  | S k => (L1Norm v k + fabs (v !!! k))%D
  end.

(** The first norm of the difference of two vectors: the sum of
    [|x[i] - y[i]|] over the first [n] cells. *)
Fixpoint L1Distance (x y : list double) (n : nat) : double :=
  match n with
  | O => zero
  | S k => (L1Distance x y k + fabs (x !!! k - y !!! k))%D
  end.

(** The rational number a double stands for, [m * 2^e] with its sign
    (none for an infinity or a NaN), and the exact sum of a list of
    doubles. *)
Definition exactValue (x : double) : option Q :=
  match x with
  | S754_zero _ => Some 0%Q
  | S754_finite s m e => Some (inject_Z (cond_Zopp s (Zpos m)) * 2 ^ e)%Q
  | _ => None
  end.

Fixpoint exactSum (vs : list double) : option Q :=
  match vs with
  | [] => Some 0%Q
  | x :: vs =>
      match exactValue x, exactSum vs with
      | Some a, Some b => Some (a + b)%Q
      | _, _ => None
      end
  end.

(** A mantissa of 53 digits. *)
Definition normalMantissa (m : positive) : Prop :=
  (2 ^ 52 <= Zpos m < 2 ^ 53)%Z.

(** The element the reading loop appends for an edge. *)
Definition edgeElement (e : nat * nat) : CooSparseMatrixElement :=
  mkElement one e.1 e.2.

(** The element [assignTransitionProbabilities] leaves in place of [e]. *)
Definition weighted (pageOutdegree : list Z) (e : CooSparseMatrixElement)
  : CooSparseMatrixElement :=
  mkElement (one / of_int (pageOutdegree !!! rowIndex e))%D
            (rowIndex e) (columnIndex e).

(** The transposed, weighted element of an edge. *)
Definition storedElement (pageOutdegree : list Z) (e : nat * nat)
  : CooSparseMatrixElement :=
  mkElement (one / of_int (pageOutdegree !!! e.1))%D e.2 e.1.

End Solver.

(** * Concrete inputs

    The runs below use the kernels modelled from the spec
    ([spec_runtime]) and the defaults of [parseArguments]: damping factor
    [0.85], output file [pagerank_output]. *)

Definition damping_085 : double := (of_int 85 / of_int 100)%D.

(** [1e-6] *)
Definition tolerance_1e6 : double := (one / of_int 1000000)%D.

Definition quarter : double := (one / of_int 4)%D.

Definition exampleParameters (maxIterations : Z) (tolerance : double)
  : Parameters :=
  mkParameters 0 maxIterations 0 tolerance damping_085 false false
               "pagerank_output"%string "graph.txt"%string.

(** The graph with the single edge [0 -> 1]. *)
Definition singleEdge : list (nat * nat) := [(0, 1)].

(** The graph with the edges [0 -> 1] and [0 -> 2]. *)
Definition fork : list (nat * nat) := [(0, 1); (0, 2)].

(** The cycle [0 -> 1 -> 2 -> 0]. *)
Definition cycle : list (nat * nat) := [(0, 1); (1, 2); (2, 0)].

(** The star [0 -> 1], [0 -> 2], [0 -> 3]. *)
Definition star : list (nat * nat) := [(0, 1); (0, 2); (0, 3)].

(** What [initialize] hands to [pagerank] for the single edge, with
    [maxIterations = 1] and tolerance [1e-6]. *)
Definition singleEdge_matrix : CsrSparseMatrix :=
  Eval vm_compute in
    (@initialize spec_runtime singleEdge (exampleParameters 1 tolerance_1e6)).1.1.
Definition singleEdge_vector : list double :=
  Eval vm_compute in
    (@initialize spec_runtime singleEdge (exampleParameters 1 tolerance_1e6)).1.2.
Definition singleEdge_parameters : Parameters :=
  Eval vm_compute in
    (@initialize spec_runtime singleEdge (exampleParameters 1 tolerance_1e6)).2.

(** The cycle, tolerance [1e-6], no iteration cap. *)
Definition cycle_matrix : CsrSparseMatrix :=
  Eval vm_compute in
    (@initialize spec_runtime cycle (exampleParameters 0 tolerance_1e6)).1.1.
Definition cycle_vector : list double :=
  Eval vm_compute in
    (@initialize spec_runtime cycle (exampleParameters 0 tolerance_1e6)).1.2.
Definition cycle_parameters : Parameters :=
  Eval vm_compute in
    (@initialize spec_runtime cycle (exampleParameters 0 tolerance_1e6)).2.

(** The cycle again, with tolerance [0.5]; a caller's vector of three
    ranks of [100], and one of three zeros. *)
Definition loose_parameters : Parameters :=
  Eval vm_compute in
    (@initialize spec_runtime cycle (exampleParameters 0 half)).2.
Definition heavy_vector : list double := replicate 3 (of_int 100).
Definition zero_vector : list double := replicate 3 zero.

(** The graph [0 -> 1], [1 -> 0], [1 -> 2] with tolerance [0.1], and a
    caller's vector of ranks [1], [100], [3]. *)
Definition hub : list (nat * nat) := [(0, 1); (1, 0); (1, 2)].
Definition tenth : double := (one / of_int 10)%D.
Definition hub_matrix : CsrSparseMatrix :=
  Eval vm_compute in (@initialize spec_runtime hub (exampleParameters 0 tenth)).1.1.
Definition hub_parameters : Parameters :=
  Eval vm_compute in (@initialize spec_runtime hub (exampleParameters 0 tenth)).2.
Definition hub_vector : list double := [of_int 1; of_int 100; of_int 3].


(** * More of the source: vocabulary *)

(** The sign bit of a double is clear (NaN, which has no sign here,
    counts as clear). *)
Definition sign_clear (x : double) : bool :=
  match x with
  | S754_zero s | S754_infinity s | S754_finite s _ _ => negb s
  | S754_nan => true
  end.

(** The largest page index an edge list mentions ([0] when it is empty). *)
Definition maxEndpoint (edges : list (nat * nat)) : nat :=
  fold_right (fun e m => Nat.max (Nat.max e.1 e.2) m) 0 edges.

(** ** Reading the edges

    [fscanf(graphFile, "%d %d", &fileFrom, &fileTo)] returns [EOF], [0],
    [1] or [2]. The rest of the file is the list of the results the
    successive calls give; past its end every call gives [EOF]. Page
    indices are taken non-negative. *)
Inductive ScanResult : Type :=
| ScanEOF
| ScanNothing
| ScanOne (fileFrom : nat)
| ScanTwo (fileFrom fileTo : nat).

(** The loop [for (int i=0; i<numberOfEdges; i++)] of
    [generateNormalizedTransitionMatrixFromFile], with its [break] when
    [fscanf] returns [0]; [fileFrom] and [fileTo] start each round at [0]. *)
Fixpoint scanEdges (numberOfEdges : nat) (graphFile : list ScanResult)
    (r : GraphReader) : GraphReader :=
  match numberOfEdges with
  | O => r
  | S remaining =>
      match hd ScanEOF graphFile with
      | ScanNothing => r
      | ScanEOF => scanEdges remaining (tl graphFile) (readEdge (0, 0) r)
      | ScanOne fileFrom =>
          scanEdges remaining (tl graphFile) (readEdge (fileFrom, 0) r)
      | ScanTwo fileFrom fileTo =>
          scanEdges remaining (tl graphFile) (readEdge (fileFrom, fileTo) r)
      end
  end.

(** ** The command line *)

(** How a function that may call [exit] ends. *)
Inductive Outcome (A : Type) : Type :=
| Returned (a : A)
| Exited (status : Z)
| Undefined
| OutOfFuel.
Arguments Returned {A} a.
Arguments Exited {A} status.
Arguments Undefined {A}.
Arguments OutOfFuel {A}.

Definition EXIT_FAILURE : Z := 1.

(** The C library as the source uses it: the values [strtod], [strtol]
    and [atoi] return for a string ([strtod] and [strtol] always store a
    non-null end pointer), and whether [fopen(name, "w")] succeeds. *)
Class Libc : Type := mkLibc {
  strtod : string -> double;
  strtol : string -> Z;
  fopen_w : string -> bool;
  atoi : string -> Z
}.

Definition ARGUMENT_CONVERGENCE_TOLERANCE : string := "-c".
Definition ARGUMENT_MAX_ITERATIONS : string := "-m".
Definition ARGUMENT_DAMPING_FACTOR : string := "-a".
Definition ARGUMENT_VERBAL_OUTPUT : string := "-v".
Definition ARGUMENT_OUTPUT_HISTORY : string := "-h".
Definition ARGUMENT_OUTPUT_FILENAME : string := "-o".
Definition DEFAULT_OUTPUT_FILENAME : string := "pagerank_output".

(** Conversion of a [long] to [size_t] (64 bits) and of a [size_t] to
    [int] (32 bits, two's complement), as on LP64 platforms. *)
Definition to_size_t (z : Z) : Z := (z mod 2 ^ 64)%Z.
Definition to_int (z : Z) : Z :=
  let w := (z mod 2 ^ 32)%Z in
  if (w <? 2 ^ 31)%Z then w else (w - 2 ^ 32)%Z.

Definition set_maxIterations (v : Z) (p : Parameters) : Parameters :=
  mkParameters (numberOfPages p) v (realIterations p) (convergenceCriterion p)
    (dampingFactor p) (verbose p) (history p) (outputFilename p) (graphFilename p).
Definition set_convergenceCriterion (v : double) (p : Parameters) : Parameters :=
  mkParameters (numberOfPages p) (maxIterations p) (realIterations p) v
    (dampingFactor p) (verbose p) (history p) (outputFilename p) (graphFilename p).
Definition set_dampingFactor (v : double) (p : Parameters) : Parameters :=
  mkParameters (numberOfPages p) (maxIterations p) (realIterations p)
    (convergenceCriterion p) v (verbose p) (history p) (outputFilename p)
    (graphFilename p).
Definition set_verbose (v : bool) (p : Parameters) : Parameters :=
  mkParameters (numberOfPages p) (maxIterations p) (realIterations p)
    (convergenceCriterion p) (dampingFactor p) v (history p) (outputFilename p)
    (graphFilename p).
Definition set_history (v : bool) (p : Parameters) : Parameters :=
  mkParameters (numberOfPages p) (maxIterations p) (realIterations p)
    (convergenceCriterion p) (dampingFactor p) (verbose p) v (outputFilename p)
    (graphFilename p).
Definition set_outputFilename (v : string) (p : Parameters) : Parameters :=
  mkParameters (numberOfPages p) (maxIterations p) (realIterations p)
    (convergenceCriterion p) (dampingFactor p) (verbose p) (history p) v
    (graphFilename p).
Definition set_graphFilename (v : string) (p : Parameters) : Parameters :=
  mkParameters (numberOfPages p) (maxIterations p) (realIterations p)
    (convergenceCriterion p) (dampingFactor p) (verbose p) (history p)
    (outputFilename p) v.

(** [validUsage]: prints the usage with [%s] of the program name, then
    [exit(EXIT_FAILURE)]; a null name is undefined for [printf]. *)
Definition validUsage {A : Type} (programName : option string) : Outcome A :=
  match programName with
  | Some _ => Exited EXIT_FAILURE
  | None => Undefined
  end.

(** [checkIncrement] *)
Definition checkIncrement (previousIndex maxIndex : nat)
    (programName : option string) : Outcome nat :=
  if Nat.eqb previousIndex maxIndex then validUsage programName
  else Returned (previousIndex + 1).

Section CommandLine.

Context {L : Libc}.

(** The [while (argumentIndex < argumentCount)] loop of [parseArguments].
    [argumentVector[i]] is [argv !! i]; [argumentVector[argumentCount]]
    is the null pointer, and handing it to [strtod], [strtol] or [fopen]
    is undefined. *)
Fixpoint parseLoop (fuel : nat) (argv : list string) (argumentIndex : nat)
    (parameters : Parameters) : Outcome Parameters :=
  let argumentCount := length argv in
  match fuel with
  | O => OutOfFuel
  | S fuel =>
    if negb (argumentIndex <? argumentCount) then Returned parameters else
    match argv !! argumentIndex with
    | None => Undefined
    | Some argument =>
      if String.eqb argument ARGUMENT_CONVERGENCE_TOLERANCE then
        match checkIncrement argumentIndex argumentCount (argv !! 0) with
        | Returned argumentIndex =>
            match argv !! argumentIndex with
            | None => Undefined
            | Some value =>
                let convergenceInput := strtod value in
                if (convergenceInput =? zero)%D then Exited EXIT_FAILURE
                else parseLoop fuel argv (argumentIndex + 1)
                       (set_convergenceCriterion convergenceInput parameters)
            end
        | Exited status => Exited status
        | Undefined => Undefined
        | OutOfFuel => OutOfFuel
        end
      else if String.eqb argument ARGUMENT_MAX_ITERATIONS then
        match checkIncrement argumentIndex argumentCount (argv !! 0) with
        | Returned argumentIndex =>
            match argv !! argumentIndex with
            | None => Undefined
            | Some value =>
                let iterationsInput := to_size_t (strtol value) in
                if (iterationsInput =? 0)%Z then Exited EXIT_FAILURE
                else parseLoop fuel argv (argumentIndex + 1)
                       (set_maxIterations (to_int iterationsInput) parameters)
            end
        | Exited status => Exited status
        | Undefined => Undefined
        | OutOfFuel => OutOfFuel
        end
      else if String.eqb argument ARGUMENT_DAMPING_FACTOR then
        match checkIncrement argumentIndex argumentCount (argv !! 0) with
        | Returned argumentIndex =>
            match argv !! argumentIndex with
            | None => Undefined
            | Some value =>
                let alphaInput := strtod value in
                if (alphaInput =? zero)%D || (one <? alphaInput)%D
                then Exited EXIT_FAILURE
                else parseLoop fuel argv (argumentIndex + 1)
                       (set_dampingFactor alphaInput parameters)
            end
        | Exited status => Exited status
        | Undefined => Undefined
        | OutOfFuel => OutOfFuel
        end
      else if String.eqb argument ARGUMENT_VERBAL_OUTPUT then
        parseLoop fuel argv (argumentIndex + 1) (set_verbose true parameters)
      else if String.eqb argument ARGUMENT_OUTPUT_HISTORY then
        parseLoop fuel argv (argumentIndex + 1) (set_history true parameters)
      else if String.eqb argument ARGUMENT_OUTPUT_FILENAME then
        match checkIncrement argumentIndex argumentCount (argv !! 0) with
        | Returned argumentIndex =>
            match argv !! argumentIndex with
            | None => Undefined
            | Some name =>
                if negb (fopen_w name)
                then parseLoop fuel argv argumentIndex parameters
                else parseLoop fuel argv (argumentIndex + 1)
                       (set_outputFilename name parameters)
            end
        | Exited status => Exited status
        | Undefined => Undefined
        | OutOfFuel => OutOfFuel
        end
      else if Nat.eqb argumentIndex (argumentCount - 1) then
        parseLoop fuel argv (argumentIndex + 1)
          (set_graphFilename argument parameters)
      else validUsage (argv !! 0)
    end
  end.

(** [parseArguments]: the check of the count, the defaults, the loop.
    [parameters] is what the caller's struct holds on entry; the fields
    [realIterations] and [graphFilename] get no default. *)
Definition parseArguments (argv : list string) (parameters : Parameters)
    : Outcome Parameters :=
  let argumentCount := length argv in
  if (argumentCount <? 2) || (10 <? argumentCount) then validUsage (argv !! 0)
  else
    let parameters := set_numberOfPages 0 parameters in
    let parameters := set_maxIterations 0 parameters in
    let parameters := set_convergenceCriterion one parameters in
    let parameters := set_dampingFactor damping_085 parameters in
    let parameters := set_verbose false parameters in
    let parameters := set_history false parameters in
    let parameters := set_outputFilename DEFAULT_OUTPUT_FILENAME parameters in
    parseLoop (S argumentCount) argv 1 parameters.

End CommandLine.

(** The strings [parseArguments] compares its arguments with. *)
Definition isFlag (s : string) : bool :=
  String.eqb s ARGUMENT_CONVERGENCE_TOLERANCE
  || String.eqb s ARGUMENT_MAX_ITERATIONS
  || String.eqb s ARGUMENT_DAMPING_FACTOR
  || String.eqb s ARGUMENT_VERBAL_OUTPUT
  || String.eqb s ARGUMENT_OUTPUT_HISTORY
  || String.eqb s ARGUMENT_OUTPUT_FILENAME.

(** The options that read a value from the next argument. *)
Definition takesValue (s : string) : bool :=
  String.eqb s ARGUMENT_CONVERGENCE_TOLERANCE
  || String.eqb s ARGUMENT_MAX_ITERATIONS
  || String.eqb s ARGUMENT_DAMPING_FACTOR
  || String.eqb s ARGUMENT_OUTPUT_FILENAME.

(** The defaults [parseArguments] stores before its loop. *)
Definition defaultParameters (parameters : Parameters) : Parameters :=
  mkParameters 0 0 (realIterations parameters) one damping_085 false false
               DEFAULT_OUTPUT_FILENAME (graphFilename parameters).

(** What [parseArguments] guarantees of the record it returns. *)
Definition validated (p : Parameters) : Prop :=
  (convergenceCriterion p =? zero)%D = false
  /\ (dampingFactor p =? zero)%D = false
  /\ (one <? dampingFactor p)%D = false
  /\ numberOfPages p = 0.

Definition newline : string := String (Ascii.ascii_of_nat 10) EmptyString.

(** A C library that reads the strings the examples use: [strtod] knows
    ["0.5"] and ["-1"], [strtol] knows ["10"], [atoi] knows ["3"] followed
    by a newline (anything else reads as zero), and every file can be
    opened but one. *)
Definition example_libc : Libc :=
  mkLibc (fun s => if String.eqb s "0.5" then half
                   else if String.eqb s "-1" then of_int (-1) else zero)
         (fun s => if String.eqb s "10" then 10%Z else 0%Z)
         (fun s => negb (String.eqb s "/no/such/dir/out"))
         (fun s => if String.eqb s ("3" ++ newline)%string then 3%Z else 0%Z).

(** ** The graph file *)

(** An open graph file: the lines [fgets] returns one after the other
    (each shorter than the buffer it is read into), then what the calls
    of [fscanf] find. *)
Record GraphFile : Type := mkGraphFile {
  headerLines : list (list Ascii.ascii);
  edgeScans : list ScanResult
}.

Definition isDelimiter (delimiters : list Ascii.ascii) (c : Ascii.ascii) : bool :=
  existsb (Ascii.eqb c) delimiters.

(** [strtok]: skips the delimiters in front, returns [None] (the null
    pointer) at the end of the text, otherwise the token up to the next
    delimiter and the text left after that delimiter. *)
Fixpoint skipDelimiters (delimiters text : list Ascii.ascii) : list Ascii.ascii :=
  match text with
  | [] => []
  | c :: rest =>
      if isDelimiter delimiters c then skipDelimiters delimiters rest else text
  end.

Fixpoint takeToken (delimiters text : list Ascii.ascii) : list Ascii.ascii * list Ascii.ascii :=
  match text with
  | [] => ([], [])
  | c :: rest =>
      if isDelimiter delimiters c then ([], rest)
      else let '(token, remaining) := takeToken delimiters rest in
           (c :: token, remaining)
  end.

Definition strtok (delimiters text : list Ascii.ascii)
  : option (list Ascii.ascii * list Ascii.ascii) :=
  match skipDelimiters delimiters text with
  | [] => None
  | text => Some (takeToken delimiters text)
  end.

Definition NODES : list Ascii.ascii := list_ascii_of_string "Nodes:".
Definition EDGES : list Ascii.ascii := list_ascii_of_string "Edges:".
Definition FIRST_DELIMITERS : list Ascii.ascii := list_ascii_of_string " ".
Definition NEXT_DELIMITERS : list Ascii.ascii := list_ascii_of_string " ,.-".

Definition tokenEqb (token constant : list Ascii.ascii) : bool :=
  String.eqb (string_of_list_ascii token) (string_of_list_ascii constant).

(** Vocabulary of the properties of the token loop: the letter [E], the
    rounds the loop still needs for a token and the text behind it, and
    that a character occurs in neither. *)
Definition letterE : Ascii.ascii := Ascii.ascii_of_nat 69.

Definition roundsLeft (token : option (list Ascii.ascii * list Ascii.ascii))
  : nat :=
  match token with
  | None => 1
  | Some (_, text) => 2 + length text
  end.

Definition absentFrom (c : Ascii.ascii)
    (token : option (list Ascii.ascii * list Ascii.ascii)) : Prop :=
  match token with
  | None => True
  | Some (token, text) => (c ∉ token) /\ (c ∉ text)
  end.

Section GraphFileReader.

Context {L : Libc} {R : Runtime}.

(** "Parses the number of nodes and number of edges": the [while] loop
    over the tokens of the third line. [token] is the current token,
    [text] what [strtok(NULL, ...)] goes on from. *)
Fixpoint parseCounts (fuel : nat) (token : option (list Ascii.ascii * list Ascii.ascii))
    (nextIsNodes nextIsEdges : bool) (numberOfNodes numberOfEdges : Z)
    : Outcome (Z * Z) :=
  match fuel with
  | O => OutOfFuel
  | S fuel =>
      match token with
      | None => Returned (numberOfNodes, numberOfEdges)
      | Some (token, text) =>
          if tokenEqb token NODES then
            parseCounts fuel (strtok NEXT_DELIMITERS text) true nextIsEdges
              numberOfNodes numberOfEdges
          else if nextIsNodes then
            parseCounts fuel (strtok NEXT_DELIMITERS text) false nextIsEdges
              (atoi (string_of_list_ascii token)) numberOfEdges
          else if tokenEqb token EDGES then
            parseCounts fuel (strtok NEXT_DELIMITERS text) nextIsNodes true
              numberOfNodes numberOfEdges
          else if nextIsEdges then
            Returned (numberOfNodes, atoi (string_of_list_ascii token))
          else
            parseCounts fuel (strtok NEXT_DELIMITERS text) nextIsNodes
              nextIsEdges numberOfNodes numberOfEdges
      end
  end.

(** The counts read from the third line ([numberOfNodes] and
    [numberOfEdges] start at [0]). *)
Definition parseHeader (buffer : list Ascii.ascii) : Outcome (Z * Z) :=
  parseCounts (S (S (length buffer))) (strtok FIRST_DELIMITERS buffer)
              false false 0%Z 0%Z.

(** The end of [generateNormalizedTransitionMatrixFromFile], from the
    assignment of [numberOfPages] on, for the reader the scanning loop
    left. *)
Definition buildTransitionMatrix (r : GraphReader) (numberOfEdges : nat)
    (parameters : Parameters) : CsrSparseMatrix * Parameters :=
  let parameters := set_numberOfPages (maxPageIndex r + 1) parameters in
  let pageOutdegree :=
    calculateOutdegree (tempMatrix r) numberOfEdges (numberOfPages parameters) in
  let tempMatrix := assignTransitionProbabilities (tempMatrix r) pageOutdegree in
  let tempMatrix := SparseMatrix.transposeSparseMatrix tempMatrix in
  (SparseMatrix.transformToCSR tempMatrix (numberOfPages parameters), parameters).

(** [generateNormalizedTransitionMatrixFromFile]. [graphFile] is what
    [fopen] returns. The counting loop reads [tempMatrix.elements[i]] for
    every [i < numberOfEdges]: undefined when the scanning loop stopped
    before storing that many. *)
Definition generateNormalizedTransitionMatrixFromFile
    (graphFile : option GraphFile) (parameters : Parameters)
    : Outcome (CsrSparseMatrix * Parameters) :=
  match graphFile with
  | None => Exited EXIT_FAILURE
  | Some graphFile =>
      match headerLines graphFile !! 1 with
      | None => Exited EXIT_FAILURE
      | Some _ =>
          match headerLines graphFile !! 2 with
          | None => Exited EXIT_FAILURE
          | Some buffer =>
              match parseHeader buffer with
              | Returned (numberOfNodes, numberOfEdges) =>
                  match headerLines graphFile !! 3 with
                  | None => Exited EXIT_FAILURE
                  | Some _ =>
                      let numberOfEdges := Z.to_nat numberOfEdges in
                      let r := scanEdges numberOfEdges (edgeScans graphFile)
                                 (mkReader 0 SparseMatrix.initCooSparseMatrix) in
                      if coo_size (tempMatrix r) <? numberOfEdges then Undefined
                      else Returned (buildTransitionMatrix r numberOfEdges
                                       parameters)
                  end
              | Exited status => Exited status
              | Undefined => Undefined
              | OutOfFuel => OutOfFuel
              end
          end
      end
  end.

End GraphFileReader.

(** A token of the later calls of [strtok]: not empty, no delimiter in
    it. *)
Definition plainToken (token : list Ascii.ascii) : bool :=
  match token with
  | [] => false
  | _ => forallb (fun c => negb (isDelimiter NEXT_DELIMITERS c)) token
  end.

(** The third line of a graph file as the token loop expects it: a
    comment sign, then the two counts after their names. *)
Definition countsLine (nodes edges : list Ascii.ascii) : list Ascii.ascii :=
  list_ascii_of_string "# Nodes: " ++ nodes
  ++ list_ascii_of_string " Edges: " ++ edges.

(** A file of the cycle: four lines, the third announcing three nodes and
    three edges, then the three edges. *)
Definition cycle_file : GraphFile :=
  mkGraphFile
    [list_ascii_of_string ("# Directed graph" ++ newline);
     list_ascii_of_string ("# A cycle" ++ newline);
     countsLine (list_ascii_of_string "3")
                (list_ascii_of_string ("3" ++ newline));
     list_ascii_of_string ("# FromNodeId ToNodeId" ++ newline)]
    [ScanTwo 0 1; ScanTwo 1 2; ScanTwo 2 0; ScanEOF].

(** The same file cut after its second line, and one whose third line
    names no counts. *)
Definition short_file : GraphFile :=
  mkGraphFile (take 2 (headerLines cycle_file)) [].

Definition unannounced_file : GraphFile :=
  mkGraphFile
    [list_ascii_of_string ("# Directed graph" ++ newline);
     list_ascii_of_string ("# A cycle" ++ newline);
     list_ascii_of_string ("# three nodes, three links" ++ newline);
     list_ascii_of_string ("# FromNodeId ToNodeId" ++ newline)]
    (edgeScans cycle_file).

(** * Properties *)

(** ** Loops *)

(** Case analysis on the comparisons of loop indices. *)
Ltac nat_cases :=
  repeat match goal with
         | |- context [Nat.ltb ?a ?b] => destruct (Nat.ltb_spec a b)
         | |- context [Nat.leb ?a ?b] => destruct (Nat.leb_spec a b)
         end;
  try lia; try reflexivity.

Lemma for_loop_0 {S : Type} (body : nat -> S -> S) (s : S) :
  for_loop 0 body s = s.
Proof. reflexivity. Qed.

Lemma for_loop_S {S : Type} (n : nat) (body : nat -> S -> S) (s : S) :
  for_loop (Datatypes.S n) body s = body n (for_loop n body s).
Proof.
  unfold for_loop. rewrite seq_S, fold_left_app. reflexivity.
Qed.

(** The invariant rule of the counting loop. *)
Lemma for_loop_invariant {S : Type} (P : nat -> S -> Prop) (n : nat)
    (body : nat -> S -> S) (s : S) :
  P 0 s ->
  (forall i st, i < n -> P i st -> P (Datatypes.S i) (body i st)) ->
  P n (for_loop n body s).
Proof.
  intros H0 Hstep. induction n as [|n IH].
  - exact H0.
  - rewrite for_loop_S. apply Hstep; [lia|]. apply IH.
    intros i st Hi. apply Hstep. lia.
Qed.

(** A quantity no iteration changes is unchanged by the loop. *)
Lemma for_loop_preserves {S A : Type} (f : S -> A) (n : nat)
    (body : nat -> S -> S) (s : S) :
  (forall i st, f (body i st) = f st) ->
  f (for_loop n body s) = f s.
Proof.
  intros Hbody.
  apply (for_loop_invariant (fun _ st => f st = f s)); [reflexivity|].
  intros i st _ Hst. rewrite Hbody. exact Hst.
Qed.

Lemma for_range_unfold {S : Type} (a b : nat) (body : nat -> S -> S) (s : S) :
  for_range a b body s = for_loop (b - a) (fun k st => body (a + k) st) s.
Proof.
  unfold for_range, for_loop.
  generalize (b - a). intros len. revert a s.
  induction len as [|len IH]; intros a s; [reflexivity|].
  rewrite !seq_S, !fold_left_app. cbn. rewrite IH. reflexivity.
Qed.

Lemma for_range_invariant {S : Type} (P : S -> Prop) (a b : nat)
    (body : nat -> S -> S) (s : S) :
  P s ->
  (forall j st, a <= j < b -> P st -> P (body j st)) ->
  P (for_range a b body s).
Proof.
  intros H0 Hstep. rewrite for_range_unfold.
  apply (for_loop_invariant (fun _ st => P st)); [exact H0|].
  intros k st Hk Hst. apply Hstep; [lia | exact Hst].
Qed.

Lemma for_range_preserves {S A : Type} (f : S -> A) (a b : nat)
    (body : nat -> S -> S) (s : S) :
  (forall j st, f (body j st) = f st) ->
  f (for_range a b body s) = f s.
Proof.
  intros Hbody.
  apply (for_range_invariant (fun st => f st = f s)); [reflexivity|].
  intros j st _ Hst. rewrite Hbody. exact Hst.
Qed.

Section Controller.

Context {R : Runtime}.

(** ** The per-page test *)

Lemma checkPageConvergence_convergenceMatrix i s :
  convergenceMatrix (checkPageConvergence i s) =
  if pageConverges s i then <[i := true]> (convergenceMatrix s)
  else convergenceMatrix s.
Proof.
  unfold checkPageConvergence, pageConverges, relativeChange. cbn.
  destruct (negb _ && _); reflexivity.
Qed.

Lemma checkPageConvergence_convergedPagerankVector i s :
  convergedPagerankVector (checkPageConvergence i s) =
  if pageConverges s i
  then <[i := pagerankVector s !!! i]> (convergedPagerankVector s)
  else convergedPagerankVector s.
Proof.
  unfold checkPageConvergence, pageConverges, relativeChange. cbn.
  destruct (negb _ && _); reflexivity.
Qed.

Lemma checkPageConvergence_newlyConvergedPages i s :
  newlyConvergedPages (checkPageConvergence i s) =
  <[i := pageConverges s i]> (newlyConvergedPages s).
Proof.
  unfold checkPageConvergence, pageConverges, relativeChange. cbn.
  destruct (negb _ && _); cbn; [|reflexivity].
  apply list_insert_insert_eq.
Qed.

Lemma checkPageConvergence_readOnly i s :
  readOnly (checkPageConvergence i s) = readOnly s.
Proof.
  unfold checkPageConvergence. cbn. destruct (negb _ && _); reflexivity.
Qed.

Lemma pageConverges_ext s s' i :
  readOnly s' = readOnly s ->
  convergenceMatrix s' !!! i = convergenceMatrix s !!! i ->
  pageConverges s' i = pageConverges s i.
Proof.
  unfold readOnly, pageConverges, relativeChange. intros Hro Hcm.
  injection Hro as _ -> _ -> _ _ _ -> _ _ _. rewrite Hcm. reflexivity.
Qed.

Lemma pageConverges_in_range s i :
  pageConverges s i = true -> i < length (convergenceMatrix s).
Proof.
  unfold pageConverges. intros H.
  destruct (decide (i < length (convergenceMatrix s))) as [|Hge]; [assumption|].
  rewrite list_lookup_total_alt, lookup_ge_None_2 in H by lia.
  cbn in H. discriminate.
Qed.

Lemma marked_step k s st :
  marked k s st -> marked (S k) s (checkPageConvergence k st).
Proof.
  intros (Hro & Hlcm & Hlcv & Hlnw & Hcells).
  assert (Hpc : pageConverges st k = pageConverges s k).
  { apply pageConverges_ext; [exact Hro|].
    destruct (Hcells k) as (-> & _). rewrite Nat.ltb_irrefl. reflexivity. }
  assert (Hpv : pagerankVector st = pagerankVector s).
  { unfold readOnly in Hro. congruence. }
  unfold marked.
  rewrite checkPageConvergence_readOnly, checkPageConvergence_convergenceMatrix,
    checkPageConvergence_convergedPagerankVector,
    checkPageConvergence_newlyConvergedPages, Hpc, Hpv.
  split; [exact Hro|].
  split; [destruct (pageConverges s k); rewrite ?length_insert; exact Hlcm|].
  split; [destruct (pageConverges s k); rewrite ?length_insert; exact Hlcv|].
  split; [rewrite length_insert; exact Hlnw|].
  intros i. destruct (Hcells i) as (Hcm & Hcv & Hnw).
  destruct (decide (i = k)) as [->|Hne].
  - rewrite Nat.ltb_irrefl in *.
    assert (Hlt : (k <? S k)%nat = true) by (apply Nat.ltb_lt; lia).
    rewrite Hlt. cbn [andb].
    split; [|split].
    + destruct (pageConverges s k) eqn:Hp.
      * rewrite list_lookup_total_insert_eq, orb_true_r; [reflexivity|].
        rewrite Hlcm. apply pageConverges_in_range, Hp.
      * rewrite orb_false_r. exact Hcm.
    + intros Hi. destruct (pageConverges s k).
      * rewrite list_lookup_total_insert_eq; [reflexivity | lia].
      * apply Hcv, Hi.
    + intros Hi. rewrite list_lookup_total_insert_eq; [reflexivity | lia].
  - assert (Hlt : (i <? S k)%nat = (i <? k)%nat).
    { destruct (Nat.ltb_spec i k), (Nat.ltb_spec i (S k)); lia || reflexivity. }
    rewrite Hlt.
    split; [|split].
    + destruct (pageConverges s k);
        rewrite ?list_lookup_total_insert_ne by congruence; exact Hcm.
    + intros Hi. destruct (pageConverges s k);
        rewrite ?list_lookup_total_insert_ne by congruence; apply Hcv, Hi.
    + intros Hi. rewrite list_lookup_total_insert_ne by congruence.
      apply Hnw, Hi.
Qed.

Lemma marked_0 s : marked 0 s s.
Proof.
  repeat split; try reflexivity.
Qed.

Lemma checkPageConvergence_loop n s :
  marked n s (for_loop n checkPageConvergence s).
Proof.
  apply (for_loop_invariant (fun k st => marked k s st)).
  - apply marked_0.
  - intros i st _. apply marked_step.
Qed.

(** ** The second loop of the sparsification *)

Lemma correctionGrows_refl n s : correctionGrows n s s.
Proof.
  split; [reflexivity|]. exists []. rewrite app_nil_r. split; [reflexivity|].
  constructor.
Qed.

Lemma copyLink_correctionGrows n s st i j :
  i < n ->
  newlyConvergedPages s !!! i = true ->
  correctionGrows n s st -> correctionGrows n s (copyLink i j st).
Proof.
  intros Hn Hi (Hkept & added & Hadd & Hall).
  assert (Hcm : convergenceMatrix st = convergenceMatrix s).
  { unfold keptByRemoval in Hkept. congruence. }
  unfold copyLink.
  destruct (convergenceMatrix st !!! _) eqn:Hflag; cbn [Bool.eqb].
  - split; [exact Hkept|]. exists added. split; assumption.
  - split; [exact Hkept|].
    eexists (added ++ [_]). cbn. rewrite Hadd, <- app_assoc.
    split; [reflexivity|].
    apply Forall_app. split; [exact Hall|].
    constructor; [|constructor]. cbn. rewrite <- Hcm. repeat split; assumption.
Qed.

Lemma removeConvergedPage_correctionGrows n s st i :
  i < n ->
  correctionGrows n s st -> correctionGrows n s (removeConvergedPage i st).
Proof.
  intros Hn Hst. unfold removeConvergedPage.
  destruct (newlyConvergedPages st !!! i) eqn:Hnew; cbn [Bool.eqb]; [|exact Hst].
  assert (Hnew' : newlyConvergedPages s !!! i = true).
  { destruct Hst as (Hkept & _). unfold keptByRemoval in Hkept. congruence. }
  set (st1 := if Nat.ltb _ _ then _ else st).
  assert (H1 : correctionGrows n s st1).
  { subst st1. destruct (Nat.ltb _ _); [|exact Hst].
    apply for_range_invariant; [exact Hst|].
    intros j st' _. apply copyLink_correctionGrows; assumption. }
  destruct H1 as (Hkept & added & Hadd & Hall).
  split; [exact Hkept|]. exists added. split; assumption.
Qed.

Lemma removeConvergedPage_loop n s :
  correctionGrows n s (for_loop n removeConvergedPage s).
Proof.
  apply (for_loop_invariant (fun _ st => correctionGrows n s st)).
  - apply correctionGrows_refl.
  - intros i st Hi. apply removeConvergedPage_correctionGrows, Hi.
Qed.

(** ** One iteration, phase by phase *)

Lemma pagerank_iteration_phases s :
  pagerank_iteration s =
  let s' := increaseSparsity (checkConvergence (afterUpdate s)) in
  set_iterations (iterations s' + 1)%Z s'.
Proof. reflexivity. Qed.

Lemma afterUpdate_kept s : keptByUpdate (afterUpdate s) = keptByUpdate s.
Proof.
  unfold afterUpdate. cbn. destruct (history _); reflexivity.
Qed.

Lemma afterUpdate_previousPagerankVector s :
  previousPagerankVector (afterUpdate s) =
  memcpy (previousPagerankVector s) (pagerankVector s)
         (numberOfPages (parameters s)).
Proof.
  unfold afterUpdate. cbn. destruct (history _); reflexivity.
Qed.

Lemma afterUpdate_pagerankVector s :
  pagerankVector (afterUpdate s) =
  calculateNextPagerank (transitionMatrix s) (previousPagerankVector (afterUpdate s))
    (pagerankVector s) (linksFromConvergedPagesPagerankVector s)
    (convergedPagerankVector s) (numberOfPages (parameters s))
    (dampingFactor (parameters s)).
Proof.
  rewrite afterUpdate_previousPagerankVector.
  unfold afterUpdate. cbn. destruct (history _); reflexivity.
Qed.

(** *** The global check *)

Lemma differenceLoop n s :
  differenceBuilt n s
    (for_loop n (fun i s =>
       set_pagerankDifference
         (<[i := ((pagerankVector s !!! i) - (previousPagerankVector s !!! i))%D]>
          (pagerankDifference s)) s) s).
Proof.
  apply (for_loop_invariant (fun k st => differenceBuilt k s st)).
  - repeat split; reflexivity.
  - intros k st _ (Hk & Hs & Hd & Hl & Hc).
    assert (Hpv : pagerankVector st = pagerankVector s)
      by (unfold keptByCheck in Hk; congruence).
    assert (Hpr : previousPagerankVector st = previousPagerankVector s)
      by (unfold keptByCheck in Hk; congruence).
    unfold differenceBuilt. cbn. rewrite length_insert, Hpv, Hpr.
    repeat (split; [assumption|]).
    intros i Hi. destruct (decide (i = k)) as [->|Hne].
    + rewrite list_lookup_total_insert_eq by lia. nat_cases.
    + rewrite list_lookup_total_insert_ne by congruence.
      rewrite (Hc i Hi). nat_cases.
Qed.

Lemma checkConvergence_skip s :
  checkRound s = false -> checkConvergence s = s.
Proof.
  unfold checkRound, checkConvergence. intros ->. reflexivity.
Qed.

Lemma checkConvergence_check s :
  checkRound s = true ->
  let n := numberOfPages (parameters s) in
  let s' := checkConvergence s in
  keptByCheck s' = keptByCheck s
  /\ length (pagerankDifference s') = length (pagerankDifference s)
  /\ (forall i, i < n -> i < length (pagerankDifference s) ->
        pagerankDifference s' !!! i =
        ((pagerankVector s !!! i) - (previousPagerankVector s !!! i))%D)
  /\ delta s' = vectorNorm (pagerankDifference s') n
  /\ convergenceStatus s' =
       convergenceStatus s || (delta s' <? convergenceCriterion (parameters s))%D.
Proof.
  intros Hround n s'. subst s'. unfold checkConvergence.
  unfold checkRound in Hround. rewrite Hround. fold n.
  destruct (differenceLoop n s) as (Hk & Hs & Hd & Hl & Hc).
  set (s1 := for_loop n _ s) in *.
  assert (Hp : parameters s1 = parameters s)
    by (unfold keptByCheck in Hk; congruence).
  cbn. rewrite Hp.
  destruct (_ <? _)%D eqn:Hlt; cbn; rewrite ?Hlt.
  - repeat split; try assumption.
    + intros i Hi Hi'. rewrite (Hc i Hi').
      apply Nat.ltb_lt in Hi. rewrite Hi. reflexivity.
    + rewrite orb_true_r. reflexivity.
  - repeat split; try assumption.
    + intros i Hi Hi'. rewrite (Hc i Hi').
      apply Nat.ltb_lt in Hi. rewrite Hi. reflexivity.
    + rewrite orb_false_r. exact Hs.
Qed.

Lemma checkConvergence_kept s : keptByCheck (checkConvergence s) = keptByCheck s.
Proof.
  destruct (checkRound s) eqn:Hr.
  - apply (checkConvergence_check s Hr).
  - rewrite checkConvergence_skip by exact Hr. reflexivity.
Qed.

Lemma checkConvergence_length s :
  length (pagerankDifference (checkConvergence s)) = length (pagerankDifference s).
Proof.
  destruct (checkRound s) eqn:Hr.
  - apply (checkConvergence_check s Hr).
  - rewrite checkConvergence_skip by exact Hr. reflexivity.
Qed.

(** *** The sparsification *)

Lemma increaseSparsity_skip s :
  sparsityRound s = false -> increaseSparsity s = s.
Proof.
  unfold sparsityRound, increaseSparsity. intros ->. reflexivity.
Qed.

Lemma pagesMarked_marked s :
  marked (numberOfPages (parameters s)) (sparsityStart s) (pagesMarked s).
Proof. apply checkPageConvergence_loop. Qed.

Lemma pagesMarked_parameters s : parameters (pagesMarked s) = parameters s.
Proof.
  destruct (pagesMarked_marked s) as (Hro & _).
  unfold readOnly in Hro. injection Hro as _ _ _ Hp _ _ _ _ _ _ _. exact Hp.
Qed.

Lemma increaseSparsity_round s :
  sparsityRound s = true ->
  increaseSparsity s =
  for_loop (numberOfPages (parameters s)) removeConvergedPage (pagesMarked s).
Proof.
  unfold sparsityRound, increaseSparsity. intros ->. reflexivity.
Qed.

Lemma increaseSparsity_correctionGrows s :
  sparsityRound s = true ->
  correctionGrows (numberOfPages (parameters s)) (pagesMarked s)
    (increaseSparsity s).
Proof.
  intros Hr. rewrite increaseSparsity_round by exact Hr.
  apply removeConvergedPage_loop.
Qed.

Lemma increaseSparsity_kept s :
  keptBySparsity (increaseSparsity s) = keptBySparsity s.
Proof.
  destruct (sparsityRound s) eqn:Hr.
  - destruct (increaseSparsity_correctionGrows s Hr) as (Hk & _).
    destruct (pagesMarked_marked s) as (Hro & _).
    unfold keptByRemoval in Hk. unfold readOnly in Hro.
    unfold keptBySparsity. cbn in Hro. congruence.
  - rewrite increaseSparsity_skip by exact Hr. reflexivity.
Qed.

(** The flags and snapshots after the sparsification are those the first
    loop leaves. *)
Lemma increaseSparsity_marks s :
  sparsityRound s = true ->
  convergenceMatrix (increaseSparsity s) = convergenceMatrix (pagesMarked s)
  /\ convergedPagerankVector (increaseSparsity s)
     = convergedPagerankVector (pagesMarked s).
Proof.
  intros Hr. destruct (increaseSparsity_correctionGrows s Hr) as (Hk & _).
  unfold keptByRemoval in Hk. split; congruence.
Qed.

(** The effect of one sparsification on the flag and the snapshot of a
    page, whatever the round. *)
Lemma increaseSparsity_page s i :
  let s' := increaseSparsity s in
  length (convergenceMatrix s') = length (convergenceMatrix s)
  /\ length (convergedPagerankVector s') = length (convergedPagerankVector s)
  /\ convergenceMatrix s' !!! i =
       (convergenceMatrix s !!! i
        || (sparsityRound s && (i <? numberOfPages (parameters s))%nat
            && pageConverges s i))
  /\ (i < length (convergedPagerankVector s) ->
      convergedPagerankVector s' !!! i =
        if sparsityRound s && (i <? numberOfPages (parameters s))%nat
           && pageConverges s i
        then pagerankVector s !!! i
        else convergedPagerankVector s !!! i).
Proof.
  intros s'. subst s'. destruct (sparsityRound s) eqn:Hr.
  - destruct (increaseSparsity_marks s Hr) as (-> & ->).
    destruct (pagesMarked_marked s) as (Hro & Hlcm & Hlcv & _ & Hcells).
    destruct (Hcells i) as (Hcm & Hcv & _).
    assert (Hpc : pageConverges (sparsityStart s) i = pageConverges s i)
      by reflexivity.
    rewrite Hpc in *.
    change (convergenceMatrix (sparsityStart s)) with (convergenceMatrix s) in *.
    change (convergedPagerankVector (sparsityStart s))
      with (convergedPagerankVector s) in *.
    change (pagerankVector (sparsityStart s)) with (pagerankVector s) in *.
    change (parameters (sparsityStart s)) with (parameters s) in *.
    cbn [andb].
    repeat split; try assumption.
    rewrite Hcm. destruct (_ <? _)%nat; [reflexivity|].
    rewrite orb_false_r. reflexivity.
  - rewrite increaseSparsity_skip by exact Hr. cbn [andb].
    rewrite orb_false_r. repeat split; reflexivity.
Qed.

(** *** The whole iteration *)

Lemma checked_kept s :
  keptByCheck (checked s) = keptByCheck (afterUpdate s)
  /\ keptByUpdate (afterUpdate s) = keptByUpdate s.
Proof.
  split; [apply checkConvergence_kept | apply afterUpdate_kept].
Qed.

(** What an iteration leaves alone or changes in a fixed way. *)
Lemma pagerank_iteration_fields s :
  let s' := pagerank_iteration s in
  parameters s' = parameters s
  /\ iterations s' = (iterations s + 1)%Z
  /\ pagerankVector s' = pagerankVector (afterUpdate s)
  /\ previousPagerankVector s' = previousPagerankVector (afterUpdate s)
  /\ pagerankDifference s' = pagerankDifference (checked s)
  /\ delta s' = delta (checked s)
  /\ convergenceStatus s' = convergenceStatus (checked s)
  /\ convergenceMatrix s' = convergenceMatrix (increaseSparsity (checked s))
  /\ convergedPagerankVector s'
     = convergedPagerankVector (increaseSparsity (checked s))
  /\ linksFromConvergedPages s'
     = linksFromConvergedPages (increaseSparsity (checked s)).
Proof.
  intros s'. subst s'. rewrite pagerank_iteration_phases. cbn zeta.
  fold (checked s).
  pose proof (increaseSparsity_kept (checked s)) as Hs.
  destruct (checked_kept s) as (Hc & Hu).
  unfold keptBySparsity in Hs. unfold keptByCheck in Hc. unfold keptByUpdate in Hu.
  cbn [parameters iterations pagerankVector previousPagerankVector
       pagerankDifference delta convergenceStatus convergenceMatrix
       convergedPagerankVector linksFromConvergedPages set_iterations].
  repeat split; congruence.
Qed.

(** The guard of the per-page test on the frame the controller sees
    reads the vectors the iteration returns. *)
Lemma pageConverges_checked s i :
  pageConverges (checked s) i =
  negb (convergenceMatrix s !!! i)
  && (relativeChange (pagerank_iteration s) i
      <? convergenceCriterion (parameters s))%D.
Proof.
  destruct (pagerank_iteration_fields s) as (_ & _ & Hpv & Hpr & _).
  destruct (checked_kept s) as (Hc & Hu).
  unfold keptByCheck in Hc. unfold keptByUpdate in Hu.
  unfold pageConverges, relativeChange. rewrite Hpv, Hpr.
  replace (convergenceMatrix (checked s)) with (convergenceMatrix s) by congruence.
  replace (pagerankVector (checked s)) with (pagerankVector (afterUpdate s))
    by congruence.
  replace (previousPagerankVector (checked s))
    with (previousPagerankVector (afterUpdate s)) by congruence.
  replace (parameters (checked s)) with (parameters s) by congruence.
  reflexivity.
Qed.

Lemma pagerank_iteration_page s i :
  let s' := pagerank_iteration s in
  length (convergenceMatrix s') = length (convergenceMatrix s)
  /\ length (convergedPagerankVector s') = length (convergedPagerankVector s)
  /\ convergenceMatrix s' !!! i = (convergenceMatrix s !!! i || marksPage s i)
  /\ (i < length (convergedPagerankVector s) ->
      convergedPagerankVector s' !!! i =
        if marksPage s i then pagerankVector s' !!! i
        else convergedPagerankVector s !!! i).
Proof.
  intros s'. subst s'.
  destruct (pagerank_iteration_fields s)
    as (_ & _ & Hpv & _ & _ & _ & _ & Hcm & Hcv & _).
  destruct (checked_kept s) as (Hc & Hu).
  unfold keptByCheck in Hc. unfold keptByUpdate in Hu.
  destruct (increaseSparsity_page (checked s) i) as (Hl1 & Hl2 & Hf & Hv).
  rewrite pageConverges_checked in Hf, Hv.
  assert (Hr : sparsityRound (checked s) = sparsityRound s).
  { unfold sparsityRound. replace (iterations (checked s)) with (iterations s)
      by congruence. reflexivity. }
  rewrite Hr in Hf, Hv.
  replace (parameters (checked s)) with (parameters s) in Hf, Hv by congruence.
  replace (convergenceMatrix (checked s)) with (convergenceMatrix s) in *
    by congruence.
  replace (convergedPagerankVector (checked s))
    with (convergedPagerankVector s) in * by congruence.
  replace (pagerankVector (checked s))
    with (pagerankVector (pagerank_iteration s)) in * by congruence.
  rewrite Hcm, Hcv. unfold marksPage.
  rewrite <- !andb_assoc. rewrite <- !andb_assoc in Hf, Hv.
  repeat split; assumption.
Qed.

(** ** The frames of a run *)

Lemma frameAt_S M v p file t :
  frameAt M v p file (S t) = pagerank_iteration (frameAt M v p file t).
Proof. reflexivity. Qed.

Lemma pagerank_init_initialised M v p file :
  initialised (numberOfPages p) M v p file (pagerank_init M v p file).
Proof.
  unfold pagerank_init.
  apply (for_loop_invariant
           (fun k st => k <= numberOfPages p -> initialised k M v p file st));
    [| |lia].
  - intros _. unfold initialised, malloc. cbn. rewrite !length_replicate.
    repeat split; try reflexivity. lia. lia. lia.
  - intros k st Hk IH Hk'. destruct IH as (Hf & Hl1 & Hl2 & Hl3 & Hl4 & Hc); [lia|].
    unfold initialised. cbn. rewrite !length_insert.
    repeat (split; [assumption|]).
    intros i Hi. destruct (decide (i = k)) as [->|Hne].
    + rewrite !list_lookup_total_insert_eq by lia. repeat split; reflexivity.
    + rewrite !list_lookup_total_insert_ne by congruence. apply Hc. lia.
Qed.

Lemma pagerank_init_wellFormed M v p file :
  wellFormed p (pagerank_init M v p file).
Proof.
  destruct (pagerank_init_initialised M v p file)
    as (Hf & Hl1 & Hl2 & Hl3 & Hl4 & Hc).
  unfold wellFormed. repeat split; try assumption.
  - congruence.
  - intros i Hi _. apply Hc, Hi.
Qed.

Lemma pagerank_iteration_wellFormed p s :
  wellFormed p s -> wellFormed p (pagerank_iteration s).
Proof.
  intros (Hp & Hl1 & Hl2 & Hl3 & Hz).
  destruct (pagerank_iteration_fields s)
    as (Hp' & _ & _ & _ & Hd & _).
  unfold wellFormed. rewrite Hp', Hd.
  unfold checked. rewrite checkConvergence_length.
  replace (pagerankDifference (afterUpdate s)) with (pagerankDifference s)
    by (pose proof (afterUpdate_kept s) as Hu; unfold keptByUpdate in Hu;
        congruence).
  split; [exact Hp|].
  destruct (pagerank_iteration_page s 0) as (Hl1' & Hl2' & _).
  rewrite Hl1', Hl2'.
  repeat (split; [assumption|]).
  intros i Hi Hflag.
  destruct (pagerank_iteration_page s i) as (_ & _ & Hcm & Hcv).
  rewrite Hcm in Hflag. apply orb_false_iff in Hflag as [Hold Hmark].
  rewrite Hcv by lia. rewrite Hmark. apply Hz; assumption.
Qed.

Lemma frameAt_wellFormed M v p file t : wellFormed p (frameAt M v p file t).
Proof.
  induction t as [|t IH].
  - apply pagerank_init_wellFormed.
  - rewrite frameAt_S. apply pagerank_iteration_wellFormed, IH.
Qed.

Lemma frameAt_parameters M v p file t : parameters (frameAt M v p file t) = p.
Proof. apply frameAt_wellFormed. Qed.

Lemma frameAt_iterations M v p file t :
  iterations (frameAt M v p file t) = Z.of_nat t.
Proof.
  induction t as [|t IH].
  - destruct (pagerank_init_initialised M v p file) as (Hf & _).
    change (iterations (pagerank_init M v p file) = 0%Z). congruence.
  - rewrite frameAt_S.
    destruct (pagerank_iteration_fields (frameAt M v p file t)) as (_ & -> & _).
    rewrite IH. lia.
Qed.

(** ** The loop *)

(** The [do ... while] loop returns the frame after the first iteration
    whose condition fails, and only if the fuel reaches it. *)
Lemma pagerank_loop_returns fuel s s' :
  pagerank_loop fuel s = Some s' <->
  exists k, 1 <= k <= fuel
    /\ s' = Nat.iter k pagerank_iteration s
    /\ loop_condition s' = false
    /\ forall j, 1 <= j < k ->
         loop_condition (Nat.iter j pagerank_iteration s) = true.
Proof.
  revert s. induction fuel as [|fuel IH]; intros s.
  - cbn. split; [discriminate|]. intros (k & Hk & _). lia.
  - cbn [pagerank_loop].
    destruct (loop_condition (pagerank_iteration s)) eqn:Hc.
    + rewrite IH. split.
      * intros (k & Hk & -> & Hstop & Hgo). exists (S k).
        rewrite Nat.iter_succ_r. repeat split; try assumption; try lia.
        intros j Hj. destruct j as [|j]; [lia|].
        rewrite Nat.iter_succ_r.
        destruct j as [|j]; [exact Hc|]. apply Hgo. lia.
      * intros (k & Hk & -> & Hstop & Hgo).
        destruct k as [|k]; [lia|].
        destruct k as [|k].
        { cbn in Hstop. congruence. }
        exists (S k). rewrite <- Nat.iter_succ_r.
        repeat split; try assumption; try lia.
        intros j Hj. rewrite <- Nat.iter_succ_r. apply Hgo. lia.
    + split.
      * intros [= <-]. exists 1. repeat split; try assumption; try lia.
      * intros (k & Hk & -> & Hstop & Hgo).
        destruct k as [|k]; [lia|].
        destruct k as [|k]; [reflexivity|].
        specialize (Hgo 1 ltac:(lia)). cbn in Hgo. congruence.
Qed.

Lemma loop_condition_frameAt M v p file j :
  loop_condition (frameAt M v p file j) = continues M v p file j.
Proof.
  unfold loop_condition, continues.
  rewrite frameAt_parameters, frameAt_iterations. reflexivity.
Qed.

Lemma frameAt_0 M v p file : frameAt M v p file 0 = pagerank_init M v p file.
Proof. reflexivity. Qed.

Lemma continues_unfold M v p file j :
  continues M v p file j =
  negb (convergenceStatus (frameAt M v p file j))
  && ((maxIterations p =? 0)%Z || (Z.of_nat j <? maxIterations p)%Z).
Proof. reflexivity. Qed.

Lemma executes_unfold M v p file t :
  executes M v p file t = forallb (continues M v p file) (seq 1 t).
Proof. reflexivity. Qed.

Lemma forallb_seq_last (f : nat -> bool) (t : nat) :
  forallb f (seq 1 (S t)) = true -> f (S t) = true.
Proof.
  rewrite forallb_forall. intros Hall. apply Hall, in_seq. lia.
Qed.

Lemma executes_status M v p file t :
  executes M v p file t = true ->
  convergenceStatus (frameAt M v p file t) = false.
Proof.
  destruct t as [|t].
  - intros _. destruct (pagerank_init_initialised M v p file) as (Hf & _).
    rewrite frameAt_0. injection Hf as _ _ Hs _ _ _ _. exact Hs.
  - intros Hall. rewrite executes_unfold in Hall.
    apply forallb_seq_last in Hall.
    rewrite continues_unfold in Hall.
    apply andb_prop in Hall as [Hall _]. apply negb_true_iff in Hall. exact Hall.
Qed.

Lemma rem_of_nat t : (Z.rem (Z.of_nat t) 3 =? 0)%Z = (t mod 3 =? 0)%nat.
Proof.
  rewrite Z.rem_mod_nonneg by lia.
  change 3%Z with (Z.of_nat 3). rewrite <- Nat2Z.inj_mod.
  destruct (Nat.eqb_spec (t mod 3) 0) as [->|Hne]; [reflexivity|].
  apply Z.eqb_neq. lia.
Qed.

Lemma checkRound_frameAt M v p file t :
  checkRound (afterUpdate (frameAt M v p file t)) = (t mod 3 =? 0)%nat.
Proof.
  unfold checkRound, CONVERGENCE_CHECK_ITERATION_PERIOD.
  pose proof (afterUpdate_kept (frameAt M v p file t)) as Hu.
  unfold keptByUpdate in Hu.
  replace (iterations (afterUpdate (frameAt M v p file t)))
    with (iterations (frameAt M v p file t)) by congruence.
  rewrite frameAt_iterations. apply rem_of_nat.
Qed.

Lemma sparsityRound_frameAt M v p file t :
  sparsityRound (frameAt M v p file t) = negb (t =? 0)%nat && (t mod 3 =? 0)%nat.
Proof.
  unfold sparsityRound, SPARSITY_INCREASE_ITERATION_PERIOD.
  rewrite frameAt_iterations, rem_of_nat. f_equal. f_equal.
  destruct t; reflexivity.
Qed.

Lemma pagerank_exit_iterations s : iterations (pagerank_exit s) = iterations s.
Proof.
  unfold pagerank_exit. cbn. destruct (negb _); reflexivity.
Qed.

(** The callee's copy of [parameters] does receive the count. *)
Lemma pagerank_exit_realIterations s :
  realIterations (parameters (pagerank_exit s)) = iterations s.
Proof.
  unfold pagerank_exit. cbn. destruct (negb _); reflexivity.
Qed.

(** The caller's record is the one it passed. *)
Lemma call_pagerank_parameters fuel c c' :
  call_pagerank fuel c = Some c' -> caller_parameters c' = caller_parameters c.
Proof.
  unfold call_pagerank. destruct (pagerank _ _ _ _ _); [|discriminate].
  intros [= <-]. reflexivity.
Qed.

Lemma pagerank_unfold fuel M v p file :
  pagerank fuel M v p file =
  match pagerank_loop fuel (pagerank_init M v p file) with
  | Some s => Some (pagerank_exit s)
  | None => None
  end.
Proof. reflexivity. Qed.

Lemma call_pagerank_unfold fuel M v status p it file :
  call_pagerank fuel (mkCaller M v status p it file) =
  match pagerank fuel M v p file with
  | Some s =>
      Some (mkCaller (transitionMatrix s) (pagerankVector s) (convergenceStatus s)
                     p (iterations s) (outputFile s))
  | None => None
  end.
Proof. reflexivity. Qed.

Lemma pagerank_loop_frameAt M v p file fuel s' :
  pagerank_loop fuel (pagerank_init M v p file) = Some s' <->
  exists k, 1 <= k <= fuel
    /\ s' = frameAt M v p file k
    /\ continues M v p file k = false
    /\ forall j, 1 <= j < k -> continues M v p file j = true.
Proof.
  rewrite pagerank_loop_returns. split.
  - intros (k & Hk & Hs & Hstop & Hgo). exists k.
    assert (Hs' : s' = frameAt M v p file k) by exact Hs.
    rewrite Hs', loop_condition_frameAt in Hstop.
    repeat split; try assumption; try lia.
    intros j Hj. rewrite <- loop_condition_frameAt. apply Hgo, Hj.
  - intros (k & Hk & Hs & Hstop & Hgo). exists k.
    rewrite Hs, loop_condition_frameAt.
    repeat split; try assumption; try lia.
    intros j Hj. rewrite <- (Hgo j Hj). apply loop_condition_frameAt.
Qed.

(** ** Termination and the iteration cap *)

(** C4. The loop goes on exactly while convergence has not been declared
    and ([maxIterations == 0] or the count of completed iterations is
    below [maxIterations]): it returns the frame after iteration [k] iff
    the condition fails after [k] iterations and held after each earlier
    one. With [maxIterations = 1] the solver performs exactly one
    iteration and returns [1], whatever the tolerance. *)
Theorem pagerank_loop_continues_while M v p file fuel :
  (forall s',
      pagerank_loop fuel (pagerank_init M v p file) = Some s' <->
      exists k, 1 <= k <= fuel
        /\ s' = frameAt M v p file k
        /\ continues M v p file k = false
        /\ forall j, 1 <= j < k -> continues M v p file j = true)
  /\ (maxIterations p = 1%Z -> 1 <= fuel ->
      exists s,
        pagerank fuel M v p file = Some s
        /\ s = pagerank_exit (frameAt M v p file 1)
        /\ iterations s = 1%Z
        /\ forall status it,
             exists c', call_pagerank fuel (mkCaller M v status p it file) = Some c'
                        /\ caller_iterations c' = 1%Z).
Proof.
  split; [intros s'; apply pagerank_loop_frameAt|].
  intros Hmax Hfuel.
  assert (Hone : pagerank_loop fuel (pagerank_init M v p file)
                 = Some (frameAt M v p file 1)).
  { apply pagerank_loop_frameAt. exists 1. repeat split; try lia.
    rewrite continues_unfold, Hmax. apply andb_false_r. }
  assert (Hit : iterations (pagerank_exit (frameAt M v p file 1)) = 1%Z).
  { rewrite pagerank_exit_iterations, frameAt_iterations. reflexivity. }
  assert (Hrun : pagerank fuel M v p file
                 = Some (pagerank_exit (frameAt M v p file 1))).
  { rewrite pagerank_unfold, Hone. reflexivity. }
  exists (pagerank_exit (frameAt M v p file 1)).
  split; [exact Hrun|]. split; [reflexivity|]. split; [exact Hit|].
  intros status it. rewrite call_pagerank_unfold, Hrun.
  eexists. split; [reflexivity|]. exact Hit.
Qed.

(** ** The global convergence check *)

(** [vectorNorm] computes the first norm. *)
Lemma vectorNorm_L1Norm (v : list double) (n : nat) :
  vectorNorm v n = L1Norm v n.
Proof.
  unfold vectorNorm. induction n as [|n IH]; [reflexivity|].
  rewrite for_loop_S. cbv beta. rewrite IH. reflexivity.
Qed.

Lemma L1Norm_difference (x y difference : list double) (n : nat) :
  (forall i, i < n -> difference !!! i = ((x !!! i) - (y !!! i))%D) ->
  L1Norm difference n = L1Distance x y n.
Proof.
  induction n as [|n IH]; intros Hcells; [reflexivity|].
  cbn [L1Norm L1Distance]. rewrite IH by (intros i Hi; apply Hcells; lia).
  rewrite Hcells by lia. reflexivity.
Qed.

(** [memcpy] into a buffer of at most [n] cells: the first [n] cells are
    those of the source. *)
Lemma memcpy_cells {A : Type} `{Inhabited A} (dst src : list A) (n i : nat) :
  length dst <= n -> i < n -> memcpy dst src n !!! i = src !!! i.
Proof.
  intros Hl Hi. unfold memcpy.
  rewrite drop_ge, app_nil_r by lia.
  destruct (decide (i < length src)) as [Hlt|Hge].
  - apply lookup_total_take_lt, Hi.
  - rewrite !list_lookup_total_alt.
    rewrite (lookup_ge_None_2 (take n src) i) by (rewrite length_take; lia).
    rewrite (lookup_ge_None_2 src i) by lia. reflexivity.
Qed.

(** The buffer of the previous vector keeps the [numberOfPages] cells it
    is allocated with. *)
Lemma frameAt_previous_length M v p file t :
  length (previousPagerankVector (frameAt M v p file t)) <= numberOfPages p.
Proof.
  induction t as [|t IH].
  - rewrite frameAt_0. unfold pagerank_init.
    rewrite (for_loop_preserves previousPagerankVector) by reflexivity.
    cbn [previousPagerankVector]. unfold malloc. rewrite length_replicate. lia.
  - rewrite frameAt_S.
    destruct (pagerank_iteration_fields (frameAt M v p file t))
      as (_ & _ & _ & Hpr & _).
    rewrite Hpr, afterUpdate_previousPagerankVector, frameAt_parameters.
    unfold memcpy. rewrite length_app, length_take, length_drop. lia.
Qed.

(** C5. On every executed iteration [t] with [t mod 3 = 0] the
    controller computes [delta] as the first norm of the difference
    between the current and the previous vector and the status becomes
    true exactly when [delta < convergenceCriterion]; on the other
    iterations the status is unchanged. ([s] is the frame iteration [t]
    starts from, [s'] the frame it ends with.) The previous vector is
    the vector the iteration started from, the current one the vector it
    produced; the first norm is the sum of the absolute values of the
    cells, in index order, so that [delta] is the sum of
    [|current[i] - previous[i]|] over the pages. *)
Theorem global_convergence_check M v p file t :
  let s := frameAt M v p file t in
  let s' := pagerank_iteration s in
  let n := numberOfPages p in
  executes M v p file t = true ->
  (t mod 3 = 0 ->
     (forall i, i < n ->
        previousPagerankVector s' !!! i = pagerankVector s !!! i)
     /\ (forall i, i < n ->
           pagerankDifference s' !!! i =
           ((pagerankVector s' !!! i) - (previousPagerankVector s' !!! i))%D)
     /\ delta s' = L1Norm (pagerankDifference s') n
     /\ delta s' = L1Distance (pagerankVector s') (pagerankVector s) n
     /\ (convergenceStatus s' = true <->
         (delta s' <? convergenceCriterion p)%D = true))
  /\ (t mod 3 <> 0 -> convergenceStatus s' = convergenceStatus s).
Proof.
  intros s s' n Hexec.
  pose proof (executes_status M v p file t Hexec) as Hstatus. fold s in Hstatus.
  destruct (pagerank_iteration_fields s)
    as (_ & _ & Hpv & Hpr & Hd & Hdelta & Hst & _).
  fold s' in Hpv, Hpr, Hd, Hdelta, Hst.
  pose proof (afterUpdate_kept s) as Hu. unfold keptByUpdate in Hu.
  pose proof (frameAt_wellFormed M v p file t) as (Hp & _ & _ & Hld & _).
  fold s in Hp, Hld.
  assert (Hp' : parameters (afterUpdate s) = p) by congruence.
  pose proof (checkRound_frameAt M v p file t) as Hround. fold s in Hround.
  pose proof (frameAt_previous_length M v p file t) as Hlen. fold s n in Hlen.
  split.
  - intros Hmod. rewrite Hmod in Hround.
    destruct (checkConvergence_check (afterUpdate s) Hround)
      as (_ & _ & Hcells & Hnorm & Hnew).
    fold (checked s) in Hcells, Hnorm, Hnew. rewrite Hp' in *. fold n in Hcells, Hnorm.
    assert (Htie : forall i, i < n ->
              previousPagerankVector s' !!! i = pagerankVector s !!! i).
    { intros i Hi. rewrite Hpr, afterUpdate_previousPagerankVector, Hp.
      apply memcpy_cells; assumption. }
    assert (Hdiff : forall i, i < n ->
              pagerankDifference s' !!! i =
              ((pagerankVector s' !!! i) - (previousPagerankVector s' !!! i))%D).
    { intros i Hi. rewrite Hd, Hpv, Hpr. apply Hcells; [exact Hi|].
      replace (pagerankDifference (afterUpdate s)) with (pagerankDifference s)
        by congruence.
      lia. }
    assert (Hl1 : delta s' = L1Norm (pagerankDifference s') n).
    { rewrite Hdelta, Hd, Hnorm. apply vectorNorm_L1Norm. }
    split; [exact Htie|]. split; [exact Hdiff|]. split; [exact Hl1|]. split.
    + rewrite Hl1. apply L1Norm_difference. intros i Hi.
      rewrite Hdiff, Htie by exact Hi. reflexivity.
    + rewrite Hst, Hdelta, Hnew.
      replace (convergenceStatus (afterUpdate s)) with (convergenceStatus s)
        by congruence.
      rewrite Hstatus. reflexivity.
  - intros Hmod. apply Nat.eqb_neq in Hmod. rewrite Hmod in Hround.
    rewrite Hst. unfold checked. rewrite checkConvergence_skip by exact Hround.
    congruence.
Qed.

(** ** The per-page test *)

Lemma sparsityRound_checked s : sparsityRound (checked s) = sparsityRound s.
Proof.
  destruct (checked_kept s) as (Hc & Hu).
  unfold keptByCheck in Hc. unfold keptByUpdate in Hu.
  unfold sparsityRound.
  replace (iterations (checked s)) with (iterations s) by congruence.
  reflexivity.
Qed.

(** Outside the sparsification rounds an iteration changes no flag and
    no snapshot. *)
Lemma pagerank_iteration_no_marking s :
  sparsityRound s = false ->
  convergenceMatrix (pagerank_iteration s) = convergenceMatrix s
  /\ convergedPagerankVector (pagerank_iteration s) = convergedPagerankVector s
  /\ linksFromConvergedPages (pagerank_iteration s) = linksFromConvergedPages s.
Proof.
  intros Hr.
  destruct (pagerank_iteration_fields s)
    as (_ & _ & _ & _ & _ & _ & _ & Hcm & Hcv & Hl).
  rewrite Hcm, Hcv, Hl.
  rewrite increaseSparsity_skip by (rewrite sparsityRound_checked; exact Hr).
  destruct (checked_kept s) as (Hc & Hu).
  unfold keptByCheck in Hc. unfold keptByUpdate in Hu.
  repeat split; congruence.
Qed.

Lemma sparsityRound_true_iff M v p file t :
  sparsityRound (frameAt M v p file t) = true <-> 0 < t /\ t mod 3 = 0.
Proof.
  rewrite sparsityRound_frameAt. split.
  - intros H. apply andb_prop in H as [Hpos Hmod].
    apply Nat.eqb_eq in Hmod. split; [|exact Hmod].
    destruct t; [discriminate Hpos | lia].
  - intros (Hpos & Hmod). rewrite Hmod.
    destruct t; [lia | reflexivity].
Qed.

(** C6. On every iteration [t] with [t > 0] and [t mod 3 = 0], a page
    not yet marked whose relative change is below the tolerance is marked
    and its current rank is copied into the converged-rank vector (and a
    page not below the tolerance keeps its flag); on any other iteration
    no flag changes. *)
Theorem page_convergence_marking M v p file t i :
  let s := frameAt M v p file t in
  let s' := pagerank_iteration s in
  i < numberOfPages p ->
  (0 < t /\ t mod 3 = 0 ->
     convergenceMatrix s !!! i = false ->
     ((relativeChange s' i <? convergenceCriterion p)%D = true ->
        convergenceMatrix s' !!! i = true
        /\ convergedPagerankVector s' !!! i = pagerankVector s' !!! i)
     /\ ((relativeChange s' i <? convergenceCriterion p)%D = false ->
        convergenceMatrix s' !!! i = false))
  /\ (~ (0 < t /\ t mod 3 = 0) -> convergenceMatrix s' = convergenceMatrix s).
Proof.
  intros s s' Hi.
  pose proof (frameAt_wellFormed M v p file t) as (Hp & Hlcm & Hlcv & _ & _).
  fold s in Hp, Hlcm, Hlcv.
  pose proof (sparsityRound_true_iff M v p file t) as Hround. fold s in Hround.
  split.
  - intros Hsparse Hflag. apply Hround in Hsparse.
    destruct (pagerank_iteration_page s i) as (_ & _ & Hcm & Hcv).
    fold s' in Hcm, Hcv.
    assert (Hmark : marksPage s i
                    = (relativeChange s' i <? convergenceCriterion p)%D).
    { unfold marksPage. fold s'. rewrite Hsparse, Hp, Hflag.
      apply Nat.ltb_lt in Hi. rewrite Hi. reflexivity. }
    rewrite Hmark, Hflag in *.
    split.
    + intros Hlt. rewrite Hlt in *. split; [exact Hcm|]. apply Hcv. lia.
    + intros Hge. rewrite Hge in Hcm. exact Hcm.
  - intros Hnot. apply pagerank_iteration_no_marking.
    destruct (sparsityRound s); [|reflexivity].
    exfalso. apply Hnot, Hround. reflexivity.
Qed.

(** ** A zero previous rank *)

(** [x == 0] holds of the two zeros only. *)
Lemma eqb_zero_inv (x : double) :
  (x =? zero)%D = true -> exists sign, x = S754_zero sign.
Proof.
  destruct x as [sign|sign| |sign m e]; cbn; try discriminate.
  - intros _. exists sign. reflexivity.
  - destruct sign; discriminate.
  - destruct sign; discriminate.
Qed.

(** Dividing a magnitude by the magnitude of a zero gives [+inf] or NaN,
    and neither is below anything. *)
Lemma relative_change_of_zero (c x tol : double) :
  (x =? zero)%D = true ->
  let difference := (fabs (c - x) / fabs x)%D in
  (difference = S754_infinity false \/ difference = S754_nan)
  /\ (difference <? tol)%D = false.
Proof.
  intros Hx. apply eqb_zero_inv in Hx as (sign & ->). intros difference.
  assert (Hd : difference = S754_infinity false \/ difference = S754_nan).
  { subst difference.
    destruct c as [[]|[]| |[] m e], sign; cbn; auto. }
  split; [exact Hd|].
  destruct Hd as [-> | ->].
  - destruct tol as [[]|[]| |[] m e]; reflexivity.
  - reflexivity.
Qed.

(** C7. A page whose previous rank is zero is not marked in that round:
    the test [difference < convergenceCriterion] fails whatever the
    tolerance (the quotient is [+inf] or NaN), the flag and the snapshot
    of the page are left as they were, so a flag that was false stays
    false and the snapshot stays the zero it was, neither NaN nor
    infinite. *)
Theorem zero_previous_rank_not_converged M v p file t i :
  let s := frameAt M v p file t in
  let s' := pagerank_iteration s in
  i < numberOfPages p ->
  (previousPagerankVector s' !!! i =? zero)%D = true ->
  (relativeChange s' i <? convergenceCriterion p)%D = false
  /\ convergenceMatrix s' !!! i = convergenceMatrix s !!! i
  /\ convergedPagerankVector s' !!! i = convergedPagerankVector s !!! i
  /\ (convergenceMatrix s !!! i = false ->
      convergenceMatrix s' !!! i = false
      /\ convergedPagerankVector s' !!! i = zero
      /\ is_nan (convergedPagerankVector s' !!! i) = false
      /\ is_inf (convergedPagerankVector s' !!! i) = false).
Proof.
  intros s s' Hi Hzero.
  pose proof (frameAt_wellFormed M v p file t) as (Hp & Hlcm & Hlcv & _ & Hz).
  fold s in Hp, Hlcm, Hlcv, Hz.
  assert (Htest : (relativeChange s' i <? convergenceCriterion p)%D = false).
  { unfold relativeChange. apply relative_change_of_zero, Hzero. }
  destruct (pagerank_iteration_page s i) as (_ & _ & Hcm & Hcv).
  fold s' in Hcm, Hcv.
  assert (Hmark : marksPage s i = false).
  { unfold marksPage. fold s'. rewrite Hp, Htest. apply andb_false_r. }
  rewrite Hmark, orb_false_r in Hcm. rewrite Hmark in Hcv.
  assert (Hcv' : convergedPagerankVector s' !!! i
                 = convergedPagerankVector s !!! i) by (apply Hcv; lia).
  repeat split; try assumption.
  - congruence.
  - rewrite Hcv'. apply Hz; assumption.
  - rewrite Hcv', Hz by assumption. reflexivity.
  - rewrite Hcv', Hz by assumption. reflexivity.
Qed.

(** ** Monotone convergence state *)

Lemma marksPage_unmarked s i :
  marksPage s i = true -> convergenceMatrix s !!! i = false.
Proof.
  unfold marksPage. intros H.
  apply andb_prop in H as [H _]. apply andb_prop in H as [_ H].
  apply negb_true_iff, H.
Qed.

(** A set flag survives an iteration, with its snapshot. *)
Lemma pagerank_iteration_keeps_flag s i :
  i < length (convergedPagerankVector s) ->
  convergenceMatrix s !!! i = true ->
  convergenceMatrix (pagerank_iteration s) !!! i = true
  /\ convergedPagerankVector (pagerank_iteration s) !!! i
     = convergedPagerankVector s !!! i.
Proof.
  intros Hi Hflag.
  destruct (pagerank_iteration_page s i) as (_ & _ & Hcm & Hcv).
  rewrite Hcm, Hflag. split; [reflexivity|].
  rewrite Hcv by exact Hi.
  destruct (marksPage s i) eqn:Hmark; [|reflexivity].
  apply marksPage_unmarked in Hmark. congruence.
Qed.

(** A flag set by an iteration comes with the rank of that iteration. *)
Lemma pagerank_iteration_snapshot s i :
  i < length (convergedPagerankVector s) ->
  convergenceMatrix s !!! i = false ->
  convergenceMatrix (pagerank_iteration s) !!! i = true ->
  convergedPagerankVector (pagerank_iteration s) !!! i
  = pagerankVector (pagerank_iteration s) !!! i.
Proof.
  intros Hi Hold Hnew.
  destruct (pagerank_iteration_page s i) as (_ & _ & Hcm & Hcv).
  rewrite Hcm, Hold in Hnew. cbn [orb] in Hnew.
  rewrite Hcv by exact Hi. rewrite Hnew. reflexivity.
Qed.

(** C8. The per-page convergence state is monotone along the run: a
    flag that is true at an iteration is true at every later one, with
    the same snapshot; the snapshot of a page is zero while its flag is
    false, and is the rank of the iteration that sets the flag once it
    is true. *)
Theorem convergence_state_monotone M v p file t t' i :
  i < numberOfPages p ->
  t <= t' ->
  (convergenceMatrix (frameAt M v p file t) !!! i = true ->
     convergenceMatrix (frameAt M v p file t') !!! i = true
     /\ convergedPagerankVector (frameAt M v p file t') !!! i
        = convergedPagerankVector (frameAt M v p file t) !!! i)
  /\ (convergenceMatrix (frameAt M v p file t) !!! i = false ->
      convergedPagerankVector (frameAt M v p file t) !!! i = zero)
  /\ (convergenceMatrix (frameAt M v p file t) !!! i = false ->
      convergenceMatrix (pagerank_iteration (frameAt M v p file t)) !!! i = true ->
      convergedPagerankVector (pagerank_iteration (frameAt M v p file t)) !!! i
      = pagerankVector (pagerank_iteration (frameAt M v p file t)) !!! i).
Proof.
  intros Hi Hle.
  split; [|split].
  - intros Hflag. induction Hle as [|m Hle IH].
    + split; [exact Hflag | reflexivity].
    + destruct IH as (IHf & IHv).
      pose proof (frameAt_wellFormed M v p file m) as (_ & _ & Hlcv & _).
      rewrite frameAt_S.
      destruct (pagerank_iteration_keeps_flag (frameAt M v p file m) i)
        as (Hf & Hv); [lia | exact IHf |].
      split; [exact Hf | congruence].
  - pose proof (frameAt_wellFormed M v p file t) as (_ & _ & _ & _ & Hz).
    apply Hz, Hi.
  - pose proof (frameAt_wellFormed M v p file t) as (_ & _ & Hlcv & _).
    apply pagerank_iteration_snapshot. lia.
Qed.

(** ** Correction edges *)

Lemma sparsityStart_newly_length s :
  length (newlyConvergedPages (sparsityStart s)) = numberOfPages (parameters s).
Proof. apply length_replicate. Qed.

(** C10. In a sparsification round the flags of all the pages that
    converge in the round are set before any correction edge is copied:
    the frame between the two loops already has the flags of the end of
    the iteration and still has the correction matrix of its start.
    Every element the round appends to the correction matrix goes from a
    page marked in this round to a page whose flag is false at the end of
    the round, hence never to a page that converged in the same round. *)
Theorem correction_edges_after_flags M v p file t :
  let s := frameAt M v p file t in
  let s' := pagerank_iteration s in
  let between := pagesMarked (checked s) in
  0 < t -> t mod 3 = 0 ->
  convergenceMatrix between = convergenceMatrix s'
  /\ linksFromConvergedPages between = linksFromConvergedPages s
  /\ exists added,
       elements (linksFromConvergedPages s')
       = elements (linksFromConvergedPages s) ++ added
       /\ Forall (fun e =>
                    (convergenceMatrix s !!! rowIndex e = false
                     /\ convergenceMatrix s' !!! rowIndex e = true)
                    /\ convergenceMatrix s' !!! columnIndex e = false) added.
Proof.
  intros s s' between Hpos Hmod.
  assert (Hround : sparsityRound (checked s) = true).
  { rewrite sparsityRound_checked. apply sparsityRound_true_iff. split; assumption. }
  pose proof (frameAt_parameters M v p file t) as Hp. fold s in Hp.
  destruct (checked_kept s) as (Hc & Hu).
  unfold keptByCheck in Hc. unfold keptByUpdate in Hu.
  assert (Hpc : parameters (checked s) = p) by congruence.
  destruct (pagerank_iteration_fields s)
    as (_ & _ & _ & _ & _ & _ & _ & Hcm & _ & Hl).
  fold s' in Hcm, Hl.
  destruct (increaseSparsity_correctionGrows (checked s) Hround)
    as (Hkept & added & Hadd & Hall).
  fold between in Hkept, Hadd, Hall.
  unfold keptByRemoval in Hkept.
  destruct (pagesMarked_marked (checked s)) as (Hro & _ & _ & _ & Hcells).
  fold between in Hro, Hcells. unfold readOnly in Hro.
  assert (Hflags : convergenceMatrix between = convergenceMatrix s')
    by congruence.
  assert (Hlinks : linksFromConvergedPages between = linksFromConvergedPages s).
  { transitivity (linksFromConvergedPages (sparsityStart (checked s)));
      [congruence|].
    change (linksFromConvergedPages (sparsityStart (checked s)))
      with (linksFromConvergedPages (checked s)).
    congruence. }
  split; [exact Hflags|]. split; [exact Hlinks|].
  exists added. split; [congruence|].
  eapply Forall_impl; [exact Hall|].
  intros e (Hrow & Hnew & Hcol). cbv beta.
  rewrite <- Hflags. split; [|exact Hcol].
  destruct (Hcells (rowIndex e)) as (Hcme & _ & Hnewe).
  rewrite Hpc in Hrow, Hcme, Hnewe.
  rewrite sparsityStart_newly_length, Hpc in Hnewe.
  specialize (Hnewe Hrow).
  apply Nat.ltb_lt in Hrow. rewrite Hrow in Hcme, Hnewe.
  rewrite Hnewe in Hnew. rewrite Hnew, orb_true_r in Hcme.
  split; [|exact Hcme].
  unfold pageConverges in Hnew. apply andb_prop in Hnew as [Hnew _].
  apply negb_true_iff in Hnew.
  change (convergenceMatrix (sparsityStart (checked s)))
    with (convergenceMatrix (checked s)) in Hnew.
  congruence.
Qed.

(** ** The update of the vector *)

(** A loop that rewrites each cell from its own content. *)
Lemma for_loop_cells {A : Type} `{Inhabited A} (n : nat) (f : nat -> A -> A)
    (v : list A) :
  let v' := for_loop n (fun i v => <[i := f i (v !!! i)]> v) v in
  length v' = length v
  /\ forall i, i < length v ->
       v' !!! i = if (i <? n)%nat then f i (v !!! i) else v !!! i.
Proof.
  apply (for_loop_invariant (fun k st =>
           length st = length v
           /\ forall i, i < length v ->
                st !!! i = if (i <? k)%nat then f i (v !!! i) else v !!! i)).
  - split; reflexivity.
  - intros k st _ (Hl & Hc). rewrite length_insert. split; [exact Hl|].
    intros i Hi. destruct (decide (i = k)) as [->|Hne].
    + rewrite list_lookup_total_insert_eq by lia.
      rewrite (Hc k Hi). nat_cases.
    + rewrite list_lookup_total_insert_ne by congruence.
      rewrite (Hc i Hi). nat_cases.
Qed.

Lemma lookup_total_beyond {A : Type} `{Inhabited A} (l : list A) (i : nat) :
  length l <= i -> l !!! i = inhabitant.
Proof.
  intros Hi. rewrite list_lookup_total_alt, lookup_ge_None_2 by exact Hi.
  reflexivity.
Qed.

Lemma map_lookup_total (f : double -> double) (l : list double) (i : nat) :
  i < length l -> map f l !!! i = f (l !!! i).
Proof.
  revert i. induction l as [|x l IH]; intros i Hi; cbn in Hi; [lia|].
  destruct i as [|i]; [reflexivity|]. cbn. apply IH. lia.
Qed.

(** [vectorNorm] reads the first [vectorSize] cells only. *)
Lemma vectorNorm_ext (v w : list double) (n : nat) :
  (forall i, i < n -> v !!! i = w !!! i) -> vectorNorm v n = vectorNorm w n.
Proof.
  unfold vectorNorm. induction n as [|n IH]; intros Hvw; [reflexivity|].
  rewrite !for_loop_S, IH, Hvw by (intros; try apply Hvw; lia). reflexivity.
Qed.

Lemma memcpy_lookup {A : Type} `{Inhabited A} (dst src : list A) (n i : nat) :
  length dst = n -> i < n -> memcpy dst src n !!! i = src !!! i.
Proof.
  intros Hl Hi. unfold memcpy.
  rewrite drop_ge, app_nil_r by lia.
  destruct (decide (i < length src)) as [Hlt|Hge].
  - apply lookup_total_take_lt, Hi.
  - rewrite !lookup_total_beyond; [reflexivity | lia |].
    rewrite length_take. lia.
Qed.

(** C2. For every iteration and every page [i], the updated rank is
    [dampingFactor * raw[i] + (0.5 * normDifference * (1/numberOfPages)
     + correctionVector[i] + convergedRankVector[i])]
    where [raw] is the compressed matrix-vector product of the transition
    matrix with the previous vector, [scaled[i] = dampingFactor * raw[i]],
    and [normDifference] is the first norm of the previous vector minus
    the first norm of the scaled vector. The previous vector holds, in
    its [numberOfPages] cells, the ranks the iteration started from; the
    first norm is the sum of the absolute values of the cells, in index
    order. The sum of the four terms is grouped as the compound
    assignment of the source evaluates it. *)
Theorem next_rank_formula (s : PagerankFrame) (i : nat) :
  let n := numberOfPages (parameters s) in
  let d := dampingFactor (parameters s) in
  let previous := memcpy (previousPagerankVector s) (pagerankVector s) n in
  let raw := csrSparseMatrixVectorMultiplication (transitionMatrix s) previous
               (pagerankVector s) n in
  let scaled := map (mul d) raw in
  let normDifference := (L1Norm previous n - L1Norm scaled n)%D in
  length (previousPagerankVector s) <= n -> i < n -> i < length raw ->
  previousPagerankVector (pagerank_iteration s) = previous
  /\ (forall j, j < n -> previous !!! j = pagerankVector s !!! j)
  /\ scaled !!! i = (d * (raw !!! i))%D
  /\ pagerankVector (pagerank_iteration s) !!! i =
     (d * (raw !!! i)
      + (half * normDifference * (one / of_int (Z.of_nat n))
         + (linksFromConvergedPagesPagerankVector s !!! i)
         + (convergedPagerankVector s !!! i)))%D.
Proof.
  intros n d previous raw scaled normDifference Hlen Hi Hraw.
  subst normDifference. rewrite <- !vectorNorm_L1Norm.
  destruct (pagerank_iteration_fields s) as (_ & _ & Hpv & Hpr & _).
  rewrite Hpv, Hpr, afterUpdate_pagerankVector, afterUpdate_previousPagerankVector.
  fold n d previous.
  split; [reflexivity|].
  split; [intros j Hj; apply memcpy_cells; assumption|].
  split; [apply map_lookup_total, Hraw|].
  unfold calculateNextPagerank. fold raw.
  destruct (for_loop_cells n (fun _ x => (d * x)%D) raw) as (Hl1 & Hc1).
  set (damped := for_loop n _ raw) in *.
  destruct (for_loop_cells n
              (fun i x =>
                 (x + (half * (vectorNorm previous n - vectorNorm damped n)
                       * (one / of_int (Z.of_nat n))
                       + (linksFromConvergedPagesPagerankVector s !!! i)
                       + (convergedPagerankVector s !!! i)))%D) damped)
    as (_ & Hc2).
  rewrite Hc2 by lia. rewrite Hc1 by lia.
  apply Nat.ltb_lt in Hi. rewrite Hi.
  replace (vectorNorm damped n) with (vectorNorm scaled n); [reflexivity|].
  apply vectorNorm_ext. intros j Hj.
  destruct (decide (j < length raw)) as [Hlt|Hge].
  - rewrite Hc1 by exact Hlt. apply Nat.ltb_lt in Hj. rewrite Hj.
    apply map_lookup_total, Hlt.
  - rewrite !lookup_total_beyond; [reflexivity | lia |].
    unfold scaled. rewrite length_map. lia.
Qed.

(** ** The first check *)

Lemma pagerank_init_previousPagerankVector M v p file :
  previousPagerankVector (pagerank_init M v p file)
  = malloc (numberOfPages p) indeterminate_double.
Proof.
  unfold pagerank_init.
  rewrite (for_loop_preserves previousPagerankVector); reflexivity.
Qed.

(** C3, as the source has it. At iteration [t = 0] the check is
    performed, not skipped, and it compares the vector produced by the
    first update with the starting vector: [previous] holds the starting
    vector, the difference is taken cell by cell between the updated
    vector and it, [delta] is the first norm of that difference, and the
    status is the outcome of [delta < convergenceCriterion]. *)
Theorem first_check_compares_update_with_start M v p file :
  let s' := pagerank_iteration (pagerank_init M v p file) in
  let n := numberOfPages p in
  (forall i, i < n -> previousPagerankVector s' !!! i = v !!! i)
  /\ (forall i, i < n ->
        pagerankDifference s' !!! i = ((pagerankVector s' !!! i) - (v !!! i))%D)
  /\ delta s' = vectorNorm (pagerankDifference s') n
  /\ convergenceStatus s' = (delta s' <? convergenceCriterion p)%D.
Proof.
  intros s' n.
  set (s := pagerank_init M v p file) in *.
  destruct (pagerank_init_initialised M v p file)
    as (Hf & _ & _ & _ & Hld & _).
  fold s in Hf, Hld.
  injection Hf as HM Hv Hst Hp Hit _ _.
  destruct (pagerank_iteration_fields s)
    as (_ & _ & Hpv & Hpr & Hd & Hdelta & Hstatus & _).
  fold s' in Hpv, Hpr, Hd, Hdelta, Hstatus.
  pose proof (afterUpdate_kept s) as Hu. unfold keptByUpdate in Hu.
  assert (Hround : checkRound (afterUpdate s) = true).
  { unfold checkRound.
    replace (iterations (afterUpdate s)) with (iterations s) by congruence.
    rewrite Hit. reflexivity. }
  destruct (checkConvergence_check (afterUpdate s) Hround)
    as (_ & _ & Hcells & Hnorm & Hnew).
  fold (checked s) in Hcells, Hnorm, Hnew.
  replace (parameters (afterUpdate s)) with p in * by congruence.
  fold n in Hcells, Hnorm.
  assert (Hprev : forall i, i < n -> previousPagerankVector s' !!! i = v !!! i).
  { intros i Hi. rewrite Hpr, afterUpdate_previousPagerankVector, Hp, Hv.
    apply memcpy_lookup; [|exact Hi].
    unfold s. rewrite pagerank_init_previousPagerankVector.
    apply length_replicate. }
  split; [exact Hprev|].
  split; [|split].
  - intros i Hi. rewrite <- (Hprev i Hi), Hd, Hpv, Hpr.
    apply Hcells; [exact Hi|].
    replace (pagerankDifference (afterUpdate s)) with (pagerankDifference s)
      by congruence.
    lia.
  - rewrite Hd, Hdelta. exact Hnorm.
  - rewrite Hstatus, Hdelta, Hnew.
    replace (convergenceStatus (afterUpdate s)) with (convergenceStatus s)
      by congruence.
    rewrite Hst. reflexivity.
Qed.

End Controller.

(** * The stored transition matrix *)

(** ** Rounding of [1. / d]

    The quotient [1. / d] of the weighting loop, for an out-degree [d]
    that [int] can hold: the division rounds to nearest, so the quotient
    times [d] is one up to half a unit in the last place. *)

Section Rounding.

Local Open Scope Z_scope.

Lemma digits2_pos_bounds (p : positive) :
  2 ^ (Zpos (digits2_pos p) - 1) <= Zpos p < 2 ^ Zpos (digits2_pos p).
Proof.
  induction p as [p IH|p IH|]; cbn [digits2_pos].
  - rewrite Pos2Z.inj_succ.
    replace (Z.succ (Zpos (digits2_pos p)) - 1) with (Z.succ (Zpos (digits2_pos p) - 1)) by lia.
    rewrite !Z.pow_succ_r by lia. lia.
  - rewrite Pos2Z.inj_succ.
    replace (Z.succ (Zpos (digits2_pos p)) - 1) with (Z.succ (Zpos (digits2_pos p) - 1)) by lia.
    rewrite !Z.pow_succ_r by lia. lia.
  - cbn. lia.
Qed.

Lemma digits2_pos_unique (p : positive) (n : Z) :
  2 ^ (n - 1) <= Zpos p < 2 ^ n -> Zpos (digits2_pos p) = n.
Proof.
  intros (Hlo & Hhi). pose proof (digits2_pos_bounds p) as (Blo & Bhi).
  assert (Hn : 0 < n).
  { destruct (Z.ltb_spec 0 n) as [|Hle]; [assumption|].
    exfalso. destruct (Z.eq_dec n 0) as [->|Hne].
    - cbn in Hhi. lia.
    - rewrite Z.pow_neg_r in Hhi by lia. lia. }
  destruct (Z.lt_trichotomy (Zpos (digits2_pos p)) n) as [Hlt|[Heq|Hgt]];
    [exfalso | exact Heq | exfalso].
  - assert (2 ^ Zpos (digits2_pos p) <= 2 ^ (n - 1))
      by (apply Z.pow_le_mono_r; lia).
    lia.
  - assert (2 ^ n <= 2 ^ (Zpos (digits2_pos p) - 1))
      by (apply Z.pow_le_mono_r; lia).
    lia.
Qed.

Lemma iter_xO (p n : positive) :
  Zpos (Pos.iter xO p n) = Zpos p * 2 ^ Zpos n.
Proof.
  induction n as [|n IH] using Pos.peano_ind.
  - cbn. lia.
  - rewrite Pos.iter_succ, Pos2Z.inj_succ, Z.pow_succ_r by lia.
    rewrite Pos2Z.inj_xO, IH. lia.
Qed.

Lemma normal_digits m : normalMantissa m -> Zpos (digits2_pos m) = 53.
Proof. intros H. apply digits2_pos_unique. exact H. Qed.

Lemma shr_record_of_loc_m m l : shr_m (shr_record_of_loc m l) = m.
Proof. destruct l as [|[]]; reflexivity. Qed.

Lemma loc_of_shr_record_of_loc m l :
  loc_of_shr_record (shr_record_of_loc m l) = l.
Proof. destruct l as [|[]]; reflexivity. Qed.

Lemma shr_fexp_normal (m : positive) (e : Z) (l : location) :
  normalMantissa m -> -1074 <= e ->
  shr_fexp prec emax (Zpos m) e l = (shr_record_of_loc (Zpos m) l, e).
Proof.
  intros Hm He. unfold shr_fexp. cbn [Zdigits2].
  rewrite (normal_digits m Hm). unfold fexp, emin, prec, emax.
  replace (Z.max (53 + e - 53) (3 - 1024 - 53) - e) with 0 by lia.
  reflexivity.
Qed.

(** A mantissa of 53 digits with an exponent in range is kept as it is. *)
Lemma binary_round_aux_exact (s : bool) (m : positive) (e : Z) :
  normalMantissa m -> -1074 <= e <= 971 ->
  binary_round_aux prec emax s (Zpos m) e loc_Exact = S754_finite s m e.
Proof.
  intros Hm He. unfold binary_round_aux.
  rewrite (shr_fexp_normal m e loc_Exact Hm) by lia.
  cbn [shr_record_of_loc shr_m loc_of_shr_record round_nearest_even].
  rewrite (shr_fexp_normal m e loc_Exact Hm) by lia.
  cbn [shr_record_of_loc shr_m].
  replace (e <=? emax - prec) with true; [reflexivity|].
  symmetry. apply Z.leb_le. unfold emax, prec. lia.
Qed.

(** The conversion of a positive integer below [2^53] is exact: the
    mantissa is the integer shifted to 53 digits. *)
Lemma of_int_normal (d : Z) :
  1 <= d < 2 ^ 53 ->
  exists m e, of_int d = S754_finite false m e
              /\ normalMantissa m /\ -52 <= e <= 0 /\ Zpos m = d * 2 ^ (- e).
Proof.
  intros Hd. destruct d as [|p|p]; try lia.
  unfold of_int, binary_normalize, binary_round.
  pose proof (digits2_pos_bounds p) as (Blo & Bhi).
  set (k := Zpos (digits2_pos p)) in *.
  assert (Hk : 1 <= k <= 53).
  { split; [unfold k; lia|].
    destruct (Z.leb_spec k 53) as [|Hgt]; [assumption|exfalso].
    assert (2 ^ 53 <= 2 ^ (k - 1)) by (apply Z.pow_le_mono_r; lia). lia. }
  unfold shl_align, fexp, emin, prec, emax.
  replace (Z.max (k + 0 - 53) (3 - 1024 - 53) - 0) with (k - 53) by lia.
  replace (Z.max (k + 0 - 53) (3 - 1024 - 53)) with (k - 53) by lia.
  destruct (k - 53) as [|q|q] eqn:Hq; try lia.
  - assert (Hn : normalMantissa p).
    { unfold normalMantissa. replace 53 with k by lia. replace 52 with (k - 1) by lia.
      split; assumption. }
    exists p, 0. split; [apply (binary_round_aux_exact false p 0 Hn); lia|].
    split; [exact Hn|]. split; [lia|]. cbn. lia.
  - assert (Hn : normalMantissa (Pos.iter xO p q)).
    { unfold normalMantissa. rewrite iter_xO.
      replace (Zpos q) with (53 - k) by lia.
      split.
      - replace 52 with ((k - 1) + (53 - k)) by lia.
        rewrite Z.pow_add_r by lia. apply Z.mul_le_mono_nonneg_r; lia.
      - replace 53 with (k + (53 - k)) at 2 by lia.
        rewrite Z.pow_add_r by lia. apply Z.mul_lt_mono_pos_r; lia. }
    exists (Pos.iter xO p q), (Zneg q).
    split; [apply (binary_round_aux_exact false _ _ Hn); lia|].
    split; [exact Hn|]. split; [lia|].
    rewrite iter_xO. reflexivity.
Qed.

Lemma one_finite : one = S754_finite false 4503599627370496 (-52).
Proof. reflexivity. Qed.

Lemma SFdiv_core_binary_one (m : positive) (e : Z) :
  normalMantissa m -> -52 <= e <= 0 ->
  SFdiv_core_binary prec emax 4503599627370496 (-52) (Zpos m) e
  = (2 ^ 105 / Zpos m, -105 - e, new_location (Zpos m) (2 ^ 105 mod Zpos m)).
Proof.
  intros Hm He. unfold SFdiv_core_binary. cbn [Zdigits2].
  rewrite (normal_digits m Hm).
  change (Zpos (digits2_pos 4503599627370496)) with 53.
  unfold fexp, emin, prec, emax.
  replace (Z.min (Z.max (53 + -52 - (53 + e) - 53) (3 - 1024 - 53)) (-52 - e))
    with (-105 - e) by lia.
  replace (-52 - e - (-105 - e)) with 53 by lia.
  change (Z.shiftl 4503599627370496 53) with (2 ^ 105).
  unfold Z.div, Z.modulo.
  destruct (Z.div_eucl (2 ^ 105) (Zpos m)) as [q r]. reflexivity.
Qed.

Lemma new_location_round (M q r : Z) :
  0 < M -> 0 <= r < M ->
  let m := round_nearest_even q (new_location M r) in
  (m = q /\ 2 * r <= M) \/ (m = q + 1 /\ M <= 2 * r).
Proof.
  intros HM Hr. unfold new_location, new_location_even, new_location_odd.
  destruct (Z.even M) eqn:Heven.
  - destruct (Z.eqb_spec r 0) as [->|Hne]; [left; cbn; lia|].
    destruct (Z.compare_spec (2 * r) M); cbn [round_nearest_even].
    + destruct (Z.even q); [left | right]; lia.
    + left. lia.
    + right. lia.
  - destruct (Z.eqb_spec r 0) as [->|Hne]; [left; cbn; lia|].
    destruct (Z.compare_spec (2 * r + 1) M); cbn [round_nearest_even].
    + left. lia.
    + left. lia.
    + right. lia.
Qed.

(** [1. / y] for a normalMantissa [y] between [1] and [2^53]: the quotient is a
    normalMantissa number, and its product with [y] is within [2^-53] of one. *)
Lemma div_one_normal (m2 : positive) (e2 : Z) :
  normalMantissa m2 -> -52 <= e2 <= 0 ->
  exists m e,
    Double.div one (S754_finite false m2 e2) = S754_finite false m e
    /\ e < 0 /\ e2 + e < 0
    /\ Z.abs (Zpos m2 * Zpos m - 2 ^ (- (e2 + e))) * 2 ^ 53 <= 2 ^ (- (e2 + e)).
Proof.
  intros Hm2 He2. rewrite one_finite. unfold Double.div, SFdiv. cbn [xorb].
  rewrite (SFdiv_core_binary_one m2 e2 Hm2 He2).
  destruct (Z.eq_dec (Zpos m2) (2 ^ 52)) as [Heq|Hne].
  - assert (Hm2' : m2 = 4503599627370496%positive) by lia. subst m2. clear Heq.
    exists 4503599627370496%positive, (-104 - e2).
    split; [|split; [lia|split; [lia|]]].
    + change (2 ^ 105 / 4503599627370496) with 9007199254740992.
      change (2 ^ 105 mod 4503599627370496) with 0.
      change (new_location 4503599627370496 0) with loc_Exact.
      unfold binary_round_aux, shr_fexp at 1.
      cbn [Zdigits2]. change (Zpos (digits2_pos 9007199254740992)) with 54.
      unfold fexp at 1, emin, prec at 1, emax at 1.
      replace (Z.max (54 + (-105 - e2) - 53) (3 - 1024 - prec) - (-105 - e2))
        with 1 by (unfold prec; lia).
      cbn [shr shr_record_of_loc iter_pos shr_1 orb shr_m loc_of_shr_record
           round_nearest_even].
      rewrite (shr_fexp_normal 4503599627370496 _ loc_Exact) by (unfold normalMantissa; lia).
      cbn [shr_record_of_loc shr_m].
      replace (-105 - e2 + 1 <=? emax - prec) with true
        by (symmetry; apply Z.leb_le; unfold emax, prec; lia).
      f_equal. lia.
    + replace (- (e2 + (-104 - e2))) with 104 by lia.
      change (4503599627370496 * 4503599627370496 - 2 ^ 104) with 0. cbn. lia.
  - assert (HM : 2 ^ 52 + 1 <= Zpos m2 < 2 ^ 53) by (unfold normalMantissa in Hm2; lia).
    pose proof (Z_div_mod_eq_full (2 ^ 105) (Zpos m2)) as Hdiv.
    pose proof (Z.mod_pos_bound (2 ^ 105) (Zpos m2) eq_refl) as Hr.
    set (q := 2 ^ 105 / Zpos m2) in *. set (r := 2 ^ 105 mod Zpos m2) in *.
    assert (Hq : 2 ^ 52 <= q <= 2 ^ 53 - 2).
    { split.
      - destruct (Z.le_gt_cases (2 ^ 52) q) as [|Hlt]; [assumption|exfalso].
        assert (Zpos m2 * q <= Zpos m2 * (2 ^ 52 - 1))
          by (apply Z.mul_le_mono_nonneg_l; lia).
        assert (Zpos m2 * (2 ^ 52 - 1) <= (2 ^ 53 - 1) * (2 ^ 52 - 1))
          by (apply Z.mul_le_mono_nonneg_r; lia).
        change ((2 ^ 53 - 1) * (2 ^ 52 - 1)) with
          (2 ^ 105 - 2 ^ 53 - 2 ^ 52 + 1) in *.
        lia.
      - destruct (Z.le_gt_cases q (2 ^ 53 - 2)) as [|Hgt]; [assumption|exfalso].
        assert ((2 ^ 52 + 1) * (2 ^ 53 - 1) <= Zpos m2 * (2 ^ 53 - 1))
          by (apply Z.mul_le_mono_nonneg_r; lia).
        assert (Zpos m2 * (2 ^ 53 - 1) <= Zpos m2 * q)
          by (apply Z.mul_le_mono_nonneg_l; lia).
        change ((2 ^ 52 + 1) * (2 ^ 53 - 1)) with
          (2 ^ 105 + 2 ^ 53 - 2 ^ 52 - 1) in *.
        lia. }
    destruct q as [|qp|qp] eqn:Hqp; try lia.
    assert (Hnq : normalMantissa qp) by (unfold normalMantissa; lia).
    unfold binary_round_aux.
    rewrite (shr_fexp_normal qp _ _ Hnq) by lia.
    rewrite shr_record_of_loc_m, loc_of_shr_record_of_loc.
    pose proof (new_location_round (Zpos m2) (Zpos qp) r eq_refl Hr) as Hround.
    cbv zeta in Hround.
    set (m := round_nearest_even (Zpos qp) (new_location (Zpos m2) r)) in *.
    assert (Hm : 2 ^ 52 <= m < 2 ^ 53) by lia.
    destruct m as [|mp|mp] eqn:Hmp; try lia.
    rewrite (shr_fexp_normal mp _ loc_Exact Hm) by lia.
    cbn [shr_record_of_loc shr_m].
    replace (-105 - e2 <=? emax - prec) with true
      by (symmetry; apply Z.leb_le; unfold emax, prec; lia).
    exists mp, (-105 - e2). split; [reflexivity|]. split; [lia|]. split; [lia|].
    replace (- (e2 + (-105 - e2))) with 105 by lia.
    change (2 ^ 105) with (2 ^ 52 * 2 ^ 53) at 2.
    apply Z.mul_le_mono_nonneg_r; [lia|].
    destruct Hround as [(Hmq & Hle)|(Hmq & Hle)].
    + replace (Zpos m2 * Zpos mp - 2 ^ 105) with (- r) by (rewrite Hmq; lia).
      lia.
    + replace (Zpos m2 * Zpos mp - 2 ^ 105) with (Zpos m2 - r)
        by (rewrite Hmq; lia).
      lia.
Qed.

(** [1. / d] for an integer [d] between [1] and [2^53]: a finite number
    [m * 2^e] whose product with [d] is within [2^-53] of one. *)
Lemma div_one_of_int (d : Z) :
  1 <= d < 2 ^ 53 ->
  exists m e,
    Double.div one (of_int d) = S754_finite false m e
    /\ e < 0
    /\ Z.abs (d * Zpos m - 2 ^ (- e)) * 2 ^ 53 <= 2 ^ (- e).
Proof.
  intros Hd.
  destruct (of_int_normal d Hd) as (m2 & e2 & -> & Hn & He2 & Hm2).
  destruct (div_one_normal m2 e2 Hn He2) as (m & e & Hdiv & He & Hsum & Hbound).
  exists m, e. split; [exact Hdiv|]. split; [exact He|].
  replace (- (e2 + e)) with (- e2 + - e) in Hbound by lia.
  rewrite Z.pow_add_r in Hbound by lia.
  rewrite Hm2 in Hbound.
  replace (d * 2 ^ (- e2) * Zpos m - 2 ^ (- e2) * 2 ^ (- e))
    with (2 ^ (- e2) * (d * Zpos m - 2 ^ (- e))) in Hbound by ring.
  assert (Hp : 0 < 2 ^ (- e2)) by (apply Z.pow_pos_nonneg; lia).
  rewrite Z.abs_mul, (Z.abs_eq (2 ^ (- e2))) in Hbound by lia.
  rewrite <- Z.mul_assoc in Hbound.
  apply Z.mul_le_mono_pos_l in Hbound; assumption.
Qed.

Lemma exactSum_replicate (x : double) (a : Q) (n : nat) :
  exactValue x = Some a ->
  exists sum, exactSum (replicate n x) = Some sum
              /\ (sum == inject_Z (Z.of_nat n) * a)%Q.
Proof.
  intros Hx. induction n as [|n (sum & Hsum & Heq)].
  - exists 0%Q. split; [reflexivity|]. cbn. ring.
  - exists (a + sum)%Q. cbn [replicate exactSum]. rewrite Hx, Hsum.
    split; [reflexivity|]. rewrite Heq, Nat2Z.inj_succ.
    unfold Z.succ. rewrite inject_Z_plus. ring.
Qed.

Lemma near_one (d : Z) (m : positive) (e : Z) :
  e < 0 ->
  Z.abs (d * Zpos m - 2 ^ (- e)) * 2 ^ 53 <= 2 ^ (- e) ->
  (Qabs (inject_Z d * (inject_Z (Zpos m) * 2 ^ e) - 1) <= 2 ^ (-53))%Q.
Proof.
  intros He Hbound.
  assert (Hp : 0 < 2 ^ (- e)) by (apply Z.pow_pos_nonneg; lia).
  assert (Hpow : (2 ^ e == / inject_Z (2 ^ (- e)))%Q).
  { replace e with (- (- e)) at 1 by lia.
    rewrite Qpower_opp. rewrite Zpower_Qpower by lia. reflexivity. }
  assert (Hne : ~ (inject_Z (2 ^ (- e)) == 0)%Q).
  { intros H. unfold Qeq in H. cbn in H. lia. }
  rewrite Hpow.
  assert (Hfrac :
    (inject_Z d * (inject_Z (Zpos m) * / inject_Z (2 ^ (- e))) - 1
     == inject_Z (d * Zpos m - 2 ^ (- e)) / inject_Z (2 ^ (- e)))%Q).
  { unfold Z.sub. rewrite inject_Z_plus, inject_Z_opp, inject_Z_mult. field.
    exact Hne. }
  rewrite Hfrac. unfold Qdiv.
  rewrite Qabs_Qmult.
  rewrite (Qabs_pos (/ inject_Z (2 ^ (- e)))).
  2:{ apply Qinv_le_0_compat. unfold Qle. cbn. lia. }
  apply Qle_shift_div_r.
  { unfold Qlt. cbn. lia. }
  change (Qabs (inject_Z (d * Zpos m - 2 ^ (- e))))
    with (inject_Z (Z.abs (d * Zpos m - 2 ^ (- e)))).
  change (2 ^ (-53))%Q with (/ inject_Z (2 ^ 53))%Q.
  assert (Hswap :
    (/ inject_Z (2 ^ 53) * inject_Z (2 ^ (- e))
     == inject_Z (2 ^ (- e)) / inject_Z (2 ^ 53))%Q) by (field; discriminate).
  rewrite Hswap.
  apply Qle_shift_div_l; [reflexivity|].
  rewrite <- inject_Z_mult. rewrite <- Zle_Qle. exact Hbound.
Qed.

End Rounding.

Section Construction.

Context {R : Runtime}.

Lemma readEdges_from edges r :
  let r' := fold_left (fun r e => readEdge e r) edges r in
  elements (tempMatrix r') = elements (tempMatrix r) ++ map edgeElement edges
  /\ maxPageIndex r <= maxPageIndex r'
  /\ Forall (fun e => e.1 <= maxPageIndex r' /\ e.2 <= maxPageIndex r') edges.
Proof.
  revert r. induction edges as [|e edges IH]; intros r.
  - cbn. rewrite app_nil_r. repeat split; [lia | constructor].
  - cbn [fold_left]. destruct (IH (readEdge e r)) as (Hel & Hmax & Hall).
    assert (Hstep : maxPageIndex r <= maxPageIndex (readEdge e r)
                    /\ e.1 <= maxPageIndex (readEdge e r)
                    /\ e.2 <= maxPageIndex (readEdge e r)).
    { unfold readEdge. cbn [maxPageIndex].
      destruct (Nat.ltb_spec (maxPageIndex r) (e.1)); nat_cases. }
    cbv zeta. rewrite Hel. cbn [readEdge tempMatrix elements SparseMatrix.addElement map].
    rewrite <- app_assoc. split; [reflexivity|]. split; [lia|].
    constructor; [lia | exact Hall].
Qed.

Lemma readEdges_spec edges :
  elements (tempMatrix (readEdges edges)) = map edgeElement edges
  /\ Forall (fun e => e.1 <= maxPageIndex (readEdges edges)
                      /\ e.2 <= maxPageIndex (readEdges edges)) edges.
Proof.
  destruct (readEdges_from edges (mkReader 0 SparseMatrix.initCooSparseMatrix))
    as (Hel & _ & Hall).
  split; [exact Hel | exact Hall].
Qed.

Lemma list_eq_total {A : Type} `{Inhabited A} (l k : list A) :
  length l = length k ->
  (forall i, i < length l -> l !!! i = k !!! i) ->
  l = k.
Proof.
  intros Hlen Hcells. apply (list_eq_same_length _ _ (length l)); try congruence.
  intros i x y Hi Hx Hy.
  apply list_lookup_total_correct in Hx, Hy. rewrite <- Hx, <- Hy.
  apply Hcells, Hi.
Qed.

Lemma map_lookup_total_gen {A B : Type} `{Inhabited A} `{Inhabited B}
    (f : A -> B) (l : list A) (i : nat) :
  i < length l -> map f l !!! i = f (l !!! i).
Proof.
  revert i. induction l as [|x l IH]; intros i Hi; cbn in Hi; [lia|].
  destruct i as [|i]; [reflexivity|]. cbn. apply IH. lia.
Qed.

Lemma assignTransitionProbabilities_spec tm pageOutdegree :
  elements (assignTransitionProbabilities tm pageOutdegree)
  = map (weighted pageOutdegree) (elements tm).
Proof.
  unfold assignTransitionProbabilities, coo_size. cbn [elements].
  match goal with
  | |- context [for_loop ?n ?b ?l] =>
      change b with (fun (i : nat) (v : list CooSparseMatrixElement) =>
                       <[i := weighted pageOutdegree (v !!! i)]> v)
  end.
  destruct (for_loop_cells (length (elements tm))
              (fun _ e => weighted pageOutdegree e) (elements tm))
    as (Hlen & Hcells).
  apply list_eq_total.
  - rewrite length_map. exact Hlen.
  - intros i Hi. rewrite Hlen in Hi. rewrite (Hcells i Hi).
    apply Nat.ltb_lt in Hi as Hi'. rewrite Hi'.
    rewrite map_lookup_total_gen by exact Hi. reflexivity.
Qed.

(** The counting loop counts. *)
Lemma calculateOutdegree_spec tm n j :
  Forall (fun e => rowIndex e < n) (elements tm) ->
  j < n ->
  calculateOutdegree tm (length (elements tm)) n !!! j
  = Z.of_nat (length (filter (fun e => rowIndex e = j) (elements tm))).
Proof.
  intros Hrows Hj. unfold calculateOutdegree.
  destruct (for_loop_cells n (fun _ _ => 0%Z) (malloc n indeterminate_int))
    as (Hlen0 & Hcells0).
  set (zeroed := for_loop n (fun i d => <[i := 0%Z]> d)
                   (malloc n indeterminate_int)) in *.
  unfold malloc in Hlen0, Hcells0. rewrite length_replicate in Hlen0, Hcells0.
  set (els := elements tm) in *.
  assert (Hinv : forall k, k <= length els ->
            let d := for_loop k (fun i d =>
                       let currentRow := rowIndex (els !!! i) in
                       if Nat.eqb currentRow (rowIndex (els !!! i))
                       then <[currentRow := (d !!! currentRow + 1)%Z]> d
                       else d) zeroed in
            length d = n
            /\ forall j, j < n ->
                 d !!! j = Z.of_nat (length (filter (fun e => rowIndex e = j)
                                                    (take k els)))).
  { induction k as [|k IH]; intros Hk.
    - cbn. split; [exact Hlen0|]. intros j' Hj'.
      rewrite (Hcells0 j' Hj'). apply Nat.ltb_lt in Hj'. rewrite Hj'. reflexivity.
    - destruct IH as (Hlen & Hcells); [lia|].
      cbv zeta. rewrite for_loop_S. cbv zeta. rewrite Nat.eqb_refl.
      set (d := for_loop k _ zeroed) in *.
      rewrite length_insert. split; [exact Hlen|].
      intros j' Hj'.
      assert (Hlook : els !! k = Some (els !!! k))
        by (apply list_lookup_lookup_total_lt; lia).
      rewrite (take_S_r _ _ _ Hlook), filter_app, length_app.
      assert (Hrow : rowIndex (els !!! k) < n).
      { rewrite Forall_forall in Hrows. apply Hrows.
        eapply list_elem_of_lookup_2. exact Hlook. }
      rewrite (filter_singleton _ _ []).
      destruct (decide (rowIndex (els !!! k) = j')) as [Heq|Hne].
      + rewrite Heq in *. rewrite list_lookup_total_insert_eq by lia.
        rewrite (Hcells j' Hj'). cbn [length]. lia.
      + rewrite list_lookup_total_insert_ne by exact Hne.
        rewrite (Hcells j' Hj'). cbn [length]. lia. }
  destruct (Hinv (length els) (le_n _)) as (_ & Hcells).
  specialize (Hcells j Hj). rewrite take_ge in Hcells by lia.
  exact Hcells.
Qed.

(** *** Grouping by row keeps every element *)

Lemma filter_none_below_0 (l : list CooSparseMatrixElement) :
  filter (fun e => rowIndex e < 0) l = [].
Proof.
  induction l as [|x l IH]; [reflexivity|].
  rewrite filter_cons_False by lia. exact IH.
Qed.

Lemma filter_all (n : nat) (l : list CooSparseMatrixElement) :
  Forall (fun e => rowIndex e < n) l ->
  filter (fun e => rowIndex e < n) l = l.
Proof.
  induction 1 as [|x l Hx _ IH]; [reflexivity|].
  rewrite filter_cons_True by exact Hx. rewrite IH. reflexivity.
Qed.

Lemma filter_rows_below_S (n : nat) (l : list CooSparseMatrixElement) :
  filter (fun e => rowIndex e < n) l ++ filter (fun e => rowIndex e = n) l
  ≡ₚ filter (fun e => rowIndex e < S n) l.
Proof.
  induction l as [|x l IH]; [reflexivity|].
  destruct (lt_eq_lt_dec (rowIndex x) n) as [[Hlt|Heq]|Hgt].
  - rewrite (filter_cons_True (fun e => rowIndex e < n)) by exact Hlt.
    rewrite (filter_cons_False (fun e => rowIndex e = n)) by lia.
    rewrite (filter_cons_True (fun e => rowIndex e < S n)) by lia.
    cbn. rewrite IH. reflexivity.
  - rewrite (filter_cons_False (fun e => rowIndex e < n)) by lia.
    rewrite (filter_cons_True (fun e => rowIndex e = n)) by exact Heq.
    rewrite (filter_cons_True (fun e => rowIndex e < S n)) by lia.
    rewrite <- Permutation_middle, IH. reflexivity.
  - rewrite (filter_cons_False (fun e => rowIndex e < n)) by lia.
    rewrite (filter_cons_False (fun e => rowIndex e = n)) by lia.
    rewrite (filter_cons_False (fun e => rowIndex e < S n)) by lia.
    exact IH.
Qed.

Lemma grouped_by_row (m : CooSparseMatrix) (n : nat) :
  flat_map (SparseMatrix.rowElements m) (seq 0 n)
  ≡ₚ filter (fun e => rowIndex e < n) (elements m).
Proof.
  induction n as [|n IH].
  - cbn. rewrite filter_none_below_0. reflexivity.
  - rewrite seq_S, flat_map_app. cbn [flat_map Nat.add]. rewrite app_nil_r, IH.
    apply filter_rows_below_S.
Qed.

Lemma columns_of_zip (g : list CooSparseMatrixElement) (j : nat) :
  map snd (filter (fun cv => cv.1 = j) (zip (map columnIndex g) (map value g)))
  = map value (filter (fun e => columnIndex e = j) g).
Proof.
  induction g as [|x g IH]; [reflexivity|].
  cbn [map zip zip_with]. rewrite !filter_cons. cbn [fst].
  destruct (decide (columnIndex x = j)); cbn [map snd]; rewrite IH; reflexivity.
Qed.

(** Modelled from the spec: with [transformToCSR] as above, the values
    stored in a column are those of the coordinate elements of that
    column, up to the order of storage. *)
Lemma transformToCSR_column (m : CooSparseMatrix) (n j : nat) :
  Forall (fun e => rowIndex e < n) (elements m) ->
  columnValues (SparseMatrix.transformToCSR m n) j
  ≡ₚ map value (filter (fun e => columnIndex e = j) (elements m)).
Proof.
  intros Hrows. unfold columnValues, SparseMatrix.transformToCSR.
  cbn [columnIndexes values]. rewrite columns_of_zip.
  rewrite grouped_by_row, filter_all by exact Hrows. reflexivity.
Qed.

Lemma transposed_elements tm pageOutdegree edges :
  elements tm = map edgeElement edges ->
  elements (SparseMatrix.transposeSparseMatrix
              (assignTransitionProbabilities tm pageOutdegree))
  = map (storedElement pageOutdegree) edges.
Proof.
  intros Hel. unfold SparseMatrix.transposeSparseMatrix. cbn [elements].
  rewrite assignTransitionProbabilities_spec, Hel, !map_map. reflexivity.
Qed.

Lemma stored_column pageOutdegree edges j :
  map value (filter (fun e => columnIndex e = j)
                    (map (storedElement pageOutdegree) edges))
  = replicate (outdegree edges j) (one / of_int (pageOutdegree !!! j))%D.
Proof.
  unfold outdegree. induction edges as [|e edges IH]; [reflexivity|].
  cbn [map]. destruct (decide (e.1 = j)) as [Heq|Hne].
  - rewrite (filter_cons_True (fun e => columnIndex e = j)) by exact Heq.
    rewrite (filter_cons_True (fun e => e.1 = j)) by exact Heq.
    cbn [map length replicate]. rewrite IH.
    unfold storedElement at 1. cbn [value]. rewrite Heq. reflexivity.
  - rewrite (filter_cons_False (fun e => columnIndex e = j)) by exact Hne.
    rewrite (filter_cons_False (fun e => e.1 = j)) by exact Hne.
    exact IH.
Qed.

(** The entries of a column of the stored matrix: one per edge leaving
    the page, each the quotient [1. / outdegree]. *)
Lemma stored_column_entries edges p j :
  let M := (generateNormalizedTransitionMatrix edges p).1 in
  let d := outdegree edges j in
  columnValues M j = replicate d (one / of_int (Z.of_nat d))%D.
Proof.
  intros M d. subst M. unfold generateNormalizedTransitionMatrix.
  cbn [fst numberOfPages set_numberOfPages].
  destruct (readEdges_spec edges) as (Hel & Hmax).
  set (r := readEdges edges) in *.
  set (n := maxPageIndex r + 1).
  set (pageOutdegree := calculateOutdegree (tempMatrix r) (length edges) n).
  set (tm := SparseMatrix.transposeSparseMatrix
               (assignTransitionProbabilities (tempMatrix r) pageOutdegree)).
  assert (Htm : elements tm = map (storedElement pageOutdegree) edges)
    by (apply transposed_elements, Hel).
  symmetry. apply replicate_Permutation. symmetry.
  rewrite transformToCSR_column.
  2:{ rewrite Htm, Forall_map. eapply Forall_impl; [exact Hmax|].
      intros e (_ & He). cbn. lia. }
  rewrite Htm, stored_column.
  destruct (decide (d = 0)) as [Hd|Hd].
  { fold d. rewrite Hd. reflexivity. }
  assert (Hj : j < n).
  { unfold d, outdegree in Hd.
    destruct (filter (fun e => e.1 = j) edges) as [|e l] eqn:Hf; [easy|].
    assert (He : e ∈ filter (fun e => e.1 = j) edges)
      by (rewrite Hf; constructor).
    apply list_elem_of_filter in He as (He1 & He).
    rewrite Forall_forall in Hmax. specialize (Hmax e He). lia. }
  assert (Hdeg : pageOutdegree !!! j = Z.of_nat d).
  { unfold pageOutdegree.
    replace (length edges) with (length (elements (tempMatrix r)))
      by (rewrite Hel; apply length_map).
    rewrite calculateOutdegree_spec; [|rewrite Hel, Forall_map|exact Hj].
    - rewrite Hel. f_equal. unfold d, outdegree.
      clear. induction edges as [|e edges IH]; [reflexivity|].
      cbn [map]. rewrite !filter_cons. cbn [edgeElement rowIndex].
      destruct (decide (e.1 = j)); cbn [length]; rewrite IH; reflexivity.
    - eapply Forall_impl; [exact Hmax|]. intros e (He & _). cbn. lia. }
  fold d. rewrite Hdeg. reflexivity.
Qed.

(** C9, as the source has it. For every edge list, in the matrix stored
    after the construction (entries weighted by [1/out-degree] of the
    source page, then transposed, then compressed) the column of page
    [j] holds exactly [outdegree j] entries, each equal to
    [1. / outdegree j]. For a page with at least one out-link (and an
    out-degree below [2^53], which every [int] is) the exact sum of the
    entries of its column is within [2^-53] of one: the entries of a
    column, not those of a row, are the ones that add up to one up to
    rounding. *)
Theorem stored_matrix_columns_normalized edges p j :
  let M := (generateNormalizedTransitionMatrix edges p).1 in
  let d := outdegree edges j in
  columnValues M j = replicate d (one / of_int (Z.of_nat d))%D
  /\ (1 <= d -> (Z.of_nat d < 2 ^ 53)%Z ->
      exists sum,
        exactSum (columnValues M j) = Some sum
        /\ (Qabs (sum - 1) <= 2 ^ (-53))%Q).
Proof.
  intros M d.
  assert (Hcolumn : columnValues M j
                    = replicate d (one / of_int (Z.of_nat d))%D).
  { exact (stored_column_entries edges p j). }
  split; [exact Hcolumn|].
  intros Hd Hint. rewrite Hcolumn.
  destruct (div_one_of_int (Z.of_nat d)) as (m & e & Hdiv & He & Hbound);
    [lia|].
  destruct (exactSum_replicate (one / of_int (Z.of_nat d))%D
              (inject_Z (Zpos m) * 2 ^ e)%Q d) as (sum & Hsum & Heq).
  { rewrite Hdiv. reflexivity. }
  exists sum. split; [exact Hsum|].
  rewrite Heq. apply near_one; assumption.
Qed.

End Construction.

(** * Concrete runs: evaluations and instances *)

Example singleEdge_vector_uniform : singleEdge_vector = [half; half].
Proof. vm_compute. reflexivity. Qed.

(** C1 fails on the code. With [maxIterations = 1] the solver completes
    one iteration and returns [1]; the copy of [parameters] in its own
    frame has [realIterations = 1], but the record of the caller, passed
    by value, still has the [0] that [initialize] stored. *)
Theorem realIterations_not_visible_to_caller :
  match @run spec_runtime 1 singleEdge (exampleParameters 1 tolerance_1e6) with
  | Some c =>
      caller_iterations c = 1%Z
      /\ realIterations (caller_parameters c) = 0%Z
  | None => False
  end
  /\ match @pagerank spec_runtime 1 singleEdge_matrix singleEdge_vector
             singleEdge_parameters [] with
     | Some s => iterations s = 1%Z /\ realIterations (parameters s) = 1%Z
     | None => False
     end.
Proof. vm_compute. repeat split; reflexivity. Qed.

(** C3 fails on the code. On the single edge the first check does not
    compare the uniform vector with itself: that distance is [0], below
    the tolerance, and would declare convergence; the [delta] the code
    computes at [t = 0] is another number and the status stays false. *)
Lemma first_check_not_uniform_against_itself :
  let s' := @pagerank_iteration spec_runtime
              (@pagerank_init spec_runtime singleEdge_matrix singleEdge_vector
                 singleEdge_parameters []) in
  let selfDistance :=
    vectorNorm (zip_with sub singleEdge_vector singleEdge_vector) 2 in
  singleEdge_vector = [half; half]
  /\ selfDistance = zero
  /\ (selfDistance <? convergenceCriterion singleEdge_parameters)%D = true
  /\ delta s' <> selfDistance
  /\ convergenceStatus s' = false.
Proof.
  vm_compute. repeat split; try reflexivity. discriminate.
Qed.

(** C9 fails on the code. For the edges [0 -> 1] and [0 -> 2] the stored
    rows are: nothing for page [0], one entry [0.5] for page [1], one
    entry [0.5] for page [2]. No row sums to one, even up to [0.25]. *)
Lemma stored_rows_not_normalized :
  let M := (@generateNormalizedTransitionMatrix spec_runtime fork
              (exampleParameters 0 tolerance_1e6)).1 in
  rowValues M 0 = []
  /\ rowValues M 1 = [half]
  /\ rowValues M 2 = [half]
  /\ closeTo quarter (sumOf (rowValues M 0)) one = false
  /\ closeTo quarter (sumOf (rowValues M 1)) one = false
  /\ closeTo quarter (sumOf (rowValues M 2)) one = false.
Proof.
  vm_compute. repeat split; reflexivity.
Qed.

(** ** Instances of the theorems *)

(** C4 on the single edge with [maxIterations = 1]. *)
Lemma pagerank_loop_continues_while_witness :
  maxIterations singleEdge_parameters = 1%Z
  /\ 1 <= 1
  /\ exists s,
       @pagerank spec_runtime 1 singleEdge_matrix singleEdge_vector
         singleEdge_parameters [] = Some s
       /\ s = @pagerank_exit
                (@frameAt spec_runtime singleEdge_matrix singleEdge_vector
                   singleEdge_parameters [] 1)
       /\ iterations s = 1%Z
       /\ forall status it,
            exists c',
              @call_pagerank spec_runtime 1
                (mkCaller singleEdge_matrix singleEdge_vector status
                   singleEdge_parameters it []) = Some c'
              /\ caller_iterations c' = 1%Z.
Proof.
  split; [reflexivity|]. split; [lia|].
  apply (proj2 (@pagerank_loop_continues_while spec_runtime singleEdge_matrix
                  singleEdge_vector singleEdge_parameters [] 1));
    [reflexivity | lia].
Defined.

(** C9 on the star: page [0] has three out-links, each weighted
    [1. / 3]; the three entries of its column add up to [1 - 2^-54]. *)
Lemma stored_matrix_columns_normalized_witness :
  let M := (@generateNormalizedTransitionMatrix spec_runtime star
              (exampleParameters 0 tolerance_1e6)).1 in
  (1 <= outdegree star 0 /\ (Z.of_nat (outdegree star 0) < 2 ^ 53)%Z)
  /\ option_map Qred (exactSum (columnValues M 0))
     = Some (Qred (1 - 2 ^ (-54)))
  /\ exists sum,
       exactSum (columnValues M 0) = Some sum
       /\ (Qabs (sum - 1) <= 2 ^ (-53))%Q.
Proof.
  intros M.
  assert (Hd : 1 <= outdegree star 0) by (vm_compute; lia).
  assert (Hint : (Z.of_nat (outdegree star 0) < 2 ^ 53)%Z) by (vm_compute; reflexivity).
  split; [split; assumption|].
  split; [vm_compute; reflexivity|].
  exact (proj2 (@stored_matrix_columns_normalized spec_runtime star
                  (exampleParameters 0 tolerance_1e6) 0) Hd Hint).
Defined.

(** C2 at the first iteration on the cycle, page [0]. *)
Lemma next_rank_formula_witness :
  let s := @pagerank_init spec_runtime cycle_matrix cycle_vector
             cycle_parameters [] in
  let n := numberOfPages (parameters s) in
  let d := dampingFactor (parameters s) in
  let previous := memcpy (previousPagerankVector s) (pagerankVector s) n in
  let raw := SparseMatrix.csrSparseMatrixVectorMultiplication
               (transitionMatrix s) previous (pagerankVector s) n in
  let scaled := map (mul d) raw in
  let normDifference := (L1Norm previous n - L1Norm scaled n)%D in
  (length (previousPagerankVector s) <= n /\ 0 < n /\ 0 < length raw)
  /\ previousPagerankVector (@pagerank_iteration spec_runtime s) = previous
  /\ (forall j, j < n -> previous !!! j = pagerankVector s !!! j)
  /\ scaled !!! 0 = (d * (raw !!! 0))%D
  /\ pagerankVector (@pagerank_iteration spec_runtime s) !!! 0 =
     (d * (raw !!! 0)
      + (half * normDifference * (one / of_int (Z.of_nat n))
         + (linksFromConvergedPagesPagerankVector s !!! 0)
         + (convergedPagerankVector s !!! 0)))%D.
Proof.
  intros s n d previous raw scaled normDifference.
  assert (Hlen : length (previousPagerankVector s) <= n) by (vm_compute; lia).
  assert (Hn : 0 < n) by (vm_compute; lia).
  assert (Hraw : 0 < length raw) by (vm_compute; lia).
  split; [repeat split; assumption|].
  exact (@next_rank_formula spec_runtime s 0 Hlen Hn Hraw).
Defined.

(** C5 at iteration [3] of the run on the cycle, which is executed. *)
Lemma global_convergence_check_witness :
  let s := @frameAt spec_runtime cycle_matrix cycle_vector cycle_parameters [] 3 in
  let s' := @pagerank_iteration spec_runtime s in
  @executes spec_runtime cycle_matrix cycle_vector cycle_parameters [] 3 = true
  /\ (forall i, i < 3 ->
        previousPagerankVector s' !!! i = pagerankVector s !!! i)
  /\ (forall i, i < 3 ->
        pagerankDifference s' !!! i =
        ((pagerankVector s' !!! i) - (previousPagerankVector s' !!! i))%D)
  /\ delta s' = L1Norm (pagerankDifference s') 3
  /\ delta s' = L1Distance (pagerankVector s') (pagerankVector s) 3
  /\ (convergenceStatus s' = true <->
      (delta s' <? convergenceCriterion cycle_parameters)%D = true).
Proof.
  intros s s'.
  assert (Hexec : @executes spec_runtime cycle_matrix cycle_vector
                    cycle_parameters [] 3 = true)
    by (vm_compute; reflexivity).
  split; [exact Hexec|].
  exact (proj1 (@global_convergence_check spec_runtime cycle_matrix cycle_vector
                  cycle_parameters [] 3 Hexec) eq_refl).
Defined.

(** C6 on the cycle with tolerance [0.5] and ranks of [100]: iteration
    [3] is executed (the global [delta] stays above the tolerance) and
    marks page [0]; iteration [1] marks nothing. *)
Lemma page_convergence_marking_witness :
  let s := @frameAt spec_runtime cycle_matrix heavy_vector loose_parameters [] 3 in
  let s' := @pagerank_iteration spec_runtime s in
  let s1 := @frameAt spec_runtime cycle_matrix heavy_vector loose_parameters [] 1 in
  (0 < numberOfPages loose_parameters
   /\ (0 < 3 /\ 3 mod 3 = 0)
   /\ convergenceMatrix s !!! 0 = false
   /\ (relativeChange s' 0 <? convergenceCriterion loose_parameters)%D = true
   /\ ~ (0 < 1 /\ 1 mod 3 = 0))
  /\ @executes spec_runtime cycle_matrix heavy_vector loose_parameters [] 3 = true
  /\ (convergenceMatrix s' !!! 0 = true
      /\ convergedPagerankVector s' !!! 0 = pagerankVector s' !!! 0)
  /\ convergenceMatrix (@pagerank_iteration spec_runtime s1) = convergenceMatrix s1.
Proof.
  intros s s' s1.
  assert (Hi : 0 < numberOfPages loose_parameters) by (vm_compute; lia).
  assert (Hround : 0 < 3 /\ 3 mod 3 = 0) by (split; [lia | reflexivity]).
  assert (Hflag : convergenceMatrix s !!! 0 = false) by (vm_compute; reflexivity).
  assert (Htest : (relativeChange s' 0 <? convergenceCriterion loose_parameters)%D
                  = true) by (vm_compute; reflexivity).
  assert (Hother : ~ (0 < 1 /\ 1 mod 3 = 0)) by (intros (_ & H); discriminate H).
  split; [repeat split; assumption || lia|].
  split; [vm_compute; reflexivity|].
  split.
  - exact (proj1 (proj1 (@page_convergence_marking spec_runtime cycle_matrix
                           heavy_vector loose_parameters [] 3 0 Hi)
                    Hround Hflag) Htest).
  - exact (proj2 (@page_convergence_marking spec_runtime cycle_matrix
                    heavy_vector loose_parameters [] 1 0 Hi) Hother).
Defined.

(** C7 on the cycle started from three zero ranks: at iteration [3] the
    previous rank of page [0] is zero and the page is not marked. *)
Lemma zero_previous_rank_not_converged_witness :
  let s := @frameAt spec_runtime cycle_matrix zero_vector loose_parameters [] 3 in
  let s' := @pagerank_iteration spec_runtime s in
  (0 < numberOfPages loose_parameters
   /\ (previousPagerankVector s' !!! 0 =? zero)%D = true
   /\ convergenceMatrix s !!! 0 = false)
  /\ (relativeChange s' 0 <? convergenceCriterion loose_parameters)%D = false
  /\ convergenceMatrix s' !!! 0 = false
  /\ convergedPagerankVector s' !!! 0 = zero
  /\ is_nan (convergedPagerankVector s' !!! 0) = false
  /\ is_inf (convergedPagerankVector s' !!! 0) = false.
Proof.
  intros s s'.
  assert (Hi : 0 < numberOfPages loose_parameters) by (vm_compute; lia).
  assert (Hzero : (previousPagerankVector s' !!! 0 =? zero)%D = true)
    by (vm_compute; reflexivity).
  assert (Hflag : convergenceMatrix s !!! 0 = false) by (vm_compute; reflexivity).
  split; [repeat split; assumption|].
  destruct (@zero_previous_rank_not_converged spec_runtime cycle_matrix
              zero_vector loose_parameters [] 3 0 Hi Hzero)
    as (Htest & _ & _ & Hrest).
  split; [exact Htest|]. exact (Hrest Hflag).
Defined.

(** C8 on the same run as C6: page [0], marked by iteration [3], is
    still marked at iteration [7], with the same snapshot. *)
Lemma convergence_state_monotone_witness :
  let frame := @frameAt spec_runtime cycle_matrix heavy_vector loose_parameters [] in
  (0 < numberOfPages loose_parameters
   /\ 4 <= 7
   /\ convergenceMatrix (frame 4) !!! 0 = true)
  /\ convergenceMatrix (frame 7) !!! 0 = true
  /\ convergedPagerankVector (frame 7) !!! 0
     = convergedPagerankVector (frame 4) !!! 0.
Proof.
  intros frame.
  assert (Hi : 0 < numberOfPages loose_parameters) by (vm_compute; lia).
  assert (Hle : 4 <= 7) by lia.
  assert (Hflag : convergenceMatrix (frame 4) !!! 0 = true)
    by (vm_compute; reflexivity).
  split; [repeat split; assumption|].
  exact (proj1 (@convergence_state_monotone spec_runtime cycle_matrix heavy_vector
                  loose_parameters [] 4 7 0 Hi Hle) Hflag).
Defined.

(** C10 on the graph [0 -> 1], [1 -> 0], [1 -> 2]: iteration [6] is an
    executed sparsification round. *)
Lemma correction_edges_after_flags_witness :
  let s := @frameAt spec_runtime hub_matrix hub_vector hub_parameters [] 6 in
  let s' := @pagerank_iteration spec_runtime s in
  let between := @pagesMarked spec_runtime (@checked spec_runtime s) in
  (0 < 6 /\ 6 mod 3 = 0)
  /\ @executes spec_runtime hub_matrix hub_vector hub_parameters [] 6 = true
  /\ convergenceMatrix between = convergenceMatrix s'
  /\ linksFromConvergedPages between = linksFromConvergedPages s
  /\ exists added,
       elements (linksFromConvergedPages s')
       = elements (linksFromConvergedPages s) ++ added
       /\ Forall (fun e =>
                    (convergenceMatrix s !!! rowIndex e = false
                     /\ convergenceMatrix s' !!! rowIndex e = true)
                    /\ convergenceMatrix s' !!! columnIndex e = false) added.
Proof.
  intros s s' between.
  assert (Hpos : 0 < 6) by lia.
  assert (Hmod : 6 mod 3 = 0) by reflexivity.
  split; [split; assumption|].
  split; [vm_compute; reflexivity|].
  exact (@correction_edges_after_flags spec_runtime hub_matrix hub_vector
           hub_parameters [] 6 Hpos Hmod).
Defined.

(** In that round pages [0] and [2] converge and page [1] does not: the
    two stored entries that reach the converged pages from page [1] are
    copied, and nothing else. *)
Example correction_edges_of_the_hub :
  let s := @frameAt spec_runtime hub_matrix hub_vector hub_parameters [] 6 in
  let s' := @pagerank_iteration spec_runtime s in
  convergenceMatrix s = [false; false; false]
  /\ convergenceMatrix s' = [true; false; true]
  /\ elements (linksFromConvergedPages s) = []
  /\ elements (linksFromConvergedPages s')
     = [mkElement half 0 1; mkElement half 2 1].
Proof. vm_compute. repeat split; reflexivity. Qed.

(** * More of the source: properties *)

(** ** Signs *)

Lemma binary_round_aux_sign_clear (m e : Z) (l : location) :
  sign_clear (binary_round_aux prec emax false m e l) = true.
Proof.
  unfold binary_round_aux.
  destruct (shr_fexp prec emax m e l) as [mrs e'].
  destruct (shr_fexp prec emax _ e' loc_Exact) as [mrs' e''].
  destruct (shr_m mrs'); [reflexivity | | reflexivity].
  destruct (Z.leb _ _); reflexivity.
Qed.

Lemma binary_normalize_sign_clear (m : positive) (e : Z) :
  sign_clear (binary_normalize prec emax (Zpos m) e false) = true.
Proof.
  unfold binary_normalize, binary_round.
  destruct (shl_align _ _ _) as [mz ez]. apply binary_round_aux_sign_clear.
Qed.

Lemma add_sign_clear (x y : double) :
  sign_clear x = true -> sign_clear y = true -> sign_clear (x + y)%D = true.
Proof.
  destruct x as [[]|[]| |[] mx ex], y as [[]|[]| |[] my ey];
    cbn; try discriminate; try reflexivity.
  intros _ _. apply binary_normalize_sign_clear.
Qed.

Lemma fabs_sign_clear (x : double) : sign_clear (fabs x) = true.
Proof. destruct x; reflexivity. Qed.

Lemma div_fabs_sign_clear (x y : double) :
  sign_clear (fabs x / fabs y)%D = true.
Proof.
  destruct x as [sx|sx| |sx mx ex], y as [sy|sy| |sy my ey]; try reflexivity.
  cbn. destruct (SFdiv_core_binary _ _ _ _ _ _) as [[mz ez] lz].
  apply binary_round_aux_sign_clear.
Qed.

(** A value whose sign is clear is below no tolerance that is zero,
    negative or NaN. *)
Lemma sign_clear_not_below (x tol : double) :
  sign_clear x = true -> (zero <? tol)%D = false -> (x <? tol)%D = false.
Proof.
  destruct x as [[]|[]| |[] mx ex], tol as [[]|[]| |[] mt et];
    cbn; try discriminate; try reflexivity.
Qed.

(** ** [vectorNorm] *)

Lemma vectorNorm_sign_clear (v : list double) (n : nat) :
  sign_clear (vectorNorm v n) = true.
Proof.
  unfold vectorNorm. induction n as [|n IH]; [reflexivity|].
  rewrite for_loop_S. apply add_sign_clear; [exact IH | apply fabs_sign_clear].
Qed.

(** X1. [vectorNorm] never returns a negative number: the sign of its
    result is clear, so the result is below neither zero nor any
    tolerance that is zero, negative or NaN. *)
Theorem vectorNorm_never_negative (v : list double) (n : nat) (tol : double) :
  sign_clear (vectorNorm v n) = true
  /\ (vectorNorm v n <? zero)%D = false
  /\ ((zero <? tol)%D = false -> (vectorNorm v n <? tol)%D = false).
Proof.
  pose proof (vectorNorm_sign_clear v n) as Hsign.
  split; [exact Hsign|]. split.
  - apply sign_clear_not_below; [exact Hsign | reflexivity].
  - intros Htol. apply sign_clear_not_below; assumption.
Qed.

Lemma vectorNorm_never_negative_witness :
  (zero <? S754_nan)%D = false
  /\ (vectorNorm [of_int (-3); of_int 4] 2 <? S754_nan)%D = false.
Proof.
  split; [reflexivity|].
  exact (proj2 (proj2 (vectorNorm_never_negative [of_int (-3); of_int 4] 2
                         S754_nan)) eq_refl).
Defined.

Lemma add_nan_l (x y : double) : is_nan x = true -> is_nan (x + y)%D = true.
Proof. destruct x; try discriminate. destruct y; reflexivity. Qed.

Lemma add_nan_r (x y : double) : is_nan y = true -> is_nan (x + y)%D = true.
Proof.
  destruct y; try discriminate. destruct x as [[]|[]| |[] m e]; reflexivity.
Qed.

Lemma fabs_nan (x : double) : is_nan (fabs x) = is_nan x.
Proof. destruct x; reflexivity. Qed.

(** X2. A NaN among the first [vectorSize] cells makes the norm NaN. *)
Theorem vectorNorm_propagates_nan (v : list double) (n i : nat) :
  i < n -> is_nan (v !!! i) = true -> is_nan (vectorNorm v n) = true.
Proof.
  intros Hi Hnan. unfold vectorNorm. induction n as [|n IH]; [lia|].
  rewrite for_loop_S. cbv beta. destruct (decide (i = n)) as [Heq|Hne].
  - apply add_nan_r. rewrite fabs_nan, <- Heq. exact Hnan.
  - apply add_nan_l, IH. lia.
Qed.

Lemma vectorNorm_propagates_nan_witness :
  (1 < 3 /\ is_nan ([one; S754_nan; one] !!! 1) = true)
  /\ is_nan (vectorNorm [one; S754_nan; one] 3) = true.
Proof.
  assert (Hi : 1 < 3) by lia.
  assert (Hnan : is_nan ([one; S754_nan; one] !!! 1) = true) by reflexivity.
  split; [split; assumption|].
  exact (vectorNorm_propagates_nan [one; S754_nan; one] 3 1 Hi Hnan).
Defined.

(** ** Runs of [pagerank] *)

(** The first index from [1] at which a test fails. *)
Lemma first_failure (f : nat -> bool) (m : nat) :
  1 <= m -> f m = false ->
  exists k, 1 <= k <= m /\ f k = false /\ forall j, 1 <= j < k -> f j = true.
Proof.
  intros Hm Hf.
  assert (Hsearch : forall b,
             (exists k, 1 <= k <= b /\ f k = false
                        /\ forall j, 1 <= j < k -> f j = true)
             \/ (forall j, 1 <= j <= b -> f j = true)).
  { induction b as [|b [(k & Hk & Hfk & Hleast) | Hall]].
    - right. intros j Hj. lia.
    - left. exists k. repeat split; try assumption; lia.
    - destruct (f (S b)) eqn:Hb.
      + right. intros j Hj. destruct (decide (j = S b)) as [->|Hne];
          [exact Hb | apply Hall; lia].
      + left. exists (S b). repeat split; try assumption; try lia.
        intros j Hj. apply Hall. lia. }
  destruct (Hsearch m) as [Hfound | Hall]; [exact Hfound|].
  rewrite Hall in Hf by lia. discriminate.
Qed.

Section Run.

Context {R : Runtime}.

Lemma pagerank_exit_convergenceStatus s :
  convergenceStatus (pagerank_exit s) = convergenceStatus s.
Proof.
  unfold pagerank_exit. cbn. destruct (negb _); reflexivity.
Qed.

Lemma pagerank_exit_delta s : delta (pagerank_exit s) = delta s.
Proof.
  unfold pagerank_exit. cbn. destruct (negb _); reflexivity.
Qed.

Lemma pagerank_exit_pagerankVector s :
  pagerankVector (pagerank_exit s) = pagerankVector s.
Proof.
  unfold pagerank_exit. cbn. destruct (negb _); reflexivity.
Qed.

(** How a call returns: after some [k >= 1] iterations, the first count
    at which the condition fails. *)
Lemma pagerank_returns fuel M v p file s :
  pagerank fuel M v p file = Some s <->
  exists k, 1 <= k <= fuel
    /\ s = pagerank_exit (frameAt M v p file k)
    /\ continues M v p file k = false
    /\ forall j, 1 <= j < k -> continues M v p file j = true.
Proof.
  rewrite pagerank_unfold. split.
  - destruct (pagerank_loop fuel (pagerank_init M v p file)) as [s0|] eqn:Hloop;
      [|discriminate].
    intros [= <-]. apply pagerank_loop_frameAt in Hloop as (k & Hk & -> & Hrest).
    exists k. split; [exact Hk|]. split; [reflexivity | exact Hrest].
  - intros (k & Hk & -> & Hrest).
    assert (Hloop : pagerank_loop fuel (pagerank_init M v p file)
                    = Some (frameAt M v p file k)).
    { apply pagerank_loop_frameAt. exists k. split; [exact Hk|].
      split; [reflexivity | exact Hrest]. }
    rewrite Hloop. reflexivity.
Qed.

(** The status and [delta] an iteration leaves. *)
Lemma pagerank_iteration_status s :
  let s' := pagerank_iteration s in
  if checkRound (afterUpdate s)
  then delta s' = vectorNorm (pagerankDifference s') (numberOfPages (parameters s))
       /\ convergenceStatus s' =
          convergenceStatus s || (delta s' <? convergenceCriterion (parameters s))%D
  else delta s' = delta s /\ convergenceStatus s' = convergenceStatus s.
Proof.
  intros s'.
  destruct (pagerank_iteration_fields s)
    as (_ & _ & _ & _ & Hd & Hdelta & Hst & _).
  fold s' in Hd, Hdelta, Hst.
  pose proof (afterUpdate_kept s) as Hu. unfold keptByUpdate in Hu.
  assert (Hp : parameters (afterUpdate s) = parameters s) by congruence.
  destruct (checkRound (afterUpdate s)) eqn:Hround.
  - destruct (checkConvergence_check (afterUpdate s) Hround)
      as (_ & _ & _ & Hnorm & Hnew).
    fold (checked s) in Hnorm, Hnew. rewrite Hp in Hnorm, Hnew.
    rewrite Hd, Hdelta, Hst. split; [exact Hnorm|].
    rewrite Hnew. f_equal. congruence.
  - rewrite Hdelta, Hst. unfold checked.
    rewrite checkConvergence_skip by exact Hround. split; congruence.
Qed.

Lemma continues_at_cap M v p file :
  (1 <= maxIterations p)%Z ->
  continues M v p file (Z.to_nat (maxIterations p)) = false.
Proof.
  intros Hm. rewrite continues_unfold, Z2Nat.id by lia.
  rewrite Z.ltb_irrefl. replace (maxIterations p =? 0)%Z with false
    by (symmetry; apply Z.eqb_neq; lia).
  apply andb_false_r.
Qed.

(** X3. With an iteration cap [maxIterations >= 1] and enough fuel the
    solver returns, after at least one and at most [maxIterations]
    iterations; if it returns without declaring convergence it has run
    exactly [maxIterations] iterations. *)
Theorem pagerank_terminates_within_cap M v p file fuel :
  (1 <= maxIterations p)%Z ->
  (maxIterations p <= Z.of_nat fuel)%Z ->
  exists s,
    pagerank fuel M v p file = Some s
    /\ (1 <= iterations s <= maxIterations p)%Z
    /\ (convergenceStatus s = false -> iterations s = maxIterations p).
Proof.
  intros Hm Hfuel.
  destruct (first_failure (continues M v p file) (Z.to_nat (maxIterations p)))
    as (k & Hk & Hstop & Hgo); [lia | apply continues_at_cap, Hm |].
  exists (pagerank_exit (frameAt M v p file k)).
  split.
  - apply pagerank_returns. exists k. split; [lia|].
    split; [reflexivity|]. split; assumption.
  - rewrite pagerank_exit_iterations, pagerank_exit_convergenceStatus,
      frameAt_iterations.
    split; [lia|]. intros Hstatus.
    rewrite continues_unfold, Hstatus in Hstop. cbn [negb andb] in Hstop.
    apply orb_false_iff in Hstop as [_ Hlt]. apply Z.ltb_ge in Hlt. lia.
Qed.

(** X4. A negative [maxIterations] stops the solver after exactly one
    iteration, whatever the tolerance. *)
Theorem pagerank_negative_cap_runs_once M v p file fuel :
  (maxIterations p < 0)%Z -> 1 <= fuel ->
  pagerank fuel M v p file = Some (pagerank_exit (frameAt M v p file 1))
  /\ iterations (pagerank_exit (frameAt M v p file 1)) = 1%Z.
Proof.
  intros Hneg Hfuel. split.
  - apply pagerank_returns. exists 1. split; [lia|]. split; [reflexivity|].
    split; [|intros j Hj; lia].
    rewrite continues_unfold.
    replace (maxIterations p =? 0)%Z with false
      by (symmetry; apply Z.eqb_neq; lia).
    replace (Z.of_nat 1 <? maxIterations p)%Z with false
      by (symmetry; apply Z.ltb_ge; lia).
    apply andb_false_r.
  - rewrite pagerank_exit_iterations, frameAt_iterations. reflexivity.
Qed.

Lemma executes_of_continues M v p file k :
  (forall j, 1 <= j < S k -> continues M v p file j = true) ->
  executes M v p file k = true.
Proof.
  intros Hgo. rewrite executes_unfold. apply forallb_forall.
  intros j Hj. apply in_seq in Hj. apply Hgo. lia.
Qed.

Lemma succ_mod_3 (k : nat) : k mod 3 = 0 -> (Z.of_nat (S k) mod 3 = 1)%Z.
Proof.
  intros Hk. apply Nat.Div0.mod_divides in Hk as (q & ->).
  replace (Z.of_nat (S (3 * q))) with (1 + Z.of_nat q * 3)%Z by lia.
  rewrite Z.mod_add by lia. reflexivity.
Qed.

(** X5. Convergence is only ever declared by a check: when the solver
    returns with the status set, the number of completed iterations is
    [1] modulo [3] and the last [delta] is below the tolerance. *)
Theorem pagerank_converges_on_check_rounds M v p file fuel s :
  pagerank fuel M v p file = Some s ->
  convergenceStatus s = true ->
  (iterations s mod 3 = 1)%Z
  /\ (delta s <? convergenceCriterion p)%D = true.
Proof.
  intros Hrun Hstatus.
  apply pagerank_returns in Hrun as (k & Hk & -> & Hstop & Hgo).
  rewrite pagerank_exit_convergenceStatus in Hstatus.
  rewrite pagerank_exit_iterations, pagerank_exit_delta, frameAt_iterations.
  destruct k as [|k]; [lia|].
  rewrite frameAt_S in Hstatus |- *.
  pose proof (executes_status M v p file k (executes_of_continues _ _ _ _ _ Hgo))
    as Hbefore.
  pose proof (pagerank_iteration_status (frameAt M v p file k)) as Hit.
  cbv zeta in Hit.
  rewrite checkRound_frameAt, frameAt_parameters, Hbefore in Hit.
  destruct (Nat.eqb_spec (k mod 3) 0) as [Hmod|Hmod].
  - destruct Hit as (_ & Hnew). rewrite Hstatus in Hnew. cbn [orb] in Hnew.
    split; [apply succ_mod_3, Hmod | symmetry; exact Hnew].
  - destruct Hit as (_ & Hsame). congruence.
Qed.

(** ** A tolerance that is not positive *)

(** With a tolerance that is zero, negative or NaN no check ever
    succeeds: the status stays false and no page is ever marked. *)
Lemma frameAt_never_converges M v p file t :
  (zero <? convergenceCriterion p)%D = false ->
  convergenceStatus (frameAt M v p file t) = false
  /\ forall i, i < numberOfPages p ->
       convergenceMatrix (frameAt M v p file t) !!! i = false.
Proof.
  intros Htol. induction t as [|t (IHs & IHf)].
  - destruct (pagerank_init_initialised M v p file)
      as (Hf & _ & _ & _ & _ & Hc).
    rewrite frameAt_0. split.
    + injection Hf as _ _ Hs _ _ _ _. exact Hs.
    + intros i Hi. apply (Hc i Hi).
  - rewrite frameAt_S. split.
    + pose proof (pagerank_iteration_status (frameAt M v p file t)) as Hit.
      cbv zeta in Hit. rewrite frameAt_parameters, IHs in Hit.
      destruct (checkRound _); [|apply Hit].
      destruct Hit as (Hdelta & ->). rewrite Hdelta. cbn [orb].
      apply sign_clear_not_below; [apply vectorNorm_sign_clear | exact Htol].
    + intros i Hi.
      destruct (pagerank_iteration_page (frameAt M v p file t) i)
        as (_ & _ & -> & _).
      rewrite (IHf i Hi). cbn [orb]. unfold marksPage.
      rewrite frameAt_parameters.
      replace (relativeChange _ i <? convergenceCriterion p)%D with false;
        [apply andb_false_r|].
      symmetry. apply sign_clear_not_below; [|exact Htol].
      apply div_fabs_sign_clear.
Qed.

(** X6. With a tolerance that is zero, negative or NaN the solver never
    declares convergence and never marks a page; without an iteration cap
    ([maxIterations = 0]) it does not return, whatever the fuel. *)
Theorem pagerank_nonpositive_tolerance_never_returns M v p file :
  (zero <? convergenceCriterion p)%D = false ->
  (forall t, convergenceStatus (frameAt M v p file t) = false
             /\ forall i, i < numberOfPages p ->
                  convergenceMatrix (frameAt M v p file t) !!! i = false)
  /\ (maxIterations p = 0%Z -> forall fuel, pagerank fuel M v p file = None).
Proof.
  intros Htol. split; [intros t; apply frameAt_never_converges, Htol|].
  intros Hmax fuel.
  destruct (pagerank fuel M v p file) as [s|] eqn:Hrun; [|reflexivity].
  apply pagerank_returns in Hrun as (k & _ & _ & Hstop & _).
  rewrite continues_unfold, Hmax in Hstop.
  destruct (frameAt_never_converges M v p file k Htol) as (Hs & _).
  rewrite Hs in Hstop. discriminate Hstop.
Qed.

(** ** The sparsification state along a run *)

(** Outside the sparsification rounds an iteration leaves the correction
    vector alone as well. *)
Lemma pagerank_iteration_no_correction s :
  sparsityRound s = false ->
  linksFromConvergedPagesPagerankVector (pagerank_iteration s)
  = linksFromConvergedPagesPagerankVector s.
Proof.
  intros Hr. rewrite pagerank_iteration_phases. cbv zeta.
  fold (checked s).
  rewrite increaseSparsity_skip by (rewrite sparsityRound_checked; exact Hr).
  destruct (checked_kept s) as (Hc & Hu).
  unfold keptByCheck in Hc. unfold keptByUpdate in Hu.
  cbn [linksFromConvergedPagesPagerankVector set_iterations]. congruence.
Qed.

Lemma sparsityRound_before_3 M v p file t :
  t < 3 -> sparsityRound (frameAt M v p file t) = false.
Proof.
  intros Ht. rewrite sparsityRound_frameAt.
  destruct t as [|[|[|t]]]; try reflexivity. lia.
Qed.

(** X7. Nothing is sparsified during the first three iterations: at the
    start of iterations [0] to [3] every flag is false, every snapshot
    and every cell of the correction vector is zero, and the correction
    matrix is empty. *)
Theorem first_three_iterations_unsparsified M v p file t i :
  t <= 3 -> i < numberOfPages p ->
  let s := frameAt M v p file t in
  convergenceMatrix s !!! i = false
  /\ convergedPagerankVector s !!! i = zero
  /\ linksFromConvergedPagesPagerankVector s !!! i = zero
  /\ elements (linksFromConvergedPages s) = [].
Proof.
  intros Ht Hi. cbv zeta. induction t as [|t IH].
  - destruct (pagerank_init_initialised M v p file)
      as (Hf & _ & _ & _ & _ & Hc).
    rewrite frameAt_0. destruct (Hc i Hi) as (H1 & H2 & H3).
    repeat split; try assumption.
    injection Hf as _ _ _ _ _ Hl _. rewrite Hl. reflexivity.
  - destruct IH as (H1 & H2 & H3 & H4); [lia|].
    pose proof (sparsityRound_before_3 M v p file t ltac:(lia)) as Hr.
    rewrite frameAt_S.
    destruct (pagerank_iteration_no_marking _ Hr) as (-> & -> & ->).
    rewrite (pagerank_iteration_no_correction _ Hr).
    repeat split; assumption.
Qed.

(** What an iteration appends to the correction matrix, whatever the
    round: elements that start at a page it has just marked. *)
Lemma pagerank_iteration_correction p s :
  wellFormed p s ->
  exists added,
    elements (linksFromConvergedPages (pagerank_iteration s))
    = elements (linksFromConvergedPages s) ++ added
    /\ Forall (fun e =>
                 rowIndex e < numberOfPages p
                 /\ convergenceMatrix (pagerank_iteration s) !!! rowIndex e = true)
              added.
Proof.
  intros (Hp & _).
  destruct (sparsityRound s) eqn:Hr.
  - assert (Hround : sparsityRound (checked s) = true)
      by (rewrite sparsityRound_checked; exact Hr).
    destruct (checked_kept s) as (Hc & Hu).
    unfold keptByCheck in Hc. unfold keptByUpdate in Hu.
    assert (Hpc : parameters (checked s) = p) by congruence.
    destruct (pagerank_iteration_fields s)
      as (_ & _ & _ & _ & _ & _ & _ & Hcm & _ & Hl).
    destruct (increaseSparsity_correctionGrows (checked s) Hround)
      as (Hkept & added & Hadd & Hall).
    unfold keptByRemoval in Hkept.
    destruct (pagesMarked_marked (checked s)) as (Hro & _ & _ & _ & Hcells).
    unfold readOnly in Hro.
    assert (Hflags : convergenceMatrix (pagesMarked (checked s))
                     = convergenceMatrix (pagerank_iteration s)) by congruence.
    assert (Hlinks : linksFromConvergedPages (pagesMarked (checked s))
                     = linksFromConvergedPages s).
    { transitivity (linksFromConvergedPages (sparsityStart (checked s)));
        [congruence|].
      change (linksFromConvergedPages (sparsityStart (checked s)))
        with (linksFromConvergedPages (checked s)).
      congruence. }
    exists added. split; [congruence|].
    eapply Forall_impl; [exact Hall|].
    intros e (Hrow & Hnew & _). cbv beta. rewrite Hpc in Hrow.
    split; [exact Hrow|]. rewrite <- Hflags.
    destruct (Hcells (rowIndex e)) as (Hcme & _ & Hnewe).
    rewrite Hpc in Hcme, Hnewe.
    rewrite sparsityStart_newly_length, Hpc in Hnewe.
    specialize (Hnewe Hrow).
    apply Nat.ltb_lt in Hrow. rewrite Hrow in Hcme, Hnewe.
    rewrite Hnewe in Hnew. rewrite Hnew, orb_true_r in Hcme. exact Hcme.
  - destruct (pagerank_iteration_no_marking s Hr) as (_ & _ & ->).
    exists []. rewrite app_nil_r. split; [reflexivity | constructor].
Qed.

(** X8. The correction matrix only grows, and every element it holds
    starts at a converged page: its elements at iteration [t] are a
    prefix of its elements at any later iteration, and the row of each
    element is a page whose flag is set. *)
Theorem correction_matrix_grows M v p file t t' :
  t <= t' ->
  (exists added,
     elements (linksFromConvergedPages (frameAt M v p file t'))
     = elements (linksFromConvergedPages (frameAt M v p file t)) ++ added)
  /\ Forall (fun e =>
               rowIndex e < numberOfPages p
               /\ convergenceMatrix (frameAt M v p file t) !!! rowIndex e = true)
            (elements (linksFromConvergedPages (frameAt M v p file t))).
Proof.
  intros Hle. split.
  - induction Hle as [|m Hle (added & IH)].
    + exists []. rewrite app_nil_r. reflexivity.
    + rewrite frameAt_S.
      destruct (pagerank_iteration_correction p (frameAt M v p file m)
                  (frameAt_wellFormed M v p file m)) as (more & Hmore & _).
      exists (added ++ more). rewrite Hmore, IH, app_assoc. reflexivity.
  - clear Hle t'. induction t as [|t IH].
    + destruct (pagerank_init_initialised M v p file) as (Hf & _).
      rewrite frameAt_0. injection Hf as _ _ _ _ _ Hl _. rewrite Hl. constructor.
    + rewrite frameAt_S.
      pose proof (frameAt_wellFormed M v p file t) as Hwf.
      destruct (pagerank_iteration_correction p _ Hwf) as (more & -> & Hmore).
      apply Forall_app. split; [|exact Hmore].
      eapply Forall_impl; [exact IH|].
      intros e (Hrow & Hflag). cbv beta. split; [exact Hrow|].
      destruct Hwf as (_ & _ & Hlcv & _).
      apply pagerank_iteration_keeps_flag; [lia | exact Hflag].
Qed.

(** ** The output file *)

Lemma pagerank_iteration_outputFile s :
  outputFile (pagerank_iteration s) =
  if history (parameters s)
  then savePagerankToFile (outputFile s) (negb (iterations s =? 0)%Z)
         (pagerankVector (pagerank_iteration s)) (numberOfPages (parameters s))
         (realIterations (parameters s))
  else outputFile s.
Proof.
  destruct (pagerank_iteration_fields s) as (_ & _ & -> & _).
  rewrite pagerank_iteration_phases. cbv zeta. fold (checked s).
  pose proof (increaseSparsity_kept (checked s)) as Hs.
  destruct (checked_kept s) as (Hc & _).
  unfold keptBySparsity in Hs. unfold keptByCheck in Hc.
  cbn [outputFile set_iterations].
  transitivity (outputFile (afterUpdate s)); [congruence|].
  unfold afterUpdate. cbn. destruct (history (parameters s)); reflexivity.
Qed.

Lemma pagerank_exit_outputFile s :
  outputFile (pagerank_exit s) =
  if history (parameters s) then outputFile s
  else [take (numberOfPages (parameters s)) (pagerankVector s)].
Proof.
  unfold pagerank_exit. cbn. destruct (history (parameters s)); reflexivity.
Qed.

(** In history mode the file holds, after [k + 1] iterations, the
    vectors the iterations [1] to [k + 1] produced, in order. *)
Lemma history_file M v p file k :
  history p = true ->
  outputFile (frameAt M v p file (S k)) =
  map (fun j => take (numberOfPages p) (pagerankVector (frameAt M v p file j)))
      (seq 1 (S k)).
Proof.
  intros Hh. induction k as [|k IH].
  - cbn [seq map]. rewrite !(frameAt_S _ _ _ _ 0).
    rewrite pagerank_iteration_outputFile.
    rewrite frameAt_parameters, frameAt_iterations, Hh. reflexivity.
  - rewrite (seq_S (S k) 1), map_app. change (1 + S k) with (S (S k)).
    cbn [map]. rewrite <- IH. rewrite !(frameAt_S _ _ _ _ (S k)).
    rewrite pagerank_iteration_outputFile.
    rewrite frameAt_parameters, frameAt_iterations, Hh. reflexivity.
Qed.

(** X9. What the call leaves in the output file, whatever the file held
    before. In history mode: one line per completed iteration, the
    vector that iteration produced, in order. Otherwise: a single line,
    the final vector. *)
Theorem pagerank_output_file M v p file fuel s :
  pagerank fuel M v p file = Some s ->
  (history p = true ->
     exists k, iterations s = Z.of_nat k
       /\ outputFile s =
          map (fun j => take (numberOfPages p)
                          (pagerankVector (frameAt M v p file j)))
              (seq 1 k))
  /\ (history p = false ->
      outputFile s = [take (numberOfPages p) (pagerankVector s)]).
Proof.
  intros Hrun. apply pagerank_returns in Hrun as (k & Hk & -> & _).
  rewrite pagerank_exit_outputFile, pagerank_exit_iterations,
    pagerank_exit_pagerankVector, frameAt_parameters, frameAt_iterations.
  split; intros Hh; rewrite Hh.
  - exists k. split; [reflexivity|].
    destruct k as [|k]; [lia|]. apply history_file, Hh.
  - reflexivity.
Qed.

End Run.

(** ** Reading the graph *)

Lemma readEdge_maxPageIndex e r :
  maxPageIndex (readEdge e r) = Nat.max (maxPageIndex r) (Nat.max e.1 e.2).
Proof.
  unfold readEdge. cbn [maxPageIndex].
  destruct (Nat.ltb_spec (maxPageIndex r) (e.1)); nat_cases.
Qed.

Lemma readEdges_maxPageIndex_from edges r :
  maxPageIndex (fold_left (fun r e => readEdge e r) edges r)
  = Nat.max (maxPageIndex r) (maxEndpoint edges).
Proof.
  revert r. induction edges as [|e edges IH]; intros r.
  - cbn. lia.
  - cbn [fold_left maxEndpoint fold_right]. rewrite IH, readEdge_maxPageIndex.
    fold (maxEndpoint edges). lia.
Qed.

Lemma readEdges_maxPageIndex edges :
  maxPageIndex (readEdges edges) = maxEndpoint edges.
Proof.
  unfold readEdges. rewrite readEdges_maxPageIndex_from. reflexivity.
Qed.

Lemma scanEdges_pairs (pairs : list (nat * nat)) (rest : list ScanResult) r :
  scanEdges (length pairs)
            (map (fun e => ScanTwo e.1 e.2) pairs ++ rest) r
  = fold_left (fun r e => readEdge e r) pairs r.
Proof.
  revert r. induction pairs as [|[a b] pairs IH]; intros r; [reflexivity|].
  cbn [length map app scanEdges hd tl fold_left fst snd]. apply IH.
Qed.

Lemma scanEdges_eof (missing : nat) r :
  scanEdges missing [] r
  = fold_left (fun r e => readEdge e r) (replicate missing (0, 0)) r.
Proof.
  revert r. induction missing as [|missing IH]; intros r; [reflexivity|].
  cbn [scanEdges hd tl replicate fold_left]. apply IH.
Qed.

(** X10. When the file holds at least the announced number of edges, the
    reading loop builds exactly the reader of those edges, whatever
    follows them in the file. *)
Theorem scanEdges_reads_announced_edges (pairs : list (nat * nat))
    (rest : list ScanResult) :
  scanEdges (length pairs) (map (fun e => ScanTwo e.1 e.2) pairs ++ rest)
            (mkReader 0 SparseMatrix.initCooSparseMatrix)
  = readEdges pairs.
Proof. apply scanEdges_pairs. Qed.

Lemma scanEdges_split (k missing : nat) (graphFile : list ScanResult) r :
  Forall (fun x => x <> ScanNothing) (take k graphFile) ->
  k <= length graphFile ->
  scanEdges (k + missing) graphFile r
  = scanEdges missing (drop k graphFile) (scanEdges k graphFile r).
Proof.
  revert graphFile r. induction k as [|k IH]; intros graphFile r Hok Hlen;
    [reflexivity|].
  destruct graphFile as [|x graphFile]; [cbn in Hlen; lia|].
  cbn [take] in Hok. apply Forall_cons in Hok as (Hx & Hok).
  cbn [length] in Hlen.
  cbn [Nat.add scanEdges hd tl drop].
  destruct x; [| congruence | |]; apply IH; solve [assumption | lia].
Qed.

(** X11. A file that ends before the announced number of edges is not
    rejected: [fscanf] then returns [EOF], which is not [0], so the loop
    goes on and every missing edge is read as the edge [0 -> 0]. *)
Theorem scanEdges_pads_truncated_file (pairs : list (nat * nat)) (missing : nat) :
  scanEdges (length pairs + missing) (map (fun e => ScanTwo e.1 e.2) pairs)
            (mkReader 0 SparseMatrix.initCooSparseMatrix)
  = readEdges (pairs ++ replicate missing (0, 0)).
Proof.
  rewrite scanEdges_split.
  - rewrite drop_ge by (rewrite length_map; lia).
    rewrite scanEdges_eof.
    rewrite <- (app_nil_r (map _ pairs)) at 1. rewrite scanEdges_pairs.
    unfold readEdges. rewrite fold_left_app. reflexivity.
  - rewrite take_ge by (rewrite length_map; lia).
    apply Forall_map. apply Forall_forall. intros e _. discriminate.
  - rewrite length_map. lia.
Qed.

(** X12. The reading loop stores at most [numberOfEdges] elements, and
    exactly that many unless [fscanf] returns [0] on one of the first
    [numberOfEdges] calls. *)
Theorem scanEdges_size (numberOfEdges : nat) (graphFile : list ScanResult) r :
  coo_size (tempMatrix (scanEdges numberOfEdges graphFile r))
  <= coo_size (tempMatrix r) + numberOfEdges
  /\ ((forall i, i < numberOfEdges -> nth i graphFile ScanEOF <> ScanNothing) ->
      coo_size (tempMatrix (scanEdges numberOfEdges graphFile r))
      = coo_size (tempMatrix r) + numberOfEdges).
Proof.
  revert graphFile r. induction numberOfEdges as [|n IH]; intros graphFile r.
  - cbn. split; [lia | intros _; lia].
  - assert (Hstep : forall e,
              coo_size (tempMatrix (readEdge e r)) = S (coo_size (tempMatrix r))).
    { intros e. unfold readEdge, coo_size. cbn. rewrite length_app. cbn. lia. }
    cbn [scanEdges]. split.
    + destruct (hd ScanEOF graphFile);
        try (destruct (IH (tl graphFile) (readEdge (0, 0) r)) as (Hle & _);
             rewrite Hstep in Hle; lia);
        try match goal with
            | |- context [readEdge ?e r] =>
                destruct (IH (tl graphFile) (readEdge e r)) as (Hle & _);
                rewrite Hstep in Hle; lia
            end.
    + intros Hok.
      assert (Htail : forall i, i < n -> nth i (tl graphFile) ScanEOF <> ScanNothing).
      { intros i Hi. specialize (Hok (S i) ltac:(lia)).
        destruct graphFile as [|x l]; [destruct i; exact Hok | exact Hok]. }
      assert (Hhd : hd ScanEOF graphFile <> ScanNothing).
      { specialize (Hok 0 ltac:(lia)). destruct graphFile; exact Hok. }
      destruct (hd ScanEOF graphFile); try congruence;
        match goal with
        | |- context [readEdge ?e r] =>
            destruct (IH (tl graphFile) (readEdge e r)) as (_ & Heq);
            rewrite (Heq Htail), Hstep; lia
        end.
Qed.

Section Ingest.

Context {R : Runtime}.

Lemma outdegree_of_elements edges j :
  length (filter (fun e => rowIndex e = j) (map edgeElement edges))
  = outdegree edges j.
Proof.
  unfold outdegree. induction edges as [|e edges IH]; [reflexivity|].
  cbn [map]. rewrite !filter_cons. cbn [edgeElement rowIndex].
  destruct (decide (e.1 = j)); cbn [length]; rewrite IH; reflexivity.
Qed.

Lemma outdegree_positive edges e : e ∈ edges -> 1 <= outdegree edges e.1.
Proof.
  intros He. unfold outdegree.
  assert (Hin : e ∈ filter (fun x => x.1 = e.1) edges)
    by (apply list_elem_of_filter; split; [reflexivity | exact He]).
  destruct (filter _ edges); [inversion Hin | cbn; lia].
Qed.

(** X13. The weights. After the weighting loop every element of the
    temporary matrix still has the row and column of its edge and has
    the value [1. / d], where [d] is the number of edges leaving its
    source page; [d] is at least [1], so the loop never divides by
    zero. *)
Theorem transition_weights edges :
  let r := readEdges edges in
  let numberOfPages := maxPageIndex r + 1 in
  let pageOutdegree :=
    calculateOutdegree (tempMatrix r) (length edges) numberOfPages in
  elements (assignTransitionProbabilities (tempMatrix r) pageOutdegree)
  = map (fun e => mkElement (one / of_int (Z.of_nat (outdegree edges e.1)))%D
                            e.1 e.2) edges
  /\ Forall (fun e => 1 <= outdegree edges e.1) edges.
Proof.
  intros r numberOfPages pageOutdegree.
  destruct (readEdges_spec edges) as (Hel & Hmax). fold r in Hel, Hmax.
  split.
  - rewrite assignTransitionProbabilities_spec, Hel, map_map.
    apply map_ext_in. intros e He. apply list_elem_of_In in He.
    unfold weighted. cbn [edgeElement rowIndex columnIndex]. f_equal. f_equal.
    f_equal. unfold pageOutdegree.
    replace (length edges) with (length (elements (tempMatrix r)))
      by (rewrite Hel; apply length_map).
    rewrite Forall_forall in Hmax. specialize (Hmax e He).
    rewrite calculateOutdegree_spec.
    + rewrite Hel, outdegree_of_elements. reflexivity.
    + rewrite Hel, Forall_map. apply Forall_forall. intros x Hx.
      cbn. unfold numberOfPages.
      pose proof (readEdges_spec edges) as (_ & Hall).
      rewrite Forall_forall in Hall. specialize (Hall x Hx). fold r in Hall. lia.
    + unfold numberOfPages. lia.
  - apply Forall_forall. intros e He. apply outdegree_positive, He.
Qed.

(** X14. [initialize] returns a uniform vector: [numberOfPages] is one
    more than the largest page index of the edge list (so at least [1]),
    every edge stays below it, the vector has [numberOfPages] cells, each
    [1. / numberOfPages], and [realIterations] is reset to [0] while the
    options are left as they were. *)
Theorem initialize_uniform edges p :
  let p' := (initialize edges p).2 in
  let v := (initialize edges p).1.2 in
  let n := numberOfPages p' in
  n = maxEndpoint edges + 1
  /\ Forall (fun e => e.1 < n /\ e.2 < n) edges
  /\ v = replicate n (one / of_int (Z.of_nat n))%D
  /\ realIterations p' = 0%Z
  /\ (maxIterations p', convergenceCriterion p', dampingFactor p', verbose p',
      history p', outputFilename p', graphFilename p')
     = (maxIterations p, convergenceCriterion p, dampingFactor p, verbose p,
        history p, outputFilename p, graphFilename p).
Proof.
  intros p' v n.
  assert (Hn : n = maxEndpoint edges + 1).
  { subst n p'. unfold initialize, generateNormalizedTransitionMatrix.
    cbn [fst snd numberOfPages set_numberOfPages set_realIterations].
    rewrite readEdges_maxPageIndex. reflexivity. }
  split; [exact Hn|]. split.
  - destruct (readEdges_spec edges) as (_ & Hmax).
    rewrite readEdges_maxPageIndex in Hmax.
    eapply Forall_impl; [exact Hmax|]. intros e (H1 & H2). cbv beta. lia.
  - split; [|split; reflexivity].
    subst v. unfold initialize, generateNormalizedTransitionMatrix.
    cbn [fst snd numberOfPages set_numberOfPages set_realIterations].
    change (maxPageIndex (readEdges edges) + 1) with n.
    set (w := (one / of_int (Z.of_nat n))%D).
    destruct (for_loop_cells n (fun _ _ => w) (malloc n indeterminate_double))
      as (Hlen & Hcells).
    unfold malloc in Hlen, Hcells. rewrite length_replicate in Hlen, Hcells.
    apply list_eq_total.
    + rewrite length_replicate. exact Hlen.
    + intros i Hi. unfold malloc in Hi. rewrite Hlen in Hi.
      rewrite lookup_total_replicate_2 by exact Hi.
      unfold malloc. rewrite (Hcells i Hi).
      apply Nat.ltb_lt in Hi. rewrite Hi. reflexivity.
Qed.

End Ingest.

(** ** The command line *)

Section CommandLineProperties.

Context {L : Libc}.

Lemma parseArguments_unfold argv p :
  parseArguments argv p =
  if (length argv <? 2) || (10 <? length argv) then validUsage (argv !! 0)
  else parseLoop (S (length argv)) argv 1 (defaultParameters p).
Proof. reflexivity. Qed.

(** Case analysis on every test of one round of the loop. *)
Ltac parse_cases :=
  repeat match goal with
         | |- context [if ?b then _ else _] => destruct b eqn:?
         | |- context [match ?x with _ => _ end] => destruct x eqn:?
         | H : context [if ?b then _ else _] |- _ => destruct b eqn:?
         | H : context [match ?x with _ => _ end] |- _ => destruct x eqn:?
         end.

Lemma checkIncrement_in_loop i n name :
  i < n -> checkIncrement i n name = Returned (i + 1).
Proof.
  intros Hi. unfold checkIncrement.
  destruct (Nat.eqb_spec i n); [lia | reflexivity].
Qed.

(** One round of the loop, at an index inside the vector. *)
Lemma parseLoop_round fuel argv i p argument :
  argv !! i = Some argument ->
  parseLoop (S fuel) argv i p =
  if String.eqb argument ARGUMENT_CONVERGENCE_TOLERANCE then
    match argv !! (i + 1) with
    | None => Undefined
    | Some value =>
        if (strtod value =? zero)%D then Exited EXIT_FAILURE
        else parseLoop fuel argv (i + 1 + 1)
               (set_convergenceCriterion (strtod value) p)
    end
  else if String.eqb argument ARGUMENT_MAX_ITERATIONS then
    match argv !! (i + 1) with
    | None => Undefined
    | Some value =>
        if (to_size_t (strtol value) =? 0)%Z then Exited EXIT_FAILURE
        else parseLoop fuel argv (i + 1 + 1)
               (set_maxIterations (to_int (to_size_t (strtol value))) p)
    end
  else if String.eqb argument ARGUMENT_DAMPING_FACTOR then
    match argv !! (i + 1) with
    | None => Undefined
    | Some value =>
        if (strtod value =? zero)%D || (one <? strtod value)%D
        then Exited EXIT_FAILURE
        else parseLoop fuel argv (i + 1 + 1) (set_dampingFactor (strtod value) p)
    end
  else if String.eqb argument ARGUMENT_VERBAL_OUTPUT then
    parseLoop fuel argv (i + 1) (set_verbose true p)
  else if String.eqb argument ARGUMENT_OUTPUT_HISTORY then
    parseLoop fuel argv (i + 1) (set_history true p)
  else if String.eqb argument ARGUMENT_OUTPUT_FILENAME then
    match argv !! (i + 1) with
    | None => Undefined
    | Some name =>
        if negb (fopen_w name) then parseLoop fuel argv (i + 1) p
        else parseLoop fuel argv (i + 1 + 1) (set_outputFilename name p)
    end
  else if Nat.eqb i (length argv - 1) then
    parseLoop fuel argv (i + 1) (set_graphFilename argument p)
  else validUsage (argv !! 0).
Proof.
  intros Harg.
  assert (Hi : i < length argv) by (eapply lookup_lt_Some; exact Harg).
  cbn [parseLoop]. apply Nat.ltb_lt in Hi as Hlt. rewrite Hlt. cbn [negb].
  rewrite Harg, (checkIncrement_in_loop i (length argv) _ Hi). reflexivity.
Qed.

Lemma parseLoop_end fuel argv i p :
  length argv <= i -> parseLoop (S fuel) argv i p = Returned p.
Proof.
  intros Hi. cbn [parseLoop].
  destruct (Nat.ltb_spec i (length argv)); [lia | reflexivity].
Qed.

(** X15. [parseArguments] terminates: the loop advances at every round,
    also on the [continue] of an unwritable output file, so it ends by
    returning, by exiting or by undefined behaviour, never by running
    out of rounds. *)
Theorem parseArguments_terminates argv p :
  parseArguments argv p <> OutOfFuel.
Proof.
  assert (Hloop : forall fuel i q,
             length argv - i < fuel -> parseLoop fuel argv i q <> OutOfFuel).
  { induction fuel as [|fuel IH]; intros i q Hfuel; [lia|].
    destruct (argv !! i) as [argument|] eqn:Harg.
    - assert (Hi : i < length argv) by (eapply lookup_lt_Some; exact Harg).
      rewrite (parseLoop_round _ _ _ _ _ Harg).
      unfold validUsage.
      parse_cases; try discriminate; apply IH; lia.
    - apply lookup_ge_None in Harg.
      rewrite parseLoop_end by exact Harg. discriminate. }
  rewrite parseArguments_unfold. unfold validUsage.
  parse_cases; try discriminate. apply Hloop. lia.
Qed.

Lemma parseLoop_validated fuel argv i p p' :
  validated p ->
  parseLoop fuel argv i p = Returned p' ->
  validated p' /\ realIterations p' = realIterations p.
Proof.
  revert i p. induction fuel as [|fuel IH]; intros i p Hp Hret;
    [discriminate|].
  destruct (argv !! i) as [argument|] eqn:Harg.
  - rewrite (parseLoop_round _ _ _ _ _ Harg) in Hret.
    unfold validUsage in Hret. destruct Hp as (Hc & Hd0 & Hd1 & Hn).
    parse_cases; try discriminate;
      match goal with
      | H : parseLoop fuel argv _ ?q = Returned p' |- _ =>
          apply IH in H; [exact H|]
      end;
      unfold validated; cbn; repeat split; try assumption.
    all: match goal with
         | H : (_ || _) = false |- _ => apply orb_false_iff in H as [? ?]
         end; assumption.
  - apply lookup_ge_None in Harg. rewrite parseLoop_end in Hret by exact Harg.
    injection Hret as <-. split; [exact Hp | reflexivity].
Qed.

(** X16. Whenever [parseArguments] returns, the tolerance it returns is
    not zero, the damping factor is neither zero nor above one,
    [numberOfPages] is [0], and [realIterations] is what the caller's
    record held. (Nothing more is checked: a negative or NaN tolerance
    and a negative or NaN damping factor are returned as they are.) *)
Theorem parseArguments_validates argv p p' :
  parseArguments argv p = Returned p' ->
  validated p' /\ realIterations p' = realIterations p.
Proof.
  rewrite parseArguments_unfold. unfold validUsage.
  destruct (_ || _); [destruct (argv !! 0); discriminate|].
  intros Hret. apply parseLoop_validated in Hret; [exact Hret|].
  repeat split; reflexivity.
Qed.

Lemma isFlag_false s :
  isFlag s = false ->
  String.eqb s ARGUMENT_CONVERGENCE_TOLERANCE = false
  /\ String.eqb s ARGUMENT_MAX_ITERATIONS = false
  /\ String.eqb s ARGUMENT_DAMPING_FACTOR = false
  /\ String.eqb s ARGUMENT_VERBAL_OUTPUT = false
  /\ String.eqb s ARGUMENT_OUTPUT_HISTORY = false
  /\ String.eqb s ARGUMENT_OUTPUT_FILENAME = false.
Proof.
  unfold isFlag. intros H.
  repeat match goal with
         | H : (_ || _) = false |- _ => apply orb_false_iff in H as [H ?]
         end.
  repeat split; assumption.
Qed.

(** A round on an argument that is no option. *)
Lemma parseLoop_positional fuel argv i p argument :
  argv !! i = Some argument -> isFlag argument = false ->
  parseLoop (S fuel) argv i p =
  if Nat.eqb i (length argv - 1)
  then parseLoop fuel argv (i + 1) (set_graphFilename argument p)
  else validUsage (argv !! 0).
Proof.
  intros Harg Hflag. rewrite (parseLoop_round _ _ _ _ _ Harg).
  apply isFlag_false in Hflag as (-> & -> & -> & -> & -> & ->). reflexivity.
Qed.

(** X17. The graph file is recognised in the last position only: an
    argument that is no option and is not the last one ends the program
    with the usage message, and in the last position it becomes
    [graphFilename] and the record is returned. *)
Theorem parseLoop_graph_file_last fuel argv i p argument :
  argv !! i = Some argument -> isFlag argument = false ->
  (S i < length argv -> parseLoop (S fuel) argv i p = Exited EXIT_FAILURE)
  /\ (S i = length argv ->
      parseLoop (S (S fuel)) argv i p = Returned (set_graphFilename argument p)).
Proof.
  intros Harg Hflag.
  assert (Hi : i < length argv) by (eapply lookup_lt_Some; exact Harg).
  split; intros Hlast.
  - rewrite (parseLoop_positional _ _ _ _ _ Harg Hflag).
    destruct (Nat.eqb_spec i (length argv - 1)); [lia|].
    destruct argv as [|name argv]; [cbn in Hi; lia | reflexivity].
  - rewrite (parseLoop_positional _ _ _ _ _ Harg Hflag).
    destruct (Nat.eqb_spec i (length argv - 1)); [|lia].
    apply parseLoop_end. lia.
Qed.

(** X18. An option that reads a value, given as the last argument, is
    not reported as a usage error: inside the loop the index is below
    [argumentCount], so the guard of [checkIncrement] never holds, and
    the value is read through the null pointer [argv[argc]]. *)
Theorem parseLoop_value_option_last fuel argv i p option :
  argv !! i = Some option -> takesValue option = true ->
  S i = length argv ->
  checkIncrement i (length argv) (argv !! 0) = Returned (i + 1)
  /\ parseLoop (S fuel) argv i p = Undefined.
Proof.
  intros Harg Hopt Hlast.
  split; [apply checkIncrement_in_loop; lia|].
  rewrite (parseLoop_round _ _ _ _ _ Harg).
  assert (Hnull : argv !! (i + 1) = None) by (apply lookup_ge_None; lia).
  rewrite Hnull. unfold takesValue in Hopt.
  destruct (String.eqb option ARGUMENT_CONVERGENCE_TOLERANCE); [reflexivity|].
  destruct (String.eqb option ARGUMENT_MAX_ITERATIONS); [reflexivity|].
  destruct (String.eqb option ARGUMENT_DAMPING_FACTOR); [reflexivity|].
  cbn [orb] in Hopt. apply String.eqb_eq in Hopt. subst option. reflexivity.
Qed.

(** X19. An output file that cannot be opened does not simply revert to
    the default: the [continue] leaves the index on the file name, which
    is then parsed as an argument of its own. As the last argument it
    becomes the graph file; followed by anything it ends the program
    with the usage message. *)
Theorem parseArguments_unwritable_output program name p :
  fopen_w name = false -> isFlag name = false ->
  parseArguments [program; ARGUMENT_OUTPUT_FILENAME; name] p
  = Returned (set_graphFilename name (defaultParameters p))
  /\ forall graph,
       parseArguments [program; ARGUMENT_OUTPUT_FILENAME; name; graph] p
       = Exited EXIT_FAILURE.
Proof.
  intros Hopen Hflag.
  assert (Hround : forall fuel argv q,
             argv !! 1 = Some ARGUMENT_OUTPUT_FILENAME ->
             argv !! 2 = Some name ->
             parseLoop (S fuel) argv 1 q = parseLoop fuel argv 2 q).
  { intros fuel argv q H1 H2. rewrite (parseLoop_round _ _ _ _ _ H1).
    change (1 + 1) with 2. rewrite H2, Hopen. reflexivity. }
  split.
  - rewrite parseArguments_unfold.
    change (length [program; ARGUMENT_OUTPUT_FILENAME; name]) with 3.
    change ((3 <? 2) || (10 <? 3)) with false. cbv iota.
    rewrite Hround by reflexivity.
    rewrite (parseLoop_positional 2 [program; ARGUMENT_OUTPUT_FILENAME; name] 2
               (defaultParameters p) name eq_refl Hflag).
    change (2 =? length [program; ARGUMENT_OUTPUT_FILENAME; name] - 1) with true.
    cbv iota. apply parseLoop_end. cbn [length]. lia.
  - intros graph. rewrite parseArguments_unfold.
    change (length [program; ARGUMENT_OUTPUT_FILENAME; name; graph]) with 4.
    change ((4 <? 2) || (10 <? 4)) with false. cbv iota.
    rewrite Hround by reflexivity.
    rewrite (parseLoop_positional 3
               [program; ARGUMENT_OUTPUT_FILENAME; name; graph] 2
               (defaultParameters p) name eq_refl Hflag).
    reflexivity.
Qed.

End CommandLineProperties.

(** ** From the command line to the solver *)

Section EndToEnd.

Context {L : Libc} {R : Runtime}.

Lemma pagerank_unbounded_none M v p file fuel :
  (zero <? convergenceCriterion p)%D = false ->
  maxIterations p = 0%Z ->
  pagerank fuel M v p file = None.
Proof.
  intros Htol Hmax.
  destruct (pagerank fuel M v p file) as [s|] eqn:Hrun; [|reflexivity].
  apply pagerank_returns in Hrun as (k & _ & _ & Hstop & _).
  rewrite continues_unfold, Hmax in Hstop.
  destruct (frameAt_never_converges M v p file k Htol) as (Hs & _).
  rewrite Hs in Hstop. discriminate Hstop.
Qed.

Lemma run_unfold fuel edges p :
  run fuel edges p =
  call_pagerank fuel
    (mkCaller (initialize edges p).1.1 (initialize edges p).1.2
       indeterminate_bool (initialize edges p).2 indeterminate_int []).
Proof. reflexivity. Qed.

Lemma initialize_options edges p :
  maxIterations (initialize edges p).2 = maxIterations p
  /\ convergenceCriterion (initialize edges p).2 = convergenceCriterion p.
Proof. split; reflexivity. Qed.

(** X20. The validation of the tolerance and the solver do not fit
    together: [-c value] is accepted whenever [strtod value] is not zero,
    so a negative or NaN tolerance is returned with the default
    [maxIterations = 0], and with these parameters the solver never
    returns, whatever the graph. *)
Theorem unchecked_tolerance_never_returns program value graph p0 :
  isFlag graph = false ->
  (strtod value =? zero)%D = false ->
  (zero <? strtod value)%D = false ->
  exists p,
    parseArguments [program; ARGUMENT_CONVERGENCE_TOLERANCE; value; graph] p0
    = Returned p
    /\ convergenceCriterion p = strtod value
    /\ maxIterations p = 0%Z
    /\ graphFilename p = graph
    /\ forall edges fuel, run fuel edges p = None.
Proof.
  intros Hgraph Hnonzero Hneg.
  set (argv := [program; ARGUMENT_CONVERGENCE_TOLERANCE; value; graph]).
  exists (set_graphFilename graph
            (set_convergenceCriterion (strtod value) (defaultParameters p0))).
  split.
  - rewrite parseArguments_unfold.
    change (length argv) with 4.
    change ((4 <? 2) || (10 <? 4)) with false. cbv iota.
    rewrite (parseLoop_round 4 argv 1 _ ARGUMENT_CONVERGENCE_TOLERANCE eq_refl).
    change (String.eqb ARGUMENT_CONVERGENCE_TOLERANCE
              ARGUMENT_CONVERGENCE_TOLERANCE) with true. cbv iota.
    change (argv !! (1 + 1)) with (Some value). cbv iota.
    rewrite Hnonzero. change (1 + 1 + 1) with 3.
    rewrite (parseLoop_positional 3 argv 3 _ graph eq_refl Hgraph).
    change (3 =? length argv - 1) with true. cbv iota.
    apply parseLoop_end. cbn [length argv]. lia.
  - split; [reflexivity|]. split; [reflexivity|]. split; [reflexivity|].
    intros edges fuel. rewrite run_unfold, call_pagerank_unfold.
    rewrite pagerank_unbounded_none; [reflexivity | |].
    + destruct (initialize_options edges
                  (set_graphFilename graph
                     (set_convergenceCriterion (strtod value)
                        (defaultParameters p0)))) as (_ & ->).
      exact Hneg.
    + destruct (initialize_options edges
                  (set_graphFilename graph
                     (set_convergenceCriterion (strtod value)
                        (defaultParameters p0)))) as (-> & _).
      reflexivity.
Qed.

End EndToEnd.

(** ** The graph file *)

Lemma skipDelimiters_chars delimiters text :
  length (skipDelimiters delimiters text) <= length text
  /\ forall c, c ∈ skipDelimiters delimiters text -> c ∈ text.
Proof.
  induction text as [|c text (IHlen & IHin)]; [split; [reflexivity | tauto]|].
  cbn [skipDelimiters]. destruct (isDelimiter delimiters c).
  - split; [cbn [length]; lia|]. intros x Hx. right. apply IHin, Hx.
  - split; [lia | tauto].
Qed.

Lemma takeToken_chars delimiters text :
  length (takeToken delimiters text).2 <= length text
  /\ (forall c, c ∈ (takeToken delimiters text).1 -> c ∈ text)
  /\ (forall c, c ∈ (takeToken delimiters text).2 -> c ∈ text).
Proof.
  induction text as [|c text (IHlen & IH1 & IH2)].
  - cbn. repeat split; tauto || lia.
  - cbn [takeToken]. destruct (isDelimiter delimiters c).
    + cbn [fst snd length]. repeat split; [lia | | ].
      * intros x Hx. inversion Hx.
      * intros x Hx. right. exact Hx.
    + destruct (takeToken delimiters text) as [token remaining].
      cbn [fst snd length] in *. repeat split; [lia | | ].
      * intros x Hx. apply elem_of_cons in Hx as [->|Hx]; [left | right; auto].
      * intros x Hx. right. auto.
Qed.

(** What [strtok] returns is cut out of the text, and it leaves strictly
    less of the text. *)
Lemma strtok_chars delimiters text token remaining :
  strtok delimiters text = Some (token, remaining) ->
  length remaining < length text
  /\ (forall c, c ∈ token -> c ∈ text)
  /\ (forall c, c ∈ remaining -> c ∈ text).
Proof.
  unfold strtok. intros H.
  destruct (skipDelimiters_chars delimiters text) as (Hlen & Hin).
  destruct (skipDelimiters delimiters text) as [|c skipped] eqn:Hskip;
    [discriminate|].
  assert (Htake : takeToken delimiters (c :: skipped) = (token, remaining))
    by congruence.
  clear H.
  destruct (takeToken_chars delimiters (c :: skipped)) as (Tlen & T1 & T2).
  rewrite Htake in Tlen, T1, T2. cbn [fst snd] in Tlen, T1, T2.
  assert (length remaining < length (c :: skipped)).
  { revert Htake. cbn [takeToken]. destruct (isDelimiter delimiters c).
    - intros [= _ <-]. cbn [length]. lia.
    - destruct (takeToken_chars delimiters skipped) as (Slen & _).
      destruct (takeToken delimiters skipped) as [t l]. intros [= _ <-].
      cbn [snd length] in *. lia. }
  repeat split; [lia | auto | auto].
Qed.

Lemma takeToken_token delimiters token separator remaining :
  forallb (fun c => negb (isDelimiter delimiters c)) token = true ->
  isDelimiter delimiters separator = true ->
  takeToken delimiters (token ++ separator :: remaining) = (token, remaining).
Proof.
  intros Htoken Hseparator. induction token as [|c token IH].
  - cbn [app takeToken]. rewrite Hseparator. reflexivity.
  - cbn [forallb] in Htoken. apply andb_prop in Htoken as (Hc & Htoken).
    apply negb_true_iff in Hc.
    cbn [app takeToken]. rewrite Hc, (IH Htoken). reflexivity.
Qed.

Lemma takeToken_last delimiters token :
  forallb (fun c => negb (isDelimiter delimiters c)) token = true ->
  takeToken delimiters token = (token, []).
Proof.
  intros Htoken. induction token as [|c token IH]; [reflexivity|].
  cbn [forallb] in Htoken. apply andb_prop in Htoken as (Hc & Htoken).
  apply negb_true_iff in Hc.
  cbn [takeToken]. rewrite Hc, (IH Htoken). reflexivity.
Qed.

Lemma skipDelimiters_token delimiters token text :
  token <> [] ->
  forallb (fun c => negb (isDelimiter delimiters c)) token = true ->
  skipDelimiters delimiters (token ++ text) = token ++ text.
Proof.
  intros Hne Htoken. destruct token as [|c token]; [congruence|].
  cbn [forallb] in Htoken. apply andb_prop in Htoken as (Hc & _).
  apply negb_true_iff in Hc. cbn [app skipDelimiters]. rewrite Hc. reflexivity.
Qed.

Lemma strtok_token delimiters token separator remaining :
  token <> [] ->
  forallb (fun c => negb (isDelimiter delimiters c)) token = true ->
  isDelimiter delimiters separator = true ->
  strtok delimiters (token ++ separator :: remaining) = Some (token, remaining).
Proof.
  intros Hne Htoken Hseparator. unfold strtok.
  rewrite skipDelimiters_token by assumption.
  destruct token as [|c token]; [congruence|].
  cbn [app]. f_equal.
  exact (takeToken_token delimiters (c :: token) separator remaining
           Htoken Hseparator).
Qed.

Lemma strtok_last delimiters token :
  token <> [] ->
  forallb (fun c => negb (isDelimiter delimiters c)) token = true ->
  strtok delimiters token = Some (token, []).
Proof.
  intros Hne Htoken. unfold strtok.
  rewrite <- (app_nil_r token) at 1.
  rewrite skipDelimiters_token by assumption. rewrite app_nil_r.
  destruct token as [|c token]; [congruence|].
  f_equal. exact (takeToken_last delimiters (c :: token) Htoken).
Qed.

Lemma countsLine_tokens nodes edges :
  countsLine nodes edges
  = [Ascii.ascii_of_nat 35] ++ Ascii.ascii_of_nat 32
      :: (NODES ++ Ascii.ascii_of_nat 32
            :: (nodes ++ Ascii.ascii_of_nat 32
                  :: (EDGES ++ Ascii.ascii_of_nat 32 :: edges))).
Proof. reflexivity. Qed.

Lemma plainToken_token token :
  plainToken token = true ->
  token <> []
  /\ forallb (fun c => negb (isDelimiter NEXT_DELIMITERS c)) token = true.
Proof.
  destruct token as [|c token]; [discriminate|].
  intros H. split; [discriminate | exact H].
Qed.


Section GraphFileProperties.

Context {L : Libc} {R : Runtime}.

Lemma parseCounts_unfold fuel token nextIsNodes nextIsEdges numberOfNodes
    numberOfEdges :
  parseCounts (S fuel) token nextIsNodes nextIsEdges numberOfNodes numberOfEdges
  = match token with
    | None => Returned (numberOfNodes, numberOfEdges)
    | Some (token, text) =>
        if tokenEqb token NODES then
          parseCounts fuel (strtok NEXT_DELIMITERS text) true nextIsEdges
            numberOfNodes numberOfEdges
        else if nextIsNodes then
          parseCounts fuel (strtok NEXT_DELIMITERS text) false nextIsEdges
            (atoi (string_of_list_ascii token)) numberOfEdges
        else if tokenEqb token EDGES then
          parseCounts fuel (strtok NEXT_DELIMITERS text) nextIsNodes true
            numberOfNodes numberOfEdges
        else if nextIsEdges then
          Returned (numberOfNodes, atoi (string_of_list_ascii token))
        else
          parseCounts fuel (strtok NEXT_DELIMITERS text) nextIsNodes
            nextIsEdges numberOfNodes numberOfEdges
    end.
Proof. reflexivity. Qed.

Lemma tokenEqb_eq token constant :
  tokenEqb token constant = true -> token = constant.
Proof.
  unfold tokenEqb. intros H. apply String.eqb_eq in H.
  rewrite <- (list_ascii_of_string_of_list_ascii token),
          <- (list_ascii_of_string_of_list_ascii constant), H.
  reflexivity.
Qed.

(** The token loop with enough fuel for the text that is left: it
    returns, and an edge count that no token ["Edges:"] announces stays
    as it was. *)
Lemma parseCounts_returns fuel token nextIsNodes nextIsEdges numberOfNodes
    numberOfEdges :
  roundsLeft token <= fuel ->
  exists counts,
    parseCounts fuel token nextIsNodes nextIsEdges numberOfNodes numberOfEdges
    = Returned counts
    /\ (nextIsEdges = false -> absentFrom letterE token ->
        counts.2 = numberOfEdges).
Proof.
  revert token nextIsNodes nextIsEdges numberOfNodes numberOfEdges.
  induction fuel as [|fuel IH];
    intros token nextIsNodes nextIsEdges numberOfNodes numberOfEdges Hfuel.
  { destruct token as [[? ?]|]; cbn [roundsLeft] in Hfuel; lia. }
  rewrite parseCounts_unfold.
  destruct token as [[token text]|]; [|eexists; split; [reflexivity | auto]].
  cbn [roundsLeft] in Hfuel.
  assert (Hnext : roundsLeft (strtok NEXT_DELIMITERS text) <= fuel).
  { destruct (strtok NEXT_DELIMITERS text) as [[t l]|] eqn:Htok.
    - apply strtok_chars in Htok as (Hlen & _). cbn [roundsLeft]. lia.
    - cbn [roundsLeft]. lia. }
  assert (Habsent : absentFrom letterE (Some (token, text)) ->
                    absentFrom letterE (strtok NEXT_DELIMITERS text)).
  { intros (_ & Htext).
    destruct (strtok NEXT_DELIMITERS text) as [[t l]|] eqn:Htok; [|exact I].
    apply strtok_chars in Htok as (_ & H1 & H2).
    split; intros Hin; apply Htext; auto. }
  destruct (tokenEqb token NODES) eqn:Hnodes.
  { destruct (IH _ true nextIsEdges numberOfNodes numberOfEdges Hnext)
      as (counts & Hrun & Hkeep).
    exists counts. split; [exact Hrun | auto]. }
  destruct nextIsNodes.
  { destruct (IH _ false nextIsEdges (atoi (string_of_list_ascii token))
                 numberOfEdges Hnext) as (counts & Hrun & Hkeep).
    exists counts. split; [exact Hrun | auto]. }
  destruct (tokenEqb token EDGES) eqn:Hedges.
  { destruct (IH _ false true numberOfNodes numberOfEdges Hnext)
      as (counts & Hrun & _).
    exists counts. split; [exact Hrun|]. intros _ (Htoken & _).
    apply tokenEqb_eq in Hedges. subst token. exfalso. apply Htoken.
    left. }
  destruct nextIsEdges.
  { eexists. split; [reflexivity | discriminate]. }
  destruct (IH _ false false numberOfNodes numberOfEdges Hnext)
    as (counts & Hrun & Hkeep).
  exists counts. split; [exact Hrun | auto].
Qed.

Lemma parseHeader_returns buffer :
  exists counts,
    parseHeader buffer = Returned counts
    /\ (letterE ∉ buffer -> counts.2 = 0%Z).
Proof.
  unfold parseHeader.
  destruct (parseCounts_returns (S (S (length buffer)))
              (strtok FIRST_DELIMITERS buffer) false false 0%Z 0%Z)
    as (counts & Hrun & Hkeep).
  { destruct (strtok FIRST_DELIMITERS buffer) as [[t l]|] eqn:Htok.
    - apply strtok_chars in Htok as (Hlen & _). cbn [roundsLeft]. lia.
    - cbn [roundsLeft]. lia. }
  exists counts. split; [exact Hrun|]. intros Hbuffer. apply Hkeep; [reflexivity|].
  destruct (strtok FIRST_DELIMITERS buffer) as [[t l]|] eqn:Htok; [|exact I].
  apply strtok_chars in Htok as (_ & H1 & H2).
  split; intros Hin; apply Hbuffer; auto.
Qed.

(** X21. The token loop over the third line ends on every line: the
    counts are always returned, however long the line and whatever it
    holds. *)
Theorem parseHeader_terminates buffer :
  exists numberOfNodes numberOfEdges,
    parseHeader buffer = Returned (numberOfNodes, numberOfEdges).
Proof.
  destruct (parseHeader_returns buffer) as ([nodes edges] & Hrun & _).
  exists nodes, edges. exact Hrun.
Qed.

(** X22. On a third line of the form [# Nodes: n Edges: m], where [n] and
    [m] hold none of the delimiters and are not themselves the names of
    the counts, the token loop returns what [atoi] reads in [n] and in
    [m]. *)
Theorem parseHeader_counts_line (nodes edges : list Ascii.ascii) :
  plainToken nodes = true ->
  plainToken edges = true ->
  tokenEqb nodes NODES = false ->
  tokenEqb edges NODES = false ->
  tokenEqb edges EDGES = false ->
  parseHeader (countsLine nodes edges)
  = Returned (atoi (string_of_list_ascii nodes),
              atoi (string_of_list_ascii edges)).
Proof.
  intros Hnodes Hedges Hnn Hen Hee.
  apply plainToken_token in Hnodes as (Hnodes0 & Hnodes).
  apply plainToken_token in Hedges as (Hedges0 & Hedges).
  unfold parseHeader.
  assert (Hfuel : exists fuel,
             S (S (length (countsLine nodes edges))) = S (S (S (S (S fuel))))).
  { exists (14 + length nodes + length edges).
    unfold countsLine. rewrite !length_app.
    change (length (list_ascii_of_string "# Nodes: ")) with 9.
    change (length (list_ascii_of_string " Edges: ")) with 8. lia. }
  destruct Hfuel as (fuel & ->).
  rewrite countsLine_tokens.
  rewrite (strtok_token FIRST_DELIMITERS [Ascii.ascii_of_nat 35]);
    [| discriminate | reflexivity | reflexivity].
  rewrite parseCounts_unfold.
  assert (H1 : tokenEqb [Ascii.ascii_of_nat 35] NODES = false) by reflexivity.
  assert (H2 : tokenEqb [Ascii.ascii_of_nat 35] EDGES = false) by reflexivity.
  rewrite H1, H2.
  rewrite (strtok_token NEXT_DELIMITERS NODES);
    [| discriminate | reflexivity | reflexivity].
  rewrite parseCounts_unfold.
  assert (H3 : tokenEqb NODES NODES = true) by reflexivity.
  rewrite H3.
  rewrite (strtok_token NEXT_DELIMITERS nodes);
    [| assumption | assumption | reflexivity].
  rewrite parseCounts_unfold, Hnn.
  rewrite (strtok_token NEXT_DELIMITERS EDGES);
    [| discriminate | reflexivity | reflexivity].
  rewrite parseCounts_unfold.
  assert (H4 : tokenEqb EDGES NODES = false) by reflexivity.
  assert (H5 : tokenEqb EDGES EDGES = true) by reflexivity.
  rewrite H4, H5.
  rewrite (strtok_last NEXT_DELIMITERS edges) by assumption.
  rewrite parseCounts_unfold, Hen, Hee.
  reflexivity.
Qed.

Lemma generateNormalizedTransitionMatrixFromFile_unfold graphFile parameters
    buffer numberOfNodes numberOfEdges :
  4 <= length (headerLines graphFile) ->
  headerLines graphFile !! 2 = Some buffer ->
  parseHeader buffer = Returned (numberOfNodes, numberOfEdges) ->
  generateNormalizedTransitionMatrixFromFile (Some graphFile) parameters
  = let numberOfEdges := Z.to_nat numberOfEdges in
    let r := scanEdges numberOfEdges (edgeScans graphFile)
               (mkReader 0 SparseMatrix.initCooSparseMatrix) in
    if coo_size (tempMatrix r) <? numberOfEdges then Undefined
    else Returned (buildTransitionMatrix r numberOfEdges parameters).
Proof.
  intros Hlines Hbuffer Hcounts.
  unfold generateNormalizedTransitionMatrixFromFile.
  destruct (headerLines graphFile) as [|l1 [|l2 [|l3 [|l4 lines]]]];
    cbn [length] in Hlines; try lia.
  cbn in Hbuffer. injection Hbuffer as ->.
  cbn [lookup list_lookup]. rewrite Hcounts. reflexivity.
Qed.

(** X23. A file of at least four lines whose third line yields the count
    of the edges that follow is read as the graph of exactly those edges:
    the matrix and the page count are the ones built from the edge list,
    whatever else the file holds after them. *)
Theorem graph_file_ingested graphFile parameters buffer numberOfNodes
    numberOfEdges (pairs : list (nat * nat)) (rest : list ScanResult) :
  4 <= length (headerLines graphFile) ->
  headerLines graphFile !! 2 = Some buffer ->
  parseHeader buffer = Returned (numberOfNodes, numberOfEdges) ->
  Z.to_nat numberOfEdges = length pairs ->
  edgeScans graphFile = map (fun e => ScanTwo e.1 e.2) pairs ++ rest ->
  generateNormalizedTransitionMatrixFromFile (Some graphFile) parameters
  = Returned (generateNormalizedTransitionMatrix pairs parameters).
Proof.
  intros Hlines Hbuffer Hcounts Hedges Hscans.
  rewrite (generateNormalizedTransitionMatrixFromFile_unfold _ _ _ _ _
             Hlines Hbuffer Hcounts).
  cbv zeta. rewrite Hedges, Hscans, scanEdges_pairs.
  fold (readEdges pairs).
  destruct (readEdges_spec pairs) as (Helements & _).
  unfold coo_size at 1. rewrite Helements, length_map.
  rewrite Nat.ltb_irrefl. reflexivity.
Qed.

(** X24. A file that cannot be opened, or that ends before its fourth
    line, stops the program with the failure status; no graph is
    built. *)
Theorem short_graph_file_rejected (graphFile : option GraphFile) parameters :
  (forall file, graphFile = Some file -> length (headerLines file) < 4) ->
  generateNormalizedTransitionMatrixFromFile graphFile parameters
  = Exited EXIT_FAILURE.
Proof.
  intros Hshort. destruct graphFile as [file|]; [|reflexivity].
  specialize (Hshort file eq_refl).
  unfold generateNormalizedTransitionMatrixFromFile.
  destruct (headerLines file) as [|l1 [|l2 [|l3 [|l4 lines]]]];
    cbn [length] in Hshort; try lia; try reflexivity.
  cbn [lookup list_lookup].
  destruct (parseHeader_returns l3) as ([nodes edges] & -> & _).
  reflexivity.
Qed.

(** X25. A third line without the letter [E] announces no edge: the file
    is not rejected, none of its edges is read, and the result is the
    graph without edges, with its single page. *)
Theorem unannounced_edges_ignored graphFile parameters buffer :
  4 <= length (headerLines graphFile) ->
  headerLines graphFile !! 2 = Some buffer ->
  letterE ∉ buffer ->
  generateNormalizedTransitionMatrixFromFile (Some graphFile) parameters
  = Returned (generateNormalizedTransitionMatrix [] parameters)
  /\ numberOfPages (generateNormalizedTransitionMatrix [] parameters).2 = 1.
Proof.
  intros Hlines Hbuffer Hletter.
  destruct (parseHeader_returns buffer) as ([nodes edges] & Hcounts & Hzero).
  cbn [snd] in Hzero. rewrite (Hzero Hletter) in Hcounts.
  rewrite (generateNormalizedTransitionMatrixFromFile_unfold _ _ _ _ _
             Hlines Hbuffer Hcounts).
  split; reflexivity.
Qed.

End GraphFileProperties.

(** ** Instances of the further properties *)

Lemma pagerank_terminates_within_cap_witness :
  ((1 <= maxIterations singleEdge_parameters)%Z
   /\ (maxIterations singleEdge_parameters <= Z.of_nat 5)%Z)
  /\ exists s,
       @pagerank spec_runtime 5 singleEdge_matrix singleEdge_vector
         singleEdge_parameters [] = Some s
       /\ (1 <= iterations s <= maxIterations singleEdge_parameters)%Z
       /\ (convergenceStatus s = false
           -> iterations s = maxIterations singleEdge_parameters).
Proof.
  assert (Hm : (1 <= maxIterations singleEdge_parameters)%Z) by (vm_compute; discriminate).
  assert (Hfuel : (maxIterations singleEdge_parameters <= Z.of_nat 5)%Z)
    by (vm_compute; discriminate).
  split; [split; assumption|].
  exact (@pagerank_terminates_within_cap spec_runtime singleEdge_matrix
           singleEdge_vector singleEdge_parameters [] 5 Hm Hfuel).
Defined.

(** On the single edge with tolerance [1e-6] the first check does not
    declare convergence, and with a cap of [5] the run goes on for five
    iterations: with the cap [-1] it is the comparison with the cap that
    ends the loop after the first one. *)
Lemma pagerank_negative_cap_runs_once_witness :
  let p := set_maxIterations (-1) singleEdge_parameters in
  ((maxIterations p < 0)%Z /\ 1 <= 1)
  /\ (numberOfPages p = 2
      /\ convergenceStatus
           (@frameAt spec_runtime singleEdge_matrix singleEdge_vector p [] 1)
         = false
      /\ option_map iterations
           (@pagerank spec_runtime 5 singleEdge_matrix singleEdge_vector
              (set_maxIterations 5 singleEdge_parameters) [])
         = Some 5%Z)
  /\ @pagerank spec_runtime 1 singleEdge_matrix singleEdge_vector p []
     = Some (@pagerank_exit
               (@frameAt spec_runtime singleEdge_matrix singleEdge_vector p [] 1))
  /\ iterations (@pagerank_exit
                   (@frameAt spec_runtime singleEdge_matrix singleEdge_vector
                      p [] 1)) = 1%Z.
Proof.
  intros p.
  assert (Hneg : (maxIterations p < 0)%Z) by reflexivity.
  assert (Hfuel : 1 <= 1) by lia.
  split; [split; assumption|].
  split; [vm_compute; repeat split; reflexivity|].
  exact (@pagerank_negative_cap_runs_once spec_runtime singleEdge_matrix
           singleEdge_vector p [] 1 Hneg Hfuel).
Defined.

Lemma pagerank_converges_on_check_rounds_witness :
  let s := @pagerank_exit
             (@frameAt spec_runtime cycle_matrix cycle_vector loose_parameters [] 1) in
  (@pagerank spec_runtime 4 cycle_matrix cycle_vector loose_parameters [] = Some s
   /\ convergenceStatus s = true)
  /\ (iterations s mod 3 = 1)%Z
  /\ (delta s <? convergenceCriterion loose_parameters)%D = true.
Proof.
  intros s.
  assert (Hrun : @pagerank spec_runtime 4 cycle_matrix cycle_vector
                   loose_parameters [] = Some s) by (vm_compute; reflexivity).
  assert (Hstatus : convergenceStatus s = true) by (vm_compute; reflexivity).
  split; [split; assumption|].
  exact (@pagerank_converges_on_check_rounds spec_runtime cycle_matrix
           cycle_vector loose_parameters [] 4 s Hrun Hstatus).
Defined.

Lemma pagerank_nonpositive_tolerance_never_returns_witness :
  let p := set_numberOfPages 3 (exampleParameters 0 (of_int (-1))) in
  ((zero <? convergenceCriterion p)%D = false /\ maxIterations p = 0%Z)
  /\ (forall t,
        convergenceStatus (@frameAt spec_runtime cycle_matrix cycle_vector p [] t)
        = false)
  /\ forall fuel,
       @pagerank spec_runtime fuel cycle_matrix cycle_vector p [] = None.
Proof.
  intros p.
  assert (Htol : (zero <? convergenceCriterion p)%D = false) by reflexivity.
  assert (Hmax : maxIterations p = 0%Z) by reflexivity.
  split; [split; assumption|].
  pose proof (@pagerank_nonpositive_tolerance_never_returns spec_runtime
                cycle_matrix cycle_vector p [] Htol) as (Hnever & Hloop).
  split; [intros t; exact (proj1 (Hnever t)) | exact (Hloop Hmax)].
Defined.

Lemma first_three_iterations_unsparsified_witness :
  (3 <= 3 /\ 0 < numberOfPages loose_parameters)
  /\ let s := @frameAt spec_runtime cycle_matrix heavy_vector loose_parameters [] 3 in
     convergenceMatrix s !!! 0 = false
     /\ convergedPagerankVector s !!! 0 = zero
     /\ linksFromConvergedPagesPagerankVector s !!! 0 = zero
     /\ elements (linksFromConvergedPages s) = [].
Proof.
  assert (Ht : 3 <= 3) by lia.
  assert (Hi : 0 < numberOfPages loose_parameters) by (vm_compute; lia).
  split; [split; assumption|].
  exact (@first_three_iterations_unsparsified spec_runtime cycle_matrix
           heavy_vector loose_parameters [] 3 0 Ht Hi).
Defined.

Lemma correction_matrix_grows_witness :
  6 <= 7
  /\ (exists added,
        elements (linksFromConvergedPages
                    (@frameAt spec_runtime hub_matrix hub_vector hub_parameters [] 7))
        = elements (linksFromConvergedPages
                      (@frameAt spec_runtime hub_matrix hub_vector hub_parameters [] 6))
          ++ added)
  /\ Forall (fun e =>
               rowIndex e < numberOfPages hub_parameters
               /\ convergenceMatrix
                    (@frameAt spec_runtime hub_matrix hub_vector hub_parameters [] 6)
                  !!! rowIndex e = true)
            (elements (linksFromConvergedPages
                         (@frameAt spec_runtime hub_matrix hub_vector
                            hub_parameters [] 6))).
Proof.
  assert (Hle : 6 <= 7) by lia.
  split; [exact Hle|].
  exact (@correction_matrix_grows spec_runtime hub_matrix hub_vector
           hub_parameters [] 6 7 Hle).
Defined.

Lemma pagerank_output_file_witness :
  let p := mkParameters 3 2 0 tolerance_1e6 damping_085 false true
             "pagerank_output"%string "graph.txt"%string in
  let s := @pagerank_exit (@frameAt spec_runtime cycle_matrix cycle_vector p [[zero]] 2) in
  (@pagerank spec_runtime 2 cycle_matrix cycle_vector p [[zero]] = Some s
   /\ history p = true)
  /\ exists k, iterations s = Z.of_nat k
       /\ outputFile s =
          map (fun j => take (numberOfPages p)
                          (pagerankVector
                             (@frameAt spec_runtime cycle_matrix cycle_vector p
                                [[zero]] j)))
              (seq 1 k).
Proof.
  intros p s.
  assert (Hrun : @pagerank spec_runtime 2 cycle_matrix cycle_vector p [[zero]]
                 = Some s) by (vm_compute; reflexivity).
  assert (Hh : history p = true) by reflexivity.
  split; [split; assumption|].
  exact (proj1 (@pagerank_output_file spec_runtime cycle_matrix cycle_vector p
                  [[zero]] 2 s Hrun) Hh).
Defined.

(** The command line [pagerank -a 0.5 -m 10 -v graph.txt]. *)
Lemma parseArguments_validates_witness :
  let argv := ["pagerank"; "-a"; "0.5"; "-m"; "10"; "-v"; "graph.txt"]%string in
  let p := exampleParameters 7 zero in
  let p' := mkParameters 0 10 0 one half true false "pagerank_output"%string
              "graph.txt"%string in
  @parseArguments example_libc argv p = Returned p'
  /\ validated p' /\ realIterations p' = realIterations p.
Proof.
  intros argv p p'.
  assert (Hret : @parseArguments example_libc argv p = Returned p')
    by (vm_compute; reflexivity).
  split; [exact Hret|].
  exact (@parseArguments_validates example_libc argv p p' Hret).
Defined.

Lemma parseLoop_graph_file_last_witness :
  let argv := ["pagerank"; "graph.txt"; "-v"]%string in
  let p := exampleParameters 0 one in
  (argv !! 1 = Some "graph.txt"%string /\ isFlag "graph.txt" = false
   /\ 2 < length argv)
  /\ @parseLoop example_libc 4 argv 1 p = Exited EXIT_FAILURE.
Proof.
  intros argv p.
  assert (Harg : argv !! 1 = Some "graph.txt"%string) by reflexivity.
  assert (Hflag : isFlag "graph.txt" = false) by reflexivity.
  assert (Hlast : 2 < length argv) by (cbn; lia).
  split; [repeat split; assumption|].
  exact (proj1 (@parseLoop_graph_file_last example_libc 3 argv 1 p
                  "graph.txt"%string Harg Hflag) Hlast).
Defined.

Lemma parseLoop_value_option_last_witness :
  let argv := ["pagerank"; "graph.txt"; "-m"]%string in
  let p := exampleParameters 0 one in
  (argv !! 2 = Some "-m"%string /\ takesValue "-m" = true /\ 3 = length argv)
  /\ checkIncrement 2 (length argv) (argv !! 0) = Returned (2 + 1)
  /\ @parseLoop example_libc 1 argv 2 p = Undefined.
Proof.
  intros argv p.
  assert (Harg : argv !! 2 = Some "-m"%string) by reflexivity.
  assert (Hopt : takesValue "-m" = true) by reflexivity.
  assert (Hlast : 3 = length argv) by reflexivity.
  split; [repeat split; assumption|].
  exact (@parseLoop_value_option_last example_libc 0 argv 2 p "-m"%string
           Harg Hopt Hlast).
Defined.

Lemma parseArguments_unwritable_output_witness :
  let name := "/no/such/dir/out"%string in
  let p := exampleParameters 0 one in
  (@fopen_w example_libc name = false /\ isFlag name = false)
  /\ @parseArguments example_libc ["pagerank"%string; ARGUMENT_OUTPUT_FILENAME; name] p
     = Returned (set_graphFilename name (defaultParameters p))
  /\ forall graph,
       @parseArguments example_libc
         ["pagerank"%string; ARGUMENT_OUTPUT_FILENAME; name; graph] p
       = Exited EXIT_FAILURE.
Proof.
  intros name p.
  assert (Hopen : @fopen_w example_libc name = false) by reflexivity.
  assert (Hflag : isFlag name = false) by reflexivity.
  split; [split; assumption|].
  exact (@parseArguments_unwritable_output example_libc "pagerank"%string name p
           Hopen Hflag).
Defined.

Lemma unchecked_tolerance_never_returns_witness :
  let p0 := exampleParameters 0 one in
  (isFlag "graph.txt" = false
   /\ (@strtod example_libc "-1" =? zero)%D = false
   /\ (zero <? @strtod example_libc "-1")%D = false)
  /\ exists p,
       @parseArguments example_libc
         ["pagerank"%string; ARGUMENT_CONVERGENCE_TOLERANCE; "-1"%string;
          "graph.txt"%string] p0 = Returned p
       /\ convergenceCriterion p = @strtod example_libc "-1"
       /\ maxIterations p = 0%Z
       /\ graphFilename p = "graph.txt"%string
       /\ forall edges fuel, @run spec_runtime fuel edges p = None.
Proof.
  intros p0.
  assert (Hgraph : isFlag "graph.txt" = false) by reflexivity.
  assert (Hnonzero : (@strtod example_libc "-1" =? zero)%D = false) by reflexivity.
  assert (Hneg : (zero <? @strtod example_libc "-1")%D = false) by reflexivity.
  split; [repeat split; assumption|].
  exact (@unchecked_tolerance_never_returns example_libc spec_runtime
           "pagerank"%string "-1"%string "graph.txt"%string p0
           Hgraph Hnonzero Hneg).
Defined.

Lemma parseHeader_counts_line_witness :
  @parseHeader example_libc
    (countsLine (list_ascii_of_string "3")
                (list_ascii_of_string ("3" ++ newline)))
  = Returned (0%Z, 3%Z).
Proof.
  exact (@parseHeader_counts_line example_libc
           (list_ascii_of_string "3") (list_ascii_of_string ("3" ++ newline))
           eq_refl eq_refl eq_refl eq_refl eq_refl).
Defined.

Lemma graph_file_ingested_witness :
  @generateNormalizedTransitionMatrixFromFile example_libc spec_runtime
    (Some cycle_file) (exampleParameters 0 tolerance_1e6)
  = Returned (@generateNormalizedTransitionMatrix spec_runtime cycle
                (exampleParameters 0 tolerance_1e6)).
Proof.
  apply (@graph_file_ingested example_libc spec_runtime cycle_file
           (exampleParameters 0 tolerance_1e6)
           (countsLine (list_ascii_of_string "3")
                       (list_ascii_of_string ("3" ++ newline)))
           0%Z 3%Z cycle [ScanEOF]).
  - vm_compute. lia.
  - reflexivity.
  - vm_compute. reflexivity.
  - reflexivity.
  - reflexivity.
Defined.

Lemma short_graph_file_rejected_witness :
  @generateNormalizedTransitionMatrixFromFile example_libc spec_runtime
    (Some short_file) (exampleParameters 0 tolerance_1e6)
  = Exited EXIT_FAILURE.
Proof.
  apply (@short_graph_file_rejected example_libc spec_runtime).
  intros file [= <-]. vm_compute. lia.
Defined.

Lemma unannounced_edges_ignored_witness :
  @generateNormalizedTransitionMatrixFromFile example_libc spec_runtime
    (Some unannounced_file) (exampleParameters 0 tolerance_1e6)
  = Returned (@generateNormalizedTransitionMatrix spec_runtime []
                (exampleParameters 0 tolerance_1e6))
  /\ numberOfPages (@generateNormalizedTransitionMatrix spec_runtime []
                      (exampleParameters 0 tolerance_1e6)).2 = 1.
Proof.
  apply (@unannounced_edges_ignored example_libc spec_runtime unannounced_file
           (exampleParameters 0 tolerance_1e6)
           (list_ascii_of_string ("# three nodes, three links" ++ newline))).
  - vm_compute. lia.
  - reflexivity.
  - intros Hin. vm_compute in Hin.
    repeat (apply elem_of_cons in Hin as [Hin|Hin]; [discriminate Hin|]).
    inversion Hin.
Defined.

Lemma scanEdges_size_witness :
  coo_size (tempMatrix (scanEdges 2 [ScanTwo 0 1; ScanEOF]
                          (mkReader 0 SparseMatrix.initCooSparseMatrix)))
  = 0 + 2.
Proof.
  apply (proj2 (scanEdges_size 2 [ScanTwo 0 1; ScanEOF]
                  (mkReader 0 SparseMatrix.initCooSparseMatrix))).
  intros [|[|i]] Hi; cbn; [discriminate | discriminate | lia].
Defined.
